(** * ORBITAL COMMAND v3.0 -- the alerting and subscription pipeline of
    [server.js], embedded in Rocq.

    The server is a single-threaded event loop.  Mutable globals ([doc],
    [cachedSpaceWeather], [cacheTime], [lastAlerts]) are the fields of
    [State]; what the outside world answers during a call (HTTP responses,
    spreadsheet faults, clock readings) is an explicit argument of the call.

    Every function is given first as a computation in [M]: the call as it
    runs when no other callback of the process runs between its [await]s.
    The section on overlapping calls then splits [checkAlerts] and
    [addSubscription] at their [await]s, so that two calls can take turns,
    and shows that the split call run alone is the computation in [M]. *)

From Stdlib Require Import ZArith QArith Qround Qabs Lqa String Ascii List Lia Bool.
From stdpp Require Import base tactics option list strings pretty.
Close Scope Q_scope.
Open Scope string_scope.
Open Scope list_scope.
Open Scope Z_scope.

(* ===================================================================== *)
(** ** JavaScript values *)
(* ===================================================================== *)

(** A finite JavaScript number is the rational it denotes ([Q]); arithmetic
    on it is exact, where JavaScript rounds every result to a double.  A
    time from [Date.now()] is an integer number of milliseconds ([Z]).  A
    string is the sequence of its UTF-8 bytes; operations that count UTF-16
    code units, as [substring] does, decode the bytes. *)

Module JS.

(** Truthiness of a string: only [''] is falsy. *)
Definition truthy (s : string) : bool := negb (String.eqb s EmptyString).

(** [o || d] where [o] is a string, [null] or [undefined]. *)
Definition or_str (o : option string) (d : string) : string :=
  match o with
  | Some s => if truthy s then s else d
  | None => d
  end.

(** [n || d] on numbers: [0] is the only falsy finite number. *)
Definition or_num (n d : Q) : Q := if Qeq_bool n 0 then d else n.

(** A value read from [process.env] counts as set when it is a non-empty
    string. *)
Definition is_set (o : option string) : bool :=
  match o with Some s => truthy s | None => false end.

(** [s.endsWith(suffix)] *)
Definition endsWith (s suffix : string) : bool :=
  let n := String.length s in
  let m := String.length suffix in
  (m <=? n)%nat && String.eqb (substring (n - m) m s) suffix.

(** [s.split(c)[0]] for a one-character separator: the text before the
    first [c], the whole of [s] when there is none. *)
Fixpoint split_head (c : ascii) (s : string) : string :=
  match s with
  | EmptyString => EmptyString
  | String a rest => if Ascii.eqb a c then EmptyString else String a (split_head c rest)
  end.

(** [s.replace(c, '')] for a one-character pattern: the first [c] is
    dropped. *)
Fixpoint remove_first (c : ascii) (s : string) : string :=
  match s with
  | EmptyString => EmptyString
  | String a rest => if Ascii.eqb a c then rest else String a (remove_first c rest)
  end.

(** [a >= b] on strings (code-unit order). *)
Definition str_ge (a b : string) : bool := String.leb b a.

(** [Math.round] *)
Definition round (x : Q) : Z := Qfloor (x + (1 # 2))%Q.

(** [xs.slice(0, n)] *)
Definition slice0 {A} (n : nat) (xs : list A) : list A := take n xs.

(** [`${n}`] for an integer below 10^21: its decimal digits. *)
Definition show (n : Z) : string := pretty n.

(** The number of bytes of the UTF-8 sequence that the byte [b] starts. *)
Definition utf8_width (b : ascii) : nat :=
  let n := nat_of_ascii b in
  if (n <? 192)%nat then 1 else if (n <? 224)%nat then 2 else if (n <? 240)%nat then 3 else 4.

(** The first of the two code units (the high surrogate) of a character
    outside the basic plane, given the four bytes of the character.  It is
    written as three bytes, the way UTF-8 writes any 16-bit value. *)
Definition high_surrogate (b0 b1 b2 b3 : ascii) : string :=
  let bits (b : ascii) (mask : N) : N := N.land (N_of_ascii b) mask in
  let cp := (N.shiftl (bits b0 7) 18 + N.shiftl (bits b1 63) 12
             + N.shiftl (bits b2 63) 6 + bits b3 63)%N in
  let hs := (55296 + N.shiftr (cp - 65536) 10)%N in
  String (ascii_of_N (224 + N.shiftr hs 12))
    (String (ascii_of_N (128 + N.land (N.shiftr hs 6) 63))
       (String (ascii_of_N (128 + N.land hs 63)) EmptyString)).

(** The first [n] UTF-16 code units of [s].  A character of the basic plane
    is one code unit and up to three bytes; any other character is two code
    units and four bytes, and when only one code unit is left its high
    surrogate alone is kept.  [pending] counts the bytes still to copy of a
    character already let in. *)
Fixpoint take_units (n pending : nat) (s : string) : string :=
  match s with
  | EmptyString => EmptyString
  | String b rest =>
      match pending, n with
      | S p, _ => String b (take_units n p rest)
      | O, O => EmptyString
      | O, S n' =>
          if (utf8_width b =? 4)%nat then
            match n', rest with
            | S n'', _ => String b (take_units n'' 3 rest)
            | O, String b1 (String b2 (String b3 _)) => high_surrogate b b1 b2 b3
            | O, _ => String b rest
            end
          else String b (take_units n' (utf8_width b - 1) rest)
      end
  end.

(** [s.substring(0, n)] *)
Definition substring0 (n : nat) (s : string) : string := take_units n 0 s.

End JS.

(* ===================================================================== *)
(** ** Environment variables *)
(* ===================================================================== *)

Record Config := {
  LINE_CHANNEL_ACCESS_TOKEN : option string;
  LINE_CHANNEL_SECRET : option string
}.

(* ===================================================================== *)
(** ** The spreadsheet: one list of rows per worksheet

    [doc.sheetsByTitle[title]] is [None] when the worksheet does not exist.
    Every row is a record of its columns, in the order [initGoogleSheets]
    declares them. *)
(* ===================================================================== *)

(** LINE訂閱: 用戶ID, 類型, 名稱, 訂閱時間, 推播時間, 狀態, 上次推播 *)
Record SubRow := {
  sub_userId : string;
  sub_type : string;
  sub_name : string;
  sub_subscribedAt : string;
  sub_pushTime : string;
  sub_status : string;
  sub_lastPush : string
}.

(** 推播紀錄: 時間, 用戶ID, 類型, 內容, 狀態 *)
Record LogRow := {
  log_time : string;
  log_userId : string;
  log_type : string;
  log_content : string;
  log_status : string
}.

(** 太陽風紀錄: 時間, 風速, 密度, Bz, Bt, 溫度 *)
Record SolarWindRow := {
  swr_time : string; swr_speed : Q; swr_density : Q;
  swr_bz : Q; swr_bt : Q; swr_temperature : Q
}.

(** Kp指數紀錄: 時間, Kp, 等級, G等級 *)
Record KpRow := {
  kpr_time : string; kpr_kp : Q; kpr_level : string; kpr_gLevel : string
}.

(** ISS位置: 時間, 緯度, 經度, 高度, 速度, 位置描述 *)
Record IssRow := {
  issr_time : string; issr_lat : string; issr_lon : string;
  issr_altitude : string; issr_velocity : string; issr_location : string
}.

(** 輻射紀錄: 時間, 質子通量, 電子通量, S等級 *)
Record RadiationRow := {
  radr_time : string; radr_proton : Q; radr_electron : Q; radr_sLevel : string
}.

Record Doc := {
  sheet_subscriptions : option (list SubRow);
  sheet_pushLog : option (list LogRow);
  sheet_solarWind : option (list SolarWindRow);
  sheet_kp : option (list KpRow);
  sheet_iss : option (list IssRow);
  sheet_radiation : option (list RadiationRow)
}.

#[global] Instance SubRow_eq_dec : EqDecision SubRow.
Proof. solve_decision. Defined.

Definition ENABLED : string := "啟用".
Definition DISABLED : string := "停用".

(* ===================================================================== *)
(** ** Upstream readings and the aggregated snapshot *)
(* ===================================================================== *)

(** What the nine fetchers return.  Each of them catches its own errors and
    answers [null] (or an empty list) instead, so a reading is an [option]. *)

Record SolarWind := {
  sw_time : option string; sw_speed : Q; sw_density : Q; sw_temperature : Q
}.

Record MagneticField := {
  mf_time : option string; mf_bx : Q; mf_by : Q; mf_bz : Q; mf_bt : Q
}.

Record KpIndex := {
  kp_time : option string; kp_kp : Q; kp_level : string; kp_gLevel : string
}.

Record Xray := {
  x_time : option string; x_flux : Q; x_flareClass : string;
  x_flareLevel : option string; x_fullClass : string
}.

Record Proton := { p_time : option string; p_flux : Q; p_sLevel : string }.

Record Electron := { e_time : option string; e_flux : Q }.

Record CmeEvent := {
  cme_time : option string; cme_speed : Q; cme_type : string;
  cme_halfAngle : Q; cme_note : string; cme_link : string
}.

Record FlareEvent := {
  flr_time : option string; flr_peakTime : option string;
  flr_endTime : option string; flr_classType : option string;
  flr_sourceLocation : option string; flr_link : string
}.

(** The satellite position is copied from the tracking API unchecked, so its
    numeric fields may be [undefined]. *)
Record Iss := {
  iss_lat : option Q; iss_lon : option Q; iss_altitude : option Q;
  iss_velocity : option Q; iss_location : string
}.

(** The array [Promise.all] resolves to in [getSpaceWeather]. *)
Record Readings := {
  r_solarWind : option SolarWind;
  r_magField : option MagneticField;
  r_kp : option KpIndex;
  r_xray : option Xray;
  r_proton : option Proton;
  r_electron : option Electron;
  r_cme : list CmeEvent;
  r_nasaFlares : list FlareEvent;
  r_iss : option Iss
}.

Record Aurora := {
  iceland : Z; norway : Z; finland : Z; canada : Z; alaska : Z;
  hokkaido : Z; japan : Z; scotland : Z; newZealand : Z
}.

(** The [{ success: true, ... }] object. *)
Record Snapshot := {
  timestamp : string;
  alertLevel : string;
  alertMessages : list string;
  solarWind : SolarWind;
  magneticField : MagneticField;
  kp : KpIndex;
  xray : Xray;
  proton : Proton;
  electron : Electron;
  cme : list CmeEvent;
  flares : list FlareEvent;
  iss : option Iss;
  aurora : Aurora
}.

(** What [getSpaceWeather] returns: the snapshot, or the
    [{ success: false, error, timestamp }] sentinel. *)
Inductive SpaceWeather :=
| Built (s : Snapshot)
| Failed (error : string) (failed_at : string).

(** JavaScript objects have an identity.  [oid] is the address the object
    literal was allocated at; two references are the same object exactly when
    their [oid]s agree. *)
Record Obj := { oid : nat; value : SpaceWeather }.

(* ===================================================================== *)
(** ** Outgoing messages *)
(* ===================================================================== *)

Record message := { m_type : string; m_text : option string }.

(** The [messages] argument of [linePush]: a string or an array. *)
Inductive payload :=
| Text (s : string)
| Messages (l : list message).

(* ===================================================================== *)
(** ** Process state and observable effects *)
(* ===================================================================== *)

(** What a run does to the outside, in order.  The source keeps no such
    list; it is what an observer of the process would write down. *)
Inductive event :=
| EvUpstream                                     (* the nine fetchers were started *)
| EvLinePush (to : string) (p : payload)         (* linePush was called *)
| EvHttpPush (to : string) (msgs : list message) (* POST /v2/bot/message/push *)
| EvError (label detail : string).               (* console.error *)

(** [lastAlerts] (lines 90-95): when each kind of alert was last sent. *)
Record LastAlerts := { la_kp : Z; la_flare : Z; la_cme : Z; la_radiation : Z }.

(** The globals of lines 81-95.  [doc] is the spreadsheet with its content,
    [None] when none is connected.  [next_oid] is the next free address for
    an object, [trace] the effects so far. *)
Record State := {
  doc : option Doc;
  cachedSpaceWeather : option Obj;
  cacheTime : Z;
  lastAlerts : LastAlerts;
  next_oid : nat;
  trace : list event
}.

(** One minute (line 84). *)
Definition CACHE_DURATION : Z := 60 * 1000.

(** The state right after the module is loaded. *)
Definition initial_state : State :=
  {| doc := None; cachedSpaceWeather := None; cacheTime := 0;
     lastAlerts := {| la_kp := 0; la_flare := 0; la_cme := 0; la_radiation := 0 |};
     next_oid := 0%nat; trace := [] |}.

Definition with_doc (d : option Doc) (st : State) : State :=
  {| doc := d; cachedSpaceWeather := cachedSpaceWeather st; cacheTime := cacheTime st;
     lastAlerts := lastAlerts st; next_oid := next_oid st; trace := trace st |}.

Definition with_cache (o : Obj) (t : Z) (st : State) : State :=
  {| doc := doc st; cachedSpaceWeather := Some o; cacheTime := t;
     lastAlerts := lastAlerts st; next_oid := next_oid st; trace := trace st |}.

Definition with_lastAlerts (la : LastAlerts) (st : State) : State :=
  {| doc := doc st; cachedSpaceWeather := cachedSpaceWeather st; cacheTime := cacheTime st;
     lastAlerts := la; next_oid := next_oid st; trace := trace st |}.

Definition with_next_oid (n : nat) (st : State) : State :=
  {| doc := doc st; cachedSpaceWeather := cachedSpaceWeather st; cacheTime := cacheTime st;
     lastAlerts := lastAlerts st; next_oid := n; trace := trace st |}.

Definition with_event (e : event) (st : State) : State :=
  {| doc := doc st; cachedSpaceWeather := cachedSpaceWeather st; cacheTime := cacheTime st;
     lastAlerts := lastAlerts st; next_oid := next_oid st; trace := trace st ++ [e] |}.

(* ===================================================================== *)
(** ** Computations: state passing with exceptions

    A computation takes the state and either returns a value or throws; the
    state changes made before a throw stay. *)
(* ===================================================================== *)

Inductive outcome (A : Type) :=
| Returned (a : A)
| Threw (msg : string).
Arguments Returned {A} a.
Arguments Threw {A} msg.

(** What an external call answers: [None] it completes, [Some msg] it throws
    an error with that message. *)
Abbreviation fault := (option string).

Definition M (A : Type) : Type := State → outcome A * State.

#[global] Instance M_ret : MRet M := λ A a st, (Returned a, st).

#[global] Instance M_bind : MBind M := λ A B f m st,
  match m st with
  | (Returned a, st') => f a st'
  | (Threw e, st') => (Threw e, st')
  end.

Definition throw {A} (msg : string) : M A := λ st, (Threw msg, st).

(** [try { body } catch (error) { handler(error.message) }] *)
Definition try_catch {A} (body : M A) (handler : string → M A) : M A := λ st,
  match body st with
  | (Returned a, st') => (Returned a, st')
  | (Threw e, st') => handler e st'
  end.

Definition get : M State := λ st, (Returned st, st).
Definition modify (f : State → State) : M unit := λ st, (Returned tt, f st).
Definition emit (e : event) : M unit := modify (with_event e).

(** A call that may throw and has no effect on the state. *)
Definition external (f : fault) : M unit :=
  match f with None => mret tt | Some msg => throw msg end.

(** [for (const x of xs) { await body(x) }].  The body also receives the
    position of [x], which the source never looks at: it selects what the
    outside answers in that round. *)
Fixpoint for_each_from {A} (i : nat) (xs : list A) (body : nat → A → M unit) : M unit :=
  match xs with
  | [] => mret tt
  | x :: rest => body i x ≫= λ _, for_each_from (S i) rest body
  end.

Definition for_each {A} (xs : list A) (body : nat → A → M unit) : M unit :=
  for_each_from 0 xs body.

(** The final state and the outcome of a computation. *)
Definition exec {A} (m : M A) (st : State) : State := snd (m st).
Definition result {A} (m : M A) (st : State) : outcome A := fst (m st).

(** Lifting the answer of an awaited external call. *)
Definition await {A} (o : outcome A) : M A := λ st, (o, st).

(* ===================================================================== *)
(** ** LINE push  ([linePush], lines 163-209) *)
(* ===================================================================== *)

(** What the outside answers during one [linePush]. *)
Record PushWorld := {
  push_response : outcome bool;  (* [fetch] resolves with [res.ok], or rejects *)
  push_error : outcome string;   (* [res.json()] of a refused push, printed *)
  push_log_time : string;        (* [new Date().toISOString()] *)
  push_log_write : fault         (* [sheet.addRow] *)
}.

Definition with_pushLog (rows : list LogRow) (d : Doc) : Doc :=
  {| sheet_subscriptions := sheet_subscriptions d; sheet_pushLog := Some rows;
     sheet_solarWind := sheet_solarWind d; sheet_kp := sheet_kp d;
     sheet_iss := sheet_iss d; sheet_radiation := sheet_radiation d |}.

(** [Array.isArray(messages) ? messages : [{ type: 'text', text: messages }]] *)
Definition msgArray (messages : payload) : list message :=
  match messages with
  | Messages l => l
  | Text s => [{| m_type := "text"; m_text := Some s |}]
  end.

(** [msgArray[0]?.text?.substring(0, 50) || 'FlexMessage'] *)
Definition preview (msgs : list message) : string :=
  JS.or_str (head msgs ≫= λ m, JS.substring0 50 <$> m_text m) "FlexMessage".

Definition delivery_record (w : PushWorld) (userId : string) (msgs : list message) : LogRow :=
  {| log_time := push_log_time w;
     log_userId := JS.substring0 10 userId +:+ "...";
     log_type := "push";
     log_content := preview msgs;
     log_status := "成功" |}.

(** [if (doc) { const sheet = ...; if (sheet) { await sheet.addRow(row) } }] *)
Definition record_push (w : PushWorld) (row : LogRow) : M unit :=
  st ← get;
  match doc st with
  | Some d =>
      match sheet_pushLog d with
      | Some rows =>
          external (push_log_write w) ;;
          modify (with_doc (Some (with_pushLog (rows ++ [row]) d)))
      | None => mret tt
      end
  | None => mret tt
  end.

Definition linePush (cfg : Config) (w : PushWorld) (userId : string)
    (messages : payload) : M bool :=
  emit (EvLinePush userId messages) ;;
  if negb (JS.is_set (LINE_CHANNEL_ACCESS_TOKEN cfg)) then mret false
  else
    try_catch
      (let msgs := msgArray messages in
       emit (EvHttpPush userId (JS.slice0 5 msgs)) ;;
       ok ← await (push_response w);
       if negb ok then
         error ← await (push_error w);
         emit (EvError "LINE 推播失敗:" error) ;;
         mret false
       else
         record_push w (delivery_record w userId msgs) ;;
         mret true)
      (λ msg, emit (EvError "LINE 推播錯誤:" msg) ;; mret false).

(** The delivery log as stored: the rows of 推播紀錄. *)
Definition delivery_log (st : State) : list LogRow :=
  match doc st with
  | Some d => default [] (sheet_pushLog d)
  | None => []
  end.

(** Whether this call sends an HTTP push, and whether LINE accepts it. *)
Definition push_sent (cfg : Config) : bool := JS.is_set (LINE_CHANNEL_ACCESS_TOKEN cfg).

Definition push_accepted (cfg : Config) (w : PushWorld) : bool :=
  push_sent cfg &&
  match push_response w with Returned ok => ok | Threw _ => false end.

(** Whether the log can take a row right now. *)
Definition log_writable (w : PushWorld) (st : State) : bool :=
  match doc st with
  | Some d => bool_decide (is_Some (sheet_pushLog d)) && bool_decide (push_log_write w = None)
  | None => false
  end.

(* ===================================================================== *)
(** ** The reading cache  ([getSpaceWeather], lines 756-846) *)
(* ===================================================================== *)

(** What the outside answers during one [getSpaceWeather].  The nine fetchers
    of lines 259-515 catch their own errors, so with them [Promise.all]
    resolves; [Threw] stands for an error raised while the [try] block waits
    for the readings, which is what the [catch] clause is there for.  The
    lines the fetchers themselves write to [console.error] ([太陽風 API 錯誤:]
    and the like) are not kept in the trace: of a read, the trace holds the
    fetch and the line of [getSpaceWeather]'s own [catch]. *)
Record SnapshotWorld := {
  snap_now : Z;                      (* [Date.now()] on entry *)
  snap_upstream : outcome Readings;  (* what [await Promise.all([...])] gives *)
  snap_timestamp : string            (* [new Date().toISOString()] *)
}.

(** [kp?.kp || 2] *)
Definition kpValue_of (kp : option KpIndex) : Q :=
  match kp with
  | Some k => JS.or_num (kp_kp k) 2
  | None => 2%Q
  end.

Definition auroraChances (kpValue : Q) : Aurora :=
  let chance (offset : Q) : Z := JS.round (kpValue * 15 + offset)%Q in
  {| iceland := Z.min 95 (chance 40%Q);
     norway := Z.min 90 (chance 30%Q);
     finland := Z.min 85 (chance 20%Q);
     canada := Z.min 80 (chance 10%Q);
     alaska := Z.min 75 (chance 5%Q);
     hokkaido := Z.max 5 (chance (-30)%Q);
     japan := Z.max 5 (chance (-30)%Q);
     scotland := Z.max 10 (chance (-20)%Q);
     newZealand := Z.max 5 (chance (-35)%Q) |}.

(** [kp.gLevel]: a [TypeError] when [kp] is [null]. *)
Definition gLevel_of (kp : option KpIndex) : M string :=
  match kp with
  | Some k => mret (kp_gLevel k)
  | None => throw "Cannot read properties of null (reading 'gLevel')"
  end.

(** Lines 795-801.  The pair is [(alertLevel, alertMessages)]. *)
Definition alert_geomagnetic (kp : option KpIndex) (kpValue : Q)
    (acc : string * list string) : M (string * list string) :=
  let '(alertLevel, alertMessages) := acc in
  if Qle_bool 7 kpValue then
    g ← gLevel_of kp;
    mret ("severe", alertMessages ++ ["🔴 強烈地磁風暴 G" +:+ JS.remove_first "G" g])
  else if Qle_bool 5 kpValue then
    g ← gLevel_of kp;
    mret ("warning", alertMessages ++ ["🟠 地磁風暴 " +:+ g])
  else mret (alertLevel, alertMessages).

(** Lines 803-809. *)
Definition alert_flare (xray : option Xray) (acc : string * list string)
    : string * list string :=
  let '(alertLevel, alertMessages) := acc in
  match xray with
  | Some x =>
      if String.eqb (x_flareClass x) "X" then
        ("severe", alertMessages ++ ["🔴 X 級太陽閃焰 " +:+ x_fullClass x])
      else if String.eqb (x_flareClass x) "M" then
        (if String.eqb alertLevel "normal" then "warning" else alertLevel,
         alertMessages ++ ["🟠 M 級太陽閃焰 " +:+ x_fullClass x])
      else (alertLevel, alertMessages)
  | None => (alertLevel, alertMessages)
  end.

(** Lines 811-815. *)
Definition alert_radiation (proton : option Proton) (acc : string * list string)
    : string * list string :=
  let '(alertLevel, alertMessages) := acc in
  match proton with
  | Some p =>
      if JS.truthy (p_sLevel p) && negb (String.eqb (p_sLevel p) "S0") then
        (if JS.str_ge (p_sLevel p) "S3" then "severe"
         else if String.eqb alertLevel "normal" then "warning" else alertLevel,
         alertMessages ++ ["☢️ 輻射風暴 " +:+ p_sLevel p])
      else (alertLevel, alertMessages)
  | None => (alertLevel, alertMessages)
  end.

Definition default_solarWind : SolarWind :=
  {| sw_time := None; sw_speed := 400; sw_density := 4; sw_temperature := 100000 |}.
Definition default_magneticField : MagneticField :=
  {| mf_time := None; mf_bx := 0; mf_by := 0; mf_bz := 0; mf_bt := 5 |}.
Definition default_kp : KpIndex :=
  {| kp_time := None; kp_kp := 2; kp_level := "quiet"; kp_gLevel := "G0" |}.
Definition default_xray : Xray :=
  {| x_time := None; x_flux := 1 # 10000000; x_flareClass := "B";
     x_flareLevel := None; x_fullClass := "B1.0" |}.
Definition default_proton : Proton :=
  {| p_time := None; p_flux := 1; p_sLevel := "S0" |}.
Definition default_electron : Electron := {| e_time := None; e_flux := 10000 |}.

(** Lines 777-832: everything between the readings and the cache update. *)
Definition build_snapshot (r : Readings) (ts : string) : M Snapshot :=
  let kpValue := kpValue_of (r_kp r) in
  let auroraChances := auroraChances kpValue in
  acc ← alert_geomagnetic (r_kp r) kpValue ("normal", []);
  let '(alertLevel, alertMessages) :=
    alert_radiation (r_proton r) (alert_flare (r_xray r) acc) in
  mret {| timestamp := ts;
          alertLevel := alertLevel;
          alertMessages := alertMessages;
          solarWind := default default_solarWind (r_solarWind r);
          magneticField := default default_magneticField (r_magField r);
          kp := default default_kp (r_kp r);
          xray := default default_xray (r_xray r);
          proton := default default_proton (r_proton r);
          electron := default default_electron (r_electron r);
          cme := r_cme r;
          flares := r_nasaFlares r;
          iss := r_iss r;
          aurora := auroraChances |}.

(** An object literal: a fresh object. *)
Definition new_object (v : SpaceWeather) : M Obj := λ st,
  (Returned {| oid := next_oid st; value := v |}, with_next_oid (S (next_oid st)) st).

(** [!forceRefresh && cachedSpaceWeather && (now - cacheTime) < CACHE_DURATION] *)
Definition cache_hit (forceRefresh : bool) (now : Z) (st : State) : option Obj :=
  match cachedSpaceWeather st with
  | Some o =>
      if negb forceRefresh && (now - cacheTime st <? CACHE_DURATION) then Some o else None
  | None => None
  end.

Definition getSpaceWeather (w : SnapshotWorld) (forceRefresh : bool) : M Obj :=
  let now := snap_now w in
  st ← get;
  match cache_hit forceRefresh now st with
  | Some cached => mret cached
  | None =>
      try_catch
        (emit EvUpstream ;;
         r ← await (snap_upstream w);
         s ← build_snapshot r (snap_timestamp w);
         result ← new_object (Built s);
         modify (with_cache result now) ;;
         mret result)
        (λ msg,
           emit (EvError "綜合數據錯誤:" msg) ;;
           new_object (Failed msg (snap_timestamp w)))
  end.

(* ===================================================================== *)
(** ** Subscription management  (lines 1308-1408) *)
(* ===================================================================== *)

Definition with_subscriptions (rows : list SubRow) (d : Doc) : Doc :=
  {| sheet_subscriptions := Some rows; sheet_pushLog := sheet_pushLog d;
     sheet_solarWind := sheet_solarWind d; sheet_kp := sheet_kp d;
     sheet_iss := sheet_iss d; sheet_radiation := sheet_radiation d |}.

(** The rows of LINE訂閱 as stored. *)
Definition subscriptions (st : State) : list SubRow :=
  default [] (doc st ≫= sheet_subscriptions).

Definition update_subscriptions (f : list SubRow → list SubRow) (st : State) : State :=
  match doc st with
  | Some d =>
      match sheet_subscriptions d with
      | Some rows => with_doc (Some (with_subscriptions (f rows) d)) st
      | None => st
      end
  | None => st
  end.

(** [const sheet = doc.sheetsByTitle['LINE訂閱']; const rows = await sheet.getRows()] *)
Definition getRows (f : fault) : M (list SubRow) :=
  st ← get;
  match doc st ≫= sheet_subscriptions with
  | Some rows => external f ;; mret rows
  | None => throw "Cannot read properties of undefined (reading 'getRows')"
  end.

(** [await row.save()] for the row at position [i] *)
Definition save (f : fault) (i : nat) (row : SubRow) : M unit :=
  external f ;; modify (update_subscriptions (λ rows, <[i := row]> rows)).

(** [await sheet.addRow(row)] *)
Definition addRow (f : fault) (row : SubRow) : M unit :=
  external f ;; modify (update_subscriptions (λ rows, rows ++ [row])).

Definition set_pushTime (v : string) (row : SubRow) : SubRow :=
  {| sub_userId := sub_userId row; sub_type := sub_type row; sub_name := sub_name row;
     sub_subscribedAt := sub_subscribedAt row; sub_pushTime := v;
     sub_status := sub_status row; sub_lastPush := sub_lastPush row |}.

Definition set_status (v : string) (row : SubRow) : SubRow :=
  {| sub_userId := sub_userId row; sub_type := sub_type row; sub_name := sub_name row;
     sub_subscribedAt := sub_subscribedAt row; sub_pushTime := sub_pushTime row;
     sub_status := v; sub_lastPush := sub_lastPush row |}.

Record Reply := { success : bool; reply_message : option string }.

Record SubscribeWorld := {
  subscribe_read : fault;   (* [sheet.getRows()] *)
  subscribe_write : fault;  (* [existing.save()] or [sheet.addRow()] *)
  subscribe_time : string   (* [new Date().toISOString()] *)
}.

Definition addSubscription (w : SubscribeWorld) (userId type name : string)
    (pushTime : option string) : M Reply :=
  st ← get;
  match doc st with
  | None => mret {| success := true; reply_message := Some "訂閱成功（記憶體模式）" |}
  | Some _ =>
      try_catch
        (rows ← getRows (subscribe_read w);
         match list_find (λ row, sub_userId row = userId ∧ sub_type row = type) rows with
         | Some (i, existing) =>
             let existing := set_pushTime (JS.or_str pushTime EmptyString) existing in
             let existing := set_status ENABLED existing in
             save (subscribe_write w) i existing ;;
             mret {| success := true; reply_message := Some "訂閱已更新" |}
         | None =>
             addRow (subscribe_write w)
               {| sub_userId := userId;
                  sub_type := type;
                  sub_name := name;
                  sub_subscribedAt := subscribe_time w;
                  sub_pushTime := JS.or_str pushTime EmptyString;
                  sub_status := ENABLED;
                  sub_lastPush := EmptyString |} ;;
             mret {| success := true; reply_message := Some "訂閱成功" |}
         end)
        (λ msg,
           emit (EvError "訂閱失敗:" msg) ;;
           mret {| success := false; reply_message := Some "訂閱失敗" |})
  end.

Record UnsubscribeWorld := {
  unsubscribe_read : fault;        (* [sheet.getRows()] *)
  unsubscribe_save : nat → fault   (* [row.save()], per row position *)
}.

Definition removeSubscription (w : UnsubscribeWorld) (userId : string)
    (type : option string) : M Reply :=
  st ← get;
  match doc st with
  | None => mret {| success := true; reply_message := None |}
  | Some _ =>
      try_catch
        (rows ← getRows (unsubscribe_read w);
         for_each rows (λ i row,
           if bool_decide (sub_userId row = userId) then
             if negb (JS.is_set type) || bool_decide (Some (sub_type row) = type) then
               save (unsubscribe_save w i) i (set_status DISABLED row)
             else mret tt
           else mret tt) ;;
         mret {| success := true;
                 reply_message := Some (if JS.is_set type then "已取消訂閱" else "已取消所有訂閱") |})
        (λ _, mret {| success := false; reply_message := Some "取消失敗" |})
  end.

Record Subscription := {
  s_type : string; s_name : string; s_pushTime : string; s_subscribedAt : string
}.

Definition getSubscriptions (read : fault) (userId : string) : M (list Subscription) :=
  st ← get;
  match doc st with
  | None => mret []
  | Some _ =>
      try_catch
        (rows ← getRows read;
         mret ((λ row, {| s_type := sub_type row; s_name := sub_name row;
                          s_pushTime := sub_pushTime row;
                          s_subscribedAt := sub_subscribedAt row |})
               <$> filter (λ row, sub_userId row = userId ∧ sub_status row = ENABLED) rows))
        (λ _, mret [])
  end.

Record Subscriber := { userId : string; pushTime : string }.

Definition getSubscribersByType (read : fault) (type : string) : M (list Subscriber) :=
  st ← get;
  match doc st with
  | None => mret []
  | Some _ =>
      try_catch
        (rows ← getRows read;
         mret ((λ row, {| userId := sub_userId row; pushTime := sub_pushTime row |})
               <$> filter (λ row, sub_type row = type ∧ sub_status row = ENABLED) rows))
        (λ _, mret [])
  end.

(* ===================================================================== *)
(** ** Historical sheets *)
(* ===================================================================== *)

Definition with_solarWind (rows : list SolarWindRow) (d : Doc) : Doc :=
  {| sheet_subscriptions := sheet_subscriptions d; sheet_pushLog := sheet_pushLog d;
     sheet_solarWind := Some rows; sheet_kp := sheet_kp d;
     sheet_iss := sheet_iss d; sheet_radiation := sheet_radiation d |}.

Definition with_kp (rows : list KpRow) (d : Doc) : Doc :=
  {| sheet_subscriptions := sheet_subscriptions d; sheet_pushLog := sheet_pushLog d;
     sheet_solarWind := sheet_solarWind d; sheet_kp := Some rows;
     sheet_iss := sheet_iss d; sheet_radiation := sheet_radiation d |}.

Definition with_iss (rows : list IssRow) (d : Doc) : Doc :=
  {| sheet_subscriptions := sheet_subscriptions d; sheet_pushLog := sheet_pushLog d;
     sheet_solarWind := sheet_solarWind d; sheet_kp := sheet_kp d;
     sheet_iss := Some rows; sheet_radiation := sheet_radiation d |}.

Definition with_radiation (rows : list RadiationRow) (d : Doc) : Doc :=
  {| sheet_subscriptions := sheet_subscriptions d; sheet_pushLog := sheet_pushLog d;
     sheet_solarWind := sheet_solarWind d; sheet_kp := sheet_kp d;
     sheet_iss := sheet_iss d; sheet_radiation := Some rows |}.

(** [const sheet = doc.sheetsByTitle[title]; await sheet.addRow({ ... })]:
    the method is looked up first (a [TypeError] when the worksheet is
    missing), then the row literal is evaluated, then the row is sent. *)
Definition append_row {R} (sheet : Doc → option (list R))
    (put : list R → Doc → Doc) (f : fault) (row : M R) : M unit :=
  st ← get;
  match doc st with
  | Some d =>
      match sheet d with
      | Some rows =>
          r ← row;
          external f ;;
          modify (λ st,
            match doc st with
            | Some d => with_doc (Some (put (default [] (sheet d) ++ [r]) d)) st
            | None => st
            end)
      | None => throw "Cannot read properties of undefined (reading 'addRow')"
      end
  | None => throw "Cannot read properties of null (reading 'sheetsByTitle')"
  end.

(** The properties of [getSpaceWeather]'s result as the callers read them:
    [undefined] on the failure sentinel. *)
Definition data_solarWind (data : SpaceWeather) : option SolarWind :=
  match data with Built s => Some (solarWind s) | Failed _ _ => None end.
Definition data_magneticField (data : SpaceWeather) : option MagneticField :=
  match data with Built s => Some (magneticField s) | Failed _ _ => None end.
Definition data_kp (data : SpaceWeather) : option KpIndex :=
  match data with Built s => Some (kp s) | Failed _ _ => None end.
Definition data_xray (data : SpaceWeather) : option Xray :=
  match data with Built s => Some (xray s) | Failed _ _ => None end.
Definition data_proton (data : SpaceWeather) : option Proton :=
  match data with Built s => Some (proton s) | Failed _ _ => None end.
Definition data_electron (data : SpaceWeather) : option Electron :=
  match data with Built s => Some (electron s) | Failed _ _ => None end.
Definition data_iss (data : SpaceWeather) : option Iss :=
  match data with Built s => iss s | Failed _ _ => None end.

Inductive topic := TopicAurora | TopicFlare.

(** One hour (line 1723). *)
Definition ALERT_COOLDOWN : Z := 60 * 60 * 1000.

Definition record_kp (now : Z) (la : LastAlerts) : LastAlerts :=
  {| la_kp := now; la_flare := la_flare la; la_cme := la_cme la;
     la_radiation := la_radiation la |}.

Definition record_flare (now : Z) (la : LastAlerts) : LastAlerts :=
  {| la_kp := la_kp la; la_flare := now; la_cme := la_cme la;
     la_radiation := la_radiation la |}.

(** [spaceWeather.kp?.kp >= 5] and [spaceWeather.xray?.flareClass === 'X'] *)
Definition kp_crossed (spaceWeather : SpaceWeather) : bool :=
  match data_kp spaceWeather with
  | Some k => Qle_bool 5 (kp_kp k)
  | None => false
  end.

Definition flare_crossed (spaceWeather : SpaceWeather) : bool :=
  match data_xray spaceWeather with
  | Some x => String.eqb (x_flareClass x) "X"
  | None => false
  end.

(** The first line of each alert message. *)
Definition AURORA_HEADER : string := "🌌 ⚠️ 極光警報！".
Definition FLARE_HEADER : string := "🔥 ⚠️ X 級太陽閃焰警報！".

(** Incoming webhook requests. *)
Record WebhookEvent := {
  ev_type : string;                 (* [event.type] *)
  ev_message_type : option string;  (* [event.message.type]; [None]: no [message] *)
  ev_text : string;
  ev_userId : string;
  ev_replyToken : string
}.

(** [req.body.events], which the sender of the request chooses freely. *)
Inductive EventsField :=
| EventsAbsent                         (* [undefined], [null] or another falsy value *)
| EventsArray (l : list WebhookEvent)  (* an array of event objects *)
| EventsOther.                         (* a truthy value that cannot be iterated:
                                          a number, [true], an object *)

Record Request := {
  req_rawBody : option string;     (* [req.rawBody]; [None] when no JSON body was parsed *)
  req_signature : option string;   (* [req.headers['x-line-signature']] *)
  req_body_events : EventsField    (* [req.body.events] *)
}.

(** The events of a request that carries an array of them. *)
Definition req_events (req : Request) : option (list WebhookEvent) :=
  match req_body_events req with
  | EventsArray l => Some l
  | EventsAbsent | EventsOther => None
  end.

Record Response := { status : Z; body : string }.

(** What the outside answers during one scheduled-delivery tick. *)
Record DailyWorld := {
  daily_currentTime : string;     (* [now.toLocaleTimeString('zh-TW', { ... })] *)
  daily_read : fault;             (* [sheet.getRows()] *)
  daily_snapshot : SnapshotWorld;
  daily_report_time : string;     (* [new Date().toLocaleString(...)] in the report *)
  daily_push : nat → PushWorld    (* per recipient, in list order *)
}.

(** What the outside answers during one alert check. *)
Record AlertWorld := {
  alert_snapshot : SnapshotWorld;
  alert_now : Z;                       (* [Date.now()] after the snapshot *)
  alert_aurora_read : fault;
  alert_aurora_push : nat → PushWorld;
  alert_flare_read : fault;
  alert_flare_push : nat → PushWorld
}.

(** What the outside answers during one recording pass. *)
Record RecordWorld := {
  rec_now : string;                (* [new Date().toISOString()] *)
  rec_snapshot : SnapshotWorld;
  rec_solarWind_write : fault;
  rec_kp_write : fault;
  rec_iss_write : fault;
  rec_radiation_write : fault
}.

(* ===================================================================== *)
(** ** The server proper *)
(* ===================================================================== *)

Section Server.

(** Library functions the server calls. *)
Variable toFixed : nat → Q → string.                     (* [n.toFixed(digits)] *)
Variable hmac_sha256_base64 : string → string → string.  (* [crypto.createHmac('SHA256', key).update(body).digest('base64')] *)

(** The wording of the two long message templates (lines 857-890 and
    898-923), as functions of what they interpolate. *)
Variable report_text : string → Snapshot → string.
Variable aurora_text : Snapshot → string.

(** The three chat-event handlers (lines 1452-1680); the webhook only
    sequences them. *)
Variable handleTextMessage handleFollow handleUnfollow : WebhookEvent → M unit.

Variable cfg : Config.

(** *** Signature check (lines 149-158) *)

Definition validateLineSignature (body signature : option string) : M bool :=
  match LINE_CHANNEL_SECRET cfg with
  | Some secret =>
      if negb (JS.truthy secret) then mret true
      else
        match body with
        | Some b => mret (bool_decide (Some (hmac_sha256_base64 secret b) = signature))
        | None => throw "The data argument must be of type string or Buffer"
        end
  | None => mret true
  end.

(** *** Message formatting (lines 851-924): both read [data.kp.kp] first,
    a [TypeError] on the failure sentinel. *)

Definition formatSpaceWeatherMessage (now : string) (data : SpaceWeather) : M string :=
  match data with
  | Built s => mret (report_text now s)
  | Failed _ _ => throw "Cannot read properties of undefined (reading 'kp')"
  end.

Definition formatAuroraMessage (data : SpaceWeather) : M string :=
  match data with
  | Built s => mret (aurora_text s)
  | Failed _ _ => throw "Cannot read properties of undefined (reading 'kp')"
  end.

(** *** Webhook (lines 1413-1450) *)

Definition handle_event (event : WebhookEvent) : M unit :=
  if String.eqb (ev_type event) "message" then
    match ev_message_type event with
    | None => throw "Cannot read properties of undefined (reading 'type')"
    | Some t =>
        if String.eqb t "text" then handleTextMessage event else mret tt
    end
  else if String.eqb (ev_type event) "follow" then handleFollow event
  else if String.eqb (ev_type event) "unfollow" then handleUnfollow event
  else mret tt.

Definition webhook (req : Request) : M Response :=
  if negb (JS.is_set (LINE_CHANNEL_ACCESS_TOKEN cfg)) then
    emit (EvError "❌ [LINE] LINE_CHANNEL_ACCESS_TOKEN 未設定！無法回覆訊息" EmptyString) ;;
    mret {| status := 200; body := "OK (no token configured)" |}
  else
    let signature := req_signature req in
    rejected ←
      (if JS.is_set (LINE_CHANNEL_SECRET cfg) then
         valid ← validateLineSignature (req_rawBody req) signature;
         mret (negb valid)
       else mret false);
    if (rejected : bool) then
      emit (EvError "❌ [LINE] 簽名驗證失敗" EmptyString) ;;
      mret {| status := 401; body := "Invalid signature" |}
    else
      (* [req.body.events || []]; [for (const event of events)] *)
      events ← match req_body_events req with
               | EventsAbsent => mret []
               | EventsArray l => mret l
               | EventsOther => throw "events is not iterable"
               end;
      for_each events (λ _ event,
        try_catch (handle_event event)
                  (λ msg, emit (EvError "❌ [LINE] 處理事件錯誤:" msg))) ;;
      mret {| status := 200; body := "OK" |}.

(** *** Scheduled delivery (lines 1687-1717) *)

Definition dailyPush (w : DailyWorld) : M unit :=
  let currentTime := daily_currentTime w in
  if negb (JS.endsWith currentTime ":00") then mret tt
  else
    let hour := JS.split_head ":" currentTime +:+ ":00" in
    subscribers ← getSubscribersByType (daily_read w) "daily";
    let targetUsers := filter (λ s, pushTime s = hour) subscribers in
    if (length targetUsers =? 0)%nat then mret tt
    else
      spaceWeather ← getSpaceWeather (daily_snapshot w) true;
      message ← formatSpaceWeatherMessage (daily_report_time w) (value spaceWeather);
      for_each targetUsers (λ i user,
        linePush cfg (daily_push w i) (userId user) (Text message) ;;
        (* 100 ms pause *)
        mret tt).

(** *** Alert check (lines 1720-1766) *)

Definition aurora_alert_text (spaceWeather : SpaceWeather) : M string :=
  match data_kp spaceWeather with
  | Some k =>
      forecast ← formatAuroraMessage spaceWeather;
      mret (AURORA_HEADER +:+ "

Kp 指數已達 " +:+ toFixed 1 (kp_kp k) +:+ "
地磁警報等級：" +:+ kp_gLevel k +:+ "

" +:+ forecast)
  | None => throw "Cannot read properties of undefined (reading 'kp')"
  end.

Definition flare_alert_text (spaceWeather : SpaceWeather) : M string :=
  match data_xray spaceWeather with
  | Some x =>
      mret (FLARE_HEADER +:+ "

偵測到 " +:+ x_fullClass x +:+ " 級太陽閃焰

可能影響：
• 高頻無線電通訊中斷
• GPS 定位精度下降
• 衛星通訊干擾

請密切關注後續發展")
  | None => throw "Cannot read properties of undefined (reading 'fullClass')"
  end.

Definition checkAlerts (w : AlertWorld) : M unit :=
  o ← getSpaceWeather (alert_snapshot w) true;
  let spaceWeather := value o in
  let now := alert_now w in
  (* Kp >= 5 *)
  (st ← get;
   if kp_crossed spaceWeather && (now - la_kp (lastAlerts st) >? ALERT_COOLDOWN) then
     subscribers ← getSubscribersByType (alert_aurora_read w) "aurora";
     if (0 <? length subscribers)%nat then
       msg ← aurora_alert_text spaceWeather;
       for_each subscribers (λ i user,
         linePush cfg (alert_aurora_push w i) (userId user) (Text msg) ;; mret tt) ;;
       modify (λ st, with_lastAlerts (record_kp now (lastAlerts st)) st)
     else mret tt
   else mret tt) ;;
  (* X-class flare *)
  (st ← get;
   if flare_crossed spaceWeather && (now - la_flare (lastAlerts st) >? ALERT_COOLDOWN) then
     subscribers ← getSubscribersByType (alert_flare_read w) "flare";
     if (0 <? length subscribers)%nat then
       msg ← flare_alert_text spaceWeather;
       for_each subscribers (λ i user,
         linePush cfg (alert_flare_push w i) (userId user) (Text msg) ;; mret tt) ;;
       modify (λ st, with_lastAlerts (record_flare now (lastAlerts st)) st)
     else mret tt
   else mret tt).

(** *** Recording (lines 1769-1828) *)

(** [x.toFixed(digits)]: a [TypeError] when [x] is [undefined]. *)
Definition num_toFixed (digits : nat) (x : option Q) : M string :=
  match x with
  | Some q => mret (toFixed digits q)
  | None => throw "Cannot read properties of undefined (reading 'toFixed')"
  end.

Definition recordData (w : RecordWorld) : M unit :=
  st ← get;
  match doc st with
  | None => mret tt
  | Some _ =>
      try_catch
        (let now := rec_now w in
         o ← getSpaceWeather (rec_snapshot w) true;
         let data := value o in
         (* solar wind *)
         match data_solarWind data with
         | Some solarWind =>
             append_row sheet_solarWind with_solarWind (rec_solarWind_write w)
               (mret {| swr_time := now;
                        swr_speed := sw_speed solarWind;
                        swr_density := sw_density solarWind;
                        swr_bz := from_option (λ m, JS.or_num (mf_bz m) 0) 0%Q (data_magneticField data);
                        swr_bt := from_option (λ m, JS.or_num (mf_bt m) 0) 0%Q (data_magneticField data);
                        swr_temperature := sw_temperature solarWind |})
         | None => mret tt
         end ;;
         (* Kp *)
         match data_kp data with
         | Some k =>
             append_row sheet_kp with_kp (rec_kp_write w)
               (mret {| kpr_time := now; kpr_kp := kp_kp k;
                        kpr_level := kp_level k; kpr_gLevel := kp_gLevel k |})
         | None => mret tt
         end ;;
         (* ISS *)
         match data_iss data with
         | Some i =>
             append_row sheet_iss with_iss (rec_iss_write w)
               (lat ← num_toFixed 4 (iss_lat i);
                lon ← num_toFixed 4 (iss_lon i);
                altitude ← num_toFixed 1 (iss_altitude i);
                velocity ← num_toFixed 0 (iss_velocity i);
                mret {| issr_time := now; issr_lat := lat; issr_lon := lon;
                        issr_altitude := altitude; issr_velocity := velocity;
                        issr_location := iss_location i |})
         | None => mret tt
         end ;;
         (* radiation *)
         match data_proton data with
         | Some p =>
             append_row sheet_radiation with_radiation (rec_radiation_write w)
               (mret {| radr_time := now; radr_proton := p_flux p;
                        radr_electron := from_option (λ e, JS.or_num (e_flux e) 0) 0%Q (data_electron data);
                        radr_sLevel := p_sLevel p |})
         | None => mret tt
         end)
        (λ msg, emit (EvError "記錄錯誤:" msg))
  end.

End Server.

(* ===================================================================== *)
(** ** The wording of the report and of the aurora forecast
       (lines 851-924) *)
(* ===================================================================== *)

Section Wording.

Variable toFixed : nat → Q → string.  (* [n.toFixed(digits)] *)

(** Lines 854 and 896. *)
Definition kpEmoji (kp : Q) : string :=
  if Qle_bool kp 2 then "🟢" else if Qle_bool kp 4 then "🟡"
  else if Qle_bool kp 6 then "🟠" else "🔴".

(** Line 855. *)
Definition kpStatus (kp : Q) : string :=
  if Qle_bool kp 2 then "平靜" else if Qle_bool kp 4 then "活躍"
  else if Qle_bool kp 6 then "風暴" else "劇烈".

(** The template of lines 857-890; [now] is
    [new Date().toLocaleString('zh-TW', { timeZone: 'Asia/Taipei' })]. *)
Definition space_weather_report (now : string) (data : Snapshot) : string :=
  "🛰️ 太空氣象報告
━━━━━━━━━━━━━━━━

🌌 極光預報
"
  +:+ kpEmoji (kp_kp (kp data))
  +:+ " Kp 指數："
  +:+ toFixed 1 (kp_kp (kp data))
  +:+ " ("
  +:+ kpStatus (kp_kp (kp data))
  +:+ ")
📊 地磁警報："
  +:+ kp_gLevel (kp data)
  +:+ "

🌍 極光可見機率
🇮🇸 冰島："
  +:+ JS.show (iceland (aurora data))
  +:+ "%
🇳🇴 挪威："
  +:+ JS.show (norway (aurora data))
  +:+ "%
🇫🇮 芬蘭："
  +:+ JS.show (finland (aurora data))
  +:+ "%
🇯🇵 北海道："
  +:+ JS.show (hokkaido (aurora data))
  +:+ "%

━━━━━━━━━━━━━━━━

☀️ 太陽活動
🔥 閃焰等級："
  +:+ x_fullClass (xray data)
  +:+ "
💨 太陽風："
  +:+ JS.show (JS.round (sw_speed (solarWind data)))
  +:+ " km/s
🧲 磁場 Bz："
  +:+ toFixed 1 (mf_bz (magneticField data))
  +:+ " nT
☢️ 輻射等級："
  +:+ p_sLevel (proton data)
  +:+ "

━━━━━━━━━━━━━━━━

🚀 ISS 國際太空站
📍 "
  +:+ JS.or_str (iss_location <$> iss data) "計算中"
  +:+ "
🌐 "
  +:+ JS.or_str (toFixed 2 <$> (iss data ≫= iss_lat)) "--"
  +:+ "°, "
  +:+ JS.or_str (toFixed 2 <$> (iss data ≫= iss_lon)) "--"
  +:+ "°
📡 高度："
  +:+ JS.show (JS.round (from_option (λ a, JS.or_num a 408) 408%Q (iss data ≫= iss_altitude)))
  +:+ " km

━━━━━━━━━━━━━━━━

⏰ 更新時間："
  +:+ now
  +:+ "

💡 輸入指令查看更多：
「極光」「太陽風」「ISS」「訂閱」".

(** The template of lines 898-923. *)
Definition aurora_forecast (data : Snapshot) : string :=
  "🌌 極光預報
━━━━━━━━━━━━━━━━

"
  +:+ kpEmoji (kp_kp (kp data))
  +:+ " Kp 地磁指數："
  +:+ toFixed 1 (kp_kp (kp data))
  +:+ "
📊 地磁警報等級："
  +:+ kp_gLevel (kp data)
  +:+ "

🌍 各地可見機率：

🇮🇸 冰島 雷克雅維克："
  +:+ JS.show (iceland (aurora data))
  +:+ "%
🇳🇴 挪威 特羅姆瑟："
  +:+ JS.show (norway (aurora data))
  +:+ "%
🇫🇮 芬蘭 羅瓦涅米："
  +:+ JS.show (finland (aurora data))
  +:+ "%
🇨🇦 加拿大 黃刀鎮："
  +:+ JS.show (canada (aurora data))
  +:+ "%
🇺🇸 阿拉斯加："
  +:+ JS.show (alaska (aurora data))
  +:+ "%
🇯🇵 日本 北海道："
  +:+ JS.show (hokkaido (aurora data))
  +:+ "%
🏴󠁧󠁢󠁳󠁣󠁴󠁿 蘇格蘭："
  +:+ JS.show (scotland (aurora data))
  +:+ "%
🇳🇿 紐西蘭："
  +:+ JS.show (newZealand (aurora data))
  +:+ "%

━━━━━━━━━━━━━━━━

📖 Kp 指數說明：
0-2：平靜，僅北極圈可見
3-4：活躍，北歐可見
5-6：風暴，中緯度可見
7+：劇烈，低緯度可能可見

💡 輸入「訂閱極光」可在 Kp≥5 時收到通知".

End Wording.

(* ===================================================================== *)
(** ** Observations on runs *)
(* ===================================================================== *)

(** The calls of [linePush] recorded in a trace, in order. *)
Definition line_pushes (tr : list event) : list (string * payload) :=
  omap (λ e, match e with EvLinePush u p => Some (u, p) | _ => None end) tr.

(** The push requests sent to LINE. *)
Definition http_pushes (tr : list event) : list (string * list message) :=
  omap (λ e, match e with EvHttpPush u ms => Some (u, ms) | _ => None end) tr.

(** How often the upstream readings were fetched. *)
Definition upstream_fetches (tr : list event) : nat :=
  length (omap (λ e, match e with EvUpstream => Some tt | _ => None end) tr).

(** The lines written with [console.error]. *)
Definition errors (tr : list event) : list (string * string) :=
  omap (λ e, match e with EvError l d => Some (l, d) | _ => None end) tr.

(** What a computation appends to the trace. *)
Definition added {A} (m : M A) (st : State) : list event :=
  drop (length (trace st)) (trace (exec m st)).

(** *** Reading the cache repeatedly *)

Fixpoint read_all (ws : list SnapshotWorld) : M (list Obj) :=
  match ws with
  | [] => mret []
  | w :: rest =>
      o ← getSpaceWeather w false;
      os ← read_all rest;
      mret (o :: os)
  end.

(** The cache is absent, expired, or bypassed. *)
Definition cache_miss (forceRefresh : bool) (now : Z) (st : State) : Prop :=
  forceRefresh = true ∨ cachedSpaceWeather st = None ∨ CACHE_DURATION ≤ now - cacheTime st.

(** *** Subscribing repeatedly *)

Record SubscribeCall := {
  call_world : SubscribeWorld;
  call_name : string;
  call_pushTime : option string
}.

Definition subscribe_all (userId type : string) (calls : list SubscribeCall) : M unit :=
  for_each calls (λ _ c,
    addSubscription (call_world c) userId type (call_name c) (call_pushTime c) ;; mret tt).

(** The spreadsheet answers every request of the call. *)
Definition sheet_ok (w : SubscribeWorld) : Prop :=
  subscribe_read w = None ∧ subscribe_write w = None.

Definition key (row : SubRow) : string * string := (sub_userId row, sub_type row).

(** No two rows for the same subscriber and topic. *)
Definition unique_keys (rows : list SubRow) : Prop := NoDup (key <$> rows).

(** The rows of a subscriber and topic, and the active ones among them. *)
Definition records_of (userId type : string) (rows : list SubRow) : list SubRow :=
  filter (λ row, sub_userId row = userId ∧ sub_type row = type) rows.

Definition active_records_of (userId type : string) (rows : list SubRow) : list SubRow :=
  filter (λ row, sub_status row = ENABLED) (records_of userId type rows).

(** *** Subscribers as a tick sees them *)

Definition active_subscribers (read : fault) (type : string) (st : State) : list Subscriber :=
  match doc st ≫= sheet_subscriptions, read with
  | Some rows, None =>
      (λ row, {| userId := sub_userId row; pushTime := sub_pushTime row |})
      <$> filter (λ row, sub_type row = type ∧ sub_status row = ENABLED) rows
  | _, _ => []
  end.

(** *** Wall-clock labels: [HH:MM], two digits each *)

Definition digit (n : nat) : ascii := ascii_of_nat (48 + n mod 10).

Definition clock_label (h m : nat) : string :=
  String (digit (h / 10)) (String (digit h) (String ":"
    (String (digit (m / 10)) (String (digit m) EmptyString)))).

(** *** Frames *)

(** What sending pushes may change: the delivery log and the trace. *)
Definition push_frame (st st' : State) : Prop :=
  cachedSpaceWeather st' = cachedSpaceWeather st ∧
  cacheTime st' = cacheTime st ∧
  lastAlerts st' = lastAlerts st ∧
  next_oid st' = next_oid st ∧
  doc st' ≫= sheet_subscriptions = doc st ≫= sheet_subscriptions ∧
  (is_Some (doc st') ↔ is_Some (doc st)).

(** *** Alert passes *)

(** The snapshot a tick works with: what its forced read returns. *)
Definition forced_read (w : SnapshotWorld) (st : State) : SpaceWeather :=
  match result (getSpaceWeather w true) st with
  | Returned o => value o
  | Threw e => Failed e (snap_timestamp w)
  end.

Definition topic_type (t : topic) : string :=
  match t with TopicAurora => "aurora" | TopicFlare => "flare" end.

Definition last_alert (t : topic) (la : LastAlerts) : Z :=
  match t with TopicAurora => la_kp la | TopicFlare => la_flare la end.

Definition record_alert (t : topic) (now : Z) (la : LastAlerts) : LastAlerts :=
  match t with TopicAurora => record_kp now la | TopicFlare => record_flare now la end.

Definition crossed (t : topic) (spaceWeather : SpaceWeather) : bool :=
  match t with
  | TopicAurora => kp_crossed spaceWeather
  | TopicFlare => flare_crossed spaceWeather
  end.

Definition topic_read (t : topic) (w : AlertWorld) : fault :=
  match t with TopicAurora => alert_aurora_read w | TopicFlare => alert_flare_read w end.

(** The active subscribers of the topic, as the pass reads them. *)
Definition topic_subscribers (t : topic) (w : AlertWorld) (st : State) : list Subscriber :=
  active_subscribers (topic_read t w) (topic_type t) st.

(** More than the cooldown has passed since the last recorded alert. *)
Definition cooled_down (t : topic) (now : Z) (st : State) : bool :=
  now - last_alert t (lastAlerts st) >? ALERT_COOLDOWN.

(** The three conditions of an alert. *)
Definition fires (t : topic) (w : AlertWorld) (st : State) : bool :=
  crossed t (forced_read (alert_snapshot w) st)
  && cooled_down t (alert_now w) st
  && (0 <? length (topic_subscribers t w st))%nat.

Definition alert_header (t : topic) : string :=
  match t with TopicAurora => AURORA_HEADER | TopicFlare => FLARE_HEADER end.

(** A push is an alert of the topic when its text opens with the topic's
    header line. *)
Definition is_alert (t : topic) (c : string * payload) : bool :=
  match c.2 with
  | Text s => String.prefix (alert_header t) s
  | Messages _ => false
  end.

Definition alerts_sent (t : topic) (evs : list event) : list (string * payload) :=
  List.filter (is_alert t) (line_pushes evs).

(** The shape the two blocks of [checkAlerts] share. *)
Definition alert_block (cfg : Config) (t : topic) (is_crossed : bool) (read : fault)
    (push : nat → PushWorld) (compose : M string) (now : Z) : M unit :=
  st ← get;
  if is_crossed && (now - last_alert t (lastAlerts st) >? ALERT_COOLDOWN) then
    subscribers ← getSubscribersByType read (topic_type t);
    if (0 <? length subscribers)%nat then
      msg ← compose;
      for_each subscribers (λ i user,
        linePush cfg (push i) (userId user) (Text msg) ;; mret tt) ;;
      modify (λ st, with_lastAlerts (record_alert t now (lastAlerts st)) st)
    else mret tt
  else mret tt.

Section Runs.

Variable toFixed : nat → Q → string.
Variable aurora_text : Snapshot → string.
Variable cfg : Config.

(** Alert checks one after the other. *)
Definition run_checks (ws : list AlertWorld) : M unit :=
  for_each ws (λ _ w, checkAlerts toFixed aurora_text cfg w).

(** The pass sends at least one alert of the topic. *)
Definition dispatches (t : topic) (w : AlertWorld) (st : State) : Prop :=
  alerts_sent t (added (checkAlerts toFixed aurora_text cfg w) st) ≠ [].

End Runs.

(** The push requests of a trace that carry an alert of the topic: the text
    of their first message opens with the topic's header line. *)
Definition is_alert_request (t : topic) (c : string * list message) : bool :=
  match head c.2 ≫= m_text with
  | Some s => String.prefix (alert_header t) s
  | None => false
  end.

Definition alert_requests (t : topic) (evs : list event)
    : list (string * list message) :=
  List.filter (is_alert_request t) (http_pushes evs).

(** The one message a text is sent as (line 170). *)
Definition text_message (s : string) : message :=
  {| m_type := "text"; m_text := Some s |}.

(** The alert text of a topic, as [checkAlerts] composes it. *)
Definition alert_text (toFixed : nat → Q → string) (aurora_text : Snapshot → string)
    (t : topic) (spaceWeather : SpaceWeather) : M string :=
  match t with
  | TopicAurora => aurora_alert_text toFixed aurora_text spaceWeather
  | TopicFlare => flare_alert_text spaceWeather
  end.

(** The lines written with [console.error] under a given label. *)
Definition errors_with (label : string) (evs : list event) : list (string * string) :=
  List.filter (λ e, String.eqb e.1 label) (errors evs).

(* ===================================================================== *)
(** ** Overlapping calls

    An [async] function runs without interruption up to its next [await];
    while it waits, the timers and the requests of the process run their
    own code.  [Async] is a call cut at its [await]s: synchronous pieces
    ([Eff]) and the points where it gives way ([Yield]).  An awaited call
    of one of the functions above is taken whole, as one piece, before the
    caller gives way: what it does to the state happens while the caller
    waits, and this places it at the start of the wait. *)
(* ===================================================================== *)

Inductive Async (A : Type) : Type :=
| Ret (a : A)                                (* the call has returned *)
| Raise (e : string)                         (* the call has thrown *)
| Eff {B : Type} (m : M B) (k : B → Async A) (* synchronous code, then the rest *)
| Yield (k : Async A).                       (* [await]: the rest runs in a later turn *)
Arguments Ret {A} a.
Arguments Raise {A} e.
Arguments Eff {A B} m k.
Arguments Yield {A} k.

Fixpoint abind {A B} (p : Async A) (f : A → Async B) : Async B :=
  match p with
  | Ret a => f a
  | Raise e => Raise e
  | Eff m k => Eff m (λ b, abind (k b) f)
  | Yield k => Yield (abind k f)
  end.

#[global] Instance Async_ret : MRet Async := λ A a, Ret a.
#[global] Instance Async_bind : MBind Async := λ A B f p, abind p f.

(** Synchronous code inside an [async] function. *)
Definition lift {A} (m : M A) : Async A := Eff m Ret.

(** [await callee(...)] *)
Definition awaiting {A} (callee : M A) : Async A := Eff callee (λ a, Yield (Ret a)).

(** [try { body } catch (error) { handler(error.message) }] around code
    that awaits. *)
Fixpoint catch {A} (body : Async A) (handler : string → Async A) : Async A :=
  match body with
  | Ret a => Ret a
  | Raise e => handler e
  | Eff m k =>
      Eff (λ st, match m st with
                 | (Returned b, st') => (Returned (inl b), st')
                 | (Threw e, st') => (Returned (inr e), st')
                 end)
          (λ r, match r with inl b => catch (k b) handler | inr e => handler e end)
  | Yield k => Yield (catch k handler)
  end.

(** [for (const x of xs) { await body(x) }] *)
Fixpoint afor_each_from {A} (i : nat) (xs : list A) (body : nat → A → Async unit)
    : Async unit :=
  match xs with
  | [] => Ret tt
  | x :: rest => body i x ≫= λ _, afor_each_from (S i) rest body
  end.

(** One turn: the call runs until it gives way, returns or throws. *)
Fixpoint turn {A} (p : Async A) (st : State) : Async A * State :=
  match p with
  | Ret a => (Ret a, st)
  | Raise e => (Raise e, st)
  | Eff m k =>
      match m st with
      | (Returned b, st') => turn (k b) st'
      | (Threw e, st') => (Raise e, st')
      end
  | Yield k => (k, st)
  end.

(** The call run alone, from its first turn to its last. *)
Fixpoint alone {A} (p : Async A) : M A :=
  match p with
  | Ret a => mret a
  | Raise e => throw e
  | Eff m k => m ≫= λ b, alone (k b)
  | Yield k => alone k
  end.

Definition finished {A} (p : Async A) : bool :=
  match p with
  | Ret _ | Raise _ => true
  | Eff _ _ | Yield _ => false
  end.

(** Several calls in flight.  The schedule names, turn after turn, the call
    that runs next; the event loop picks it by what the outside has
    answered by then. *)
Fixpoint interleave {A} (schedule : list nat) (calls : list (Async A)) (st : State)
    : list (Async A) * State :=
  match schedule with
  | [] => (calls, st)
  | i :: rest =>
      match calls !! i with
      | Some p =>
          let '(p', st') := turn p st in
          interleave rest (<[i := p']> calls) st'
      | None => interleave rest calls st
      end
  end.

Section Overlapping.

Variable toFixed : nat → Q → string.
Variable aurora_text : Snapshot → string.
Variable cfg : Config.

(** One block of [checkAlerts] (lines 1726-1742 and 1745-1765): the
    cooldown is tested before the subscribers are awaited, and the time of
    the alert is recorded after the last push was awaited. *)
Definition alert_block_async (t : topic) (is_crossed : bool) (read : fault)
    (push : nat → PushWorld) (compose : M string) (now : Z) : Async unit :=
  st ← lift get;
  if is_crossed && (now - last_alert t (lastAlerts st) >? ALERT_COOLDOWN) then
    subscribers ← awaiting (getSubscribersByType read (topic_type t));
    if (0 <? length subscribers)%nat then
      msg ← lift compose;
      afor_each_from 0 subscribers (λ i user,
        awaiting (linePush cfg (push i) (userId user) (Text msg)) ;; mret tt) ;;
      lift (modify (λ st, with_lastAlerts (record_alert t now (lastAlerts st)) st))
    else mret tt
  else mret tt.

(** [checkAlerts] (lines 1720-1766), cut at its [await]s. *)
Definition checkAlerts_async (w : AlertWorld) : Async unit :=
  o ← awaiting (getSpaceWeather (alert_snapshot w) true);
  let spaceWeather := value o in
  let now := alert_now w in
  alert_block_async TopicAurora (kp_crossed spaceWeather) (alert_aurora_read w)
    (alert_aurora_push w) (aurora_alert_text toFixed aurora_text spaceWeather) now ;;
  alert_block_async TopicFlare (flare_crossed spaceWeather) (alert_flare_read w)
    (alert_flare_push w) (flare_alert_text spaceWeather) now.

End Overlapping.

(** [addSubscription] (lines 1308-1348), cut at its [await]s: the rows are
    read in one turn and looked through, and written to, in the next. *)
Definition addSubscription_async (w : SubscribeWorld) (userId type name : string)
    (pushTime : option string) : Async Reply :=
  st ← lift get;
  match doc st with
  | None => mret {| success := true; reply_message := Some "訂閱成功（記憶體模式）" |}
  | Some _ =>
      catch
        (rows ← awaiting (getRows (subscribe_read w));
         match list_find (λ row, sub_userId row = userId ∧ sub_type row = type) rows with
         | Some (i, existing) =>
             let existing := set_pushTime (JS.or_str pushTime EmptyString) existing in
             let existing := set_status ENABLED existing in
             awaiting (save (subscribe_write w) i existing) ;;
             mret {| success := true; reply_message := Some "訂閱已更新" |}
         | None =>
             awaiting (addRow (subscribe_write w)
               {| sub_userId := userId;
                  sub_type := type;
                  sub_name := name;
                  sub_subscribedAt := subscribe_time w;
                  sub_pushTime := JS.or_str pushTime EmptyString;
                  sub_status := ENABLED;
                  sub_lastPush := EmptyString |}) ;;
             mret {| success := true; reply_message := Some "訂閱成功" |}
         end)
        (λ msg,
           lift (emit (EvError "訂閱失敗:" msg)) ;;
           mret {| success := false; reply_message := Some "訂閱失敗" |})
  end.

(** *** Alert level and alert messages *)

(** The level is [normal] with no message, or raised with at least one. *)
Definition alert_consistent (acc : string * list string) : Prop :=
  (acc.1 = "normal" ∧ acc.2 = []) ∨
  ((acc.1 = "warning" ∨ acc.1 = "severe") ∧ acc.2 ≠ []).

(** *** Recording passes *)

(** The rows of a worksheet as stored; none when it is missing. *)
Definition rows_of {R} (sheet : Doc → option (list R)) (st : State) : list R :=
  default [] (doc st ≫= sheet).

(** The spreadsheet is connected and has the four historical sheets. *)
Definition history_ready (st : State) : Prop :=
  ∃ d, doc st = Some d ∧
       is_Some (sheet_solarWind d) ∧ is_Some (sheet_kp d) ∧
       is_Some (sheet_iss d) ∧ is_Some (sheet_radiation d).

(** All four numbers of the position are there. *)
Definition iss_complete (i : Iss) : bool :=
  bool_decide (is_Some (iss_lat i)) && bool_decide (is_Some (iss_lon i)) &&
  bool_decide (is_Some (iss_altitude i)) && bool_decide (is_Some (iss_velocity i)).

(** The write answers without a fault. *)
Definition accepted (f : fault) : bool := bool_decide (f = None).

(** *** Upsert *)

(** What a subscribe does to the rows once it reaches the sheet. *)
Definition upsert (userId type name time : string) (pushTime : option string)
    (rows : list SubRow) : list SubRow :=
  match list_find (λ row, sub_userId row = userId ∧ sub_type row = type) rows with
  | Some (i, existing) =>
      <[i := set_status ENABLED (set_pushTime (JS.or_str pushTime EmptyString) existing)]> rows
  | None =>
      rows ++ [{| sub_userId := userId; sub_type := type; sub_name := name;
                  sub_subscribedAt := time; sub_pushTime := JS.or_str pushTime EmptyString;
                  sub_status := ENABLED; sub_lastPush := EmptyString |}]
  end.

(** The spreadsheet is connected, has the LINE訂閱 sheet, and holds at most
    one row per subscriber and topic. *)
Definition store_ok (st : State) : Prop :=
  is_Some (doc st ≫= sheet_subscriptions) ∧ unique_keys (subscriptions st).

(* ===================================================================== *)
(** ** Sample data for concrete runs *)
(* ===================================================================== *)

Module Sample.

Definition kp6 : KpIndex :=
  {| kp_time := Some "2025-12-25 03:00:00.000"; kp_kp := 6;
     kp_level := "storm"; kp_gLevel := "G2" |}.

Definition xflare : Xray :=
  {| x_time := Some "2025-12-25 03:00:00.000"; x_flux := 25 # 100000;
     x_flareClass := "X"; x_flareLevel := Some "2.5"; x_fullClass := "X2.5" |}.

(** Every fetcher failed: all readings are [null]. *)
Definition quiet : Readings :=
  {| r_solarWind := None; r_magField := None; r_kp := None; r_xray := None;
     r_proton := None; r_electron := None; r_cme := []; r_nasaFlares := [];
     r_iss := None |}.

(** Kp 6 and an X2.5 flare. *)
Definition stormy : Readings :=
  {| r_solarWind := None; r_magField := None; r_kp := Some kp6;
     r_xray := Some xflare; r_proton := None; r_electron := None;
     r_cme := []; r_nasaFlares := []; r_iss := None |}.

Definition snapshot_world (now : Z) (r : Readings) : SnapshotWorld :=
  {| snap_now := now; snap_upstream := Returned r;
     snap_timestamp := "2025-12-25T03:00:00.000Z" |}.

Definition failing_world (now : Z) : SnapshotWorld :=
  {| snap_now := now; snap_upstream := Threw "fetch failed";
     snap_timestamp := "2025-12-25T03:00:00.000Z" |}.

(** A push that LINE accepts and the log takes. *)
Definition push_ok : PushWorld :=
  {| push_response := Returned true;
     push_error := Returned EmptyString;
     push_log_time := "2025-12-25T03:00:01.000Z";
     push_log_write := None |}.

(** A push that LINE answers with an error status. *)
Definition push_refused : PushWorld :=
  {| push_response := Returned false;
     push_error := Returned "{ message: 'Failed to send messages' }";
     push_log_time := "2025-12-25T03:00:01.000Z";
     push_log_write := None |}.

Definition cfg : Config :=
  {| LINE_CHANNEL_ACCESS_TOKEN := Some "token";
     LINE_CHANNEL_SECRET := Some "secret" |}.

(** Neither LINE variable is set. *)
Definition cfg_bare : Config :=
  {| LINE_CHANNEL_ACCESS_TOKEN := None; LINE_CHANNEL_SECRET := None |}.

(** The access token is set, the channel secret is not. *)
Definition cfg_no_secret : Config :=
  {| LINE_CHANNEL_ACCESS_TOKEN := Some "token"; LINE_CHANNEL_SECRET := None |}.

Definition row (user type pushTime status : string) : SubRow :=
  {| sub_userId := user; sub_type := type; sub_name := EmptyString;
     sub_subscribedAt := "2025-12-24T00:00:00.000Z"; sub_pushTime := pushTime;
     sub_status := status; sub_lastPush := EmptyString |}.

(** A spreadsheet as [initGoogleSheets] leaves it, with the given
    subscription rows. *)
Definition sheets (rows : list SubRow) : Doc :=
  {| sheet_subscriptions := Some rows; sheet_pushLog := Some [];
     sheet_solarWind := Some []; sheet_kp := Some []; sheet_iss := Some [];
     sheet_radiation := Some [] |}.

Definition connected (rows : list SubRow) : State :=
  with_doc (Some (sheets rows)) initial_state.

(** The process at 2025-12-25T03:00Z, in milliseconds. *)
Definition t0 : Z := 1766631600000.

(** The state after a first forced read at [t0] found no reading at all. *)
Definition warm : State :=
  exec (getSpaceWeather (snapshot_world t0 quiet) true) initial_state.

End Sample.

Module Stub.

(** A stand-in for the chat-event handlers: it pushes the text of the event
    back to its sender. *)
Definition echo (cfg : Config) (event : WebhookEvent) : M unit :=
  linePush cfg Sample.push_ok (ev_userId event) (Text (ev_text event)) ;; mret tt.

(** Stand-ins for the library functions. *)
Definition toFixed (digits : nat) (q : Q) : string := "0".
Definition hmac (key body : string) : string := key +:+ body.
Definition report_text (now : string) (s : Snapshot) : string := "report".
Definition aurora_text (s : Snapshot) : string := "forecast".

End Stub.

Module Scenario.

Import Sample.

(** One aurora subscriber and three daily rows: 08:00, 20:00, and a
    cancelled one at 08:00. *)
Definition rows : list SubRow :=
  [ row "U-aurora" "aurora" EmptyString ENABLED;
    row "U-daily" "daily" "08:00" ENABLED;
    row "U-evening" "daily" "20:00" ENABLED;
    row "U-gone" "daily" "08:00" DISABLED ].

Definition st : State := connected rows.

(** An alert check at [now] that sees the readings [r]; every push is
    refused by LINE. *)
Definition check (now : Z) (r : Readings) : AlertWorld :=
  {| alert_snapshot := snapshot_world now r;
     alert_now := now + 500;
     alert_aurora_read := None;
     alert_aurora_push := λ _, push_refused;
     alert_flare_read := None;
     alert_flare_push := λ _, push_refused |}.


Definition minute : Z := 60 * 1000.

(** A scheduled-delivery tick at the local time [label]. *)
Definition tick (label : string) : DailyWorld :=
  {| daily_currentTime := label;
     daily_read := None;
     daily_snapshot := snapshot_world t0 quiet;
     daily_report_time := "2025/12/25 08:00:00";
     daily_push := λ _, push_ok |}.

(** The same tick while the subscription sheet cannot be read. *)
Definition tick_unreadable (label : string) : DailyWorld :=
  {| daily_currentTime := label;
     daily_read := Some "The service is currently unavailable";
     daily_snapshot := snapshot_world t0 quiet;
     daily_report_time := "2025/12/25 08:00:00";
     daily_push := λ _, push_ok |}.

(** A recording pass in which the spreadsheet refuses the solar-wind row
    and would take every other row. *)
Definition recording : RecordWorld :=
  {| rec_now := "2025-12-25T03:00:00.000Z";
     rec_snapshot := snapshot_world t0 stormy;
     rec_solarWind_write := Some "Quota exceeded";
     rec_kp_write := None;
     rec_iss_write := None;
     rec_radiation_write := None |}.

(** A webhook request with one follow event, unsigned. *)
Definition follow : WebhookEvent :=
  {| ev_type := "follow"; ev_message_type := None; ev_text := "hello";
     ev_userId := "U-new"; ev_replyToken := "r1" |}.

Definition request : Request :=
  {| req_rawBody := Some "{}"; req_signature := None;
     req_body_events := EventsArray [follow] |}.

(** The same request with a number where the events should be. *)
Definition odd_request : Request :=
  {| req_rawBody := Some "{}"; req_signature := None;
     req_body_events := EventsOther |}.

Definition subscribe (pushTime : string) : SubscribeCall :=
  {| call_world := {| subscribe_read := None; subscribe_write := None;
                      subscribe_time := "2025-12-25T03:00:00.000Z" |};
     call_name := "每日太空氣象報告";
     call_pushTime := Some pushTime |}.

(** A subscribe during which the spreadsheet refuses the write. *)
Definition refused : SubscribeWorld :=
  {| subscribe_read := None; subscribe_write := Some "Quota exceeded";
     subscribe_time := "2025-12-25T03:00:00.000Z" |}.

(** A sheet that holds the daily subscription of one user twice. *)
Definition doubled : State :=
  connected [ row "U-daily" "daily" "08:00" ENABLED;
              row "U-daily" "daily" "08:00" ENABLED ].

End Scenario.

Module Overlap.

Import Sample.

(** An alert check at [now] that sees Kp 6 and an X2.5 flare; LINE accepts
    every push. *)
Definition check (now : Z) : AlertWorld :=
  {| alert_snapshot := snapshot_world now stormy;
     alert_now := now + 500;
     alert_aurora_read := None;
     alert_aurora_push := λ _, push_ok;
     alert_flare_read := None;
     alert_flare_push := λ _, push_ok |}.

(** Two checks, five minutes apart as the timer of line 2229 starts them. *)
Definition first : AlertWorld := check t0.
Definition second : AlertWorld := check (t0 + 5 * Scenario.minute).

(** The first check takes three turns and then waits for LINE to answer
    its push; meanwhile the timer starts the second check, which runs to its
    end; then the first check goes on. *)
Definition schedule : list nat := [0; 0; 0; 1; 1; 1; 1; 1; 0; 0]%nat.

(** Two subscribes of one user to the daily report, and the order in which
    they take turns: both read the sheet before either writes. *)
Definition subscribes : list (Async Reply) :=
  [ addSubscription_async (call_world (Scenario.subscribe "08:00"))
      "U-new" "daily" "每日太空氣象報告" (Some "08:00");
    addSubscription_async (call_world (Scenario.subscribe "20:00"))
      "U-new" "daily" "每日太空氣象報告" (Some "20:00") ].

Definition alternating : list nat := [0; 1; 0; 1]%nat.

End Overlap.

(* ===================================================================== *)
(** ** Cancelling and listing subscriptions *)
(* ===================================================================== *)

(** Whether an unsubscribe of [user] touches the row: every row of the
    subscriber when no topic is given, the rows of that topic otherwise
    (line 1360). *)
Definition cancels (user : string) (type : option string) (row : SubRow) : bool :=
  bool_decide (sub_userId row = user) &&
  (negb (JS.is_set type) || bool_decide (Some (sub_type row) = type)).

Definition cancel (user : string) (type : option string) (row : SubRow) : SubRow :=
  if cancels user type row then set_status DISABLED row else row.

(** What the loop of [removeSubscription] leaves of the rows from position
    [i] on, and the error that stopped it, if any. *)
Fixpoint cancel_rows (w : UnsubscribeWorld) (user : string) (type : option string)
    (i : nat) (xs : list SubRow) : list SubRow * fault :=
  match xs with
  | [] => ([], None)
  | x :: rest =>
      if cancels user type x then
        match unsubscribe_save w i with
        | Some e => (x :: rest, Some e)
        | None =>
            let r := cancel_rows w user type (S i) rest in
            (set_status DISABLED x :: r.1, r.2)
        end
      else
        let r := cancel_rows w user type (S i) rest in
        (x :: r.1, r.2)
  end.

(** The first spreadsheet call of a subscribe that fails, if any: the read,
    then the write. *)
Definition subscribe_fault (w : SubscribeWorld) : fault :=
  match subscribe_read w with
  | Some e => Some e
  | None => subscribe_write w
  end.

(** The subscriptions of a subscriber as [getSubscriptions] lists them. *)
Definition active_subscriptions (read : fault) (user : string) (st : State)
    : list Subscription :=
  match doc st ≫= sheet_subscriptions, read with
  | Some rows, None =>
      (λ row, {| s_type := sub_type row; s_name := sub_name row;
                 s_pushTime := sub_pushTime row;
                 s_subscribedAt := sub_subscribedAt row |})
      <$> filter (λ row, sub_userId row = user ∧ sub_status row = ENABLED) rows
  | _, _ => []
  end.

(** The subscriber has no active row. *)
Definition inactive (user : string) (st : State) : Prop :=
  Forall (λ row, sub_userId row = user → sub_status row ≠ ENABLED) (subscriptions st).

(** An unsubscribe whose spreadsheet calls all complete. *)
Definition unsubscribe_ok : UnsubscribeWorld :=
  {| unsubscribe_read := None; unsubscribe_save := λ _, None |}.

(* ===================================================================== *)
(** ** The timers  ([start], lines 2218-2264)

    [start] hands [dailyPush], [checkAlerts] and [recordData] to
    [setInterval]; the process then runs them over and over, each call with
    what the outside answers to it.  An error that escapes a call is lost
    with that call and the next one still runs. *)
(* ===================================================================== *)

Inductive job :=
| Daily (w : DailyWorld)
| Alerts (w : AlertWorld)
| Recording (w : RecordWorld).

Section Timers.

Variable toFixed : nat → Q → string.
Variable report_text : string → Snapshot → string.
Variable aurora_text : Snapshot → string.
Variable cfg : Config.

Definition run_job (j : job) : M unit :=
  match j with
  | Daily w => dailyPush report_text cfg w
  | Alerts w => checkAlerts toFixed aurora_text cfg w
  | Recording w => recordData toFixed w
  end.

(** The state after the timers fired in the given order. *)
Definition after_jobs (jobs : list job) (st : State) : State :=
  foldl (λ st j, exec (run_job j) st) st jobs.

End Timers.

(** Between two states, the subscription sheet is as it was and nothing was
    pushed to [user]. *)
Definition unreached (user : string) (st st' : State) : Prop :=
  doc st' ≫= sheet_subscriptions = doc st ≫= sheet_subscriptions ∧
  ∃ evs, trace st' = trace st ++ evs ∧ Forall (λ c, c.1 ≠ user) (line_pushes evs).

(** A computation that keeps a relation between the state it starts in and
    the state it ends in, whatever it returns. *)
Definition keeps (R : State → State → Prop) {A} (m : M A) : Prop :=
  ∀ st, R st (exec m st).

(* ===================================================================== *)
(** ** What a push answers, and the broadcast endpoint
       ([POST /api/admin/broadcast], lines 2016-2032) *)
(* ===================================================================== *)

(** Whether the spreadsheet has the 推播紀錄 sheet. *)
Definition log_present (st : State) : bool :=
  match doc st with
  | Some d => bool_decide (is_Some (sheet_pushLog d))
  | None => false
  end.

(** LINE accepted the push and, where there is a delivery log, the log took
    the row. *)
Definition push_reported (cfg : Config) (w : PushWorld) (st : State) : bool :=
  push_accepted cfg w && (negb (log_present st) || accepted (push_log_write w)).

(** What the outside answers during one broadcast. *)
Record BroadcastWorld := {
  broadcast_read : fault;           (* [sheet.getRows()] *)
  broadcast_push : nat → PushWorld  (* per recipient, in list order *)
}.

(** The JSON answer: [{ success, message }] or [{ success, sent, total }]. *)
Record BroadcastReply := {
  bc_success : bool;
  bc_message : option string;
  bc_sent : option nat;
  bc_total : option nat
}.

(** Truthiness of the [message] field of the request: a string, an array,
    or missing. *)
Definition payload_truthy (message : option payload) : bool :=
  match message with
  | Some (Text s) => JS.truthy s
  | Some (Messages _) => true
  | None => false
  end.

(** [let sent = 0; for (const x of xs) { if (await body(x)) sent++ }] *)
Fixpoint count_from {A} (i : nat) (xs : list A) (sent : nat)
    (body : nat → A → M bool) : M nat :=
  match xs with
  | [] => mret sent
  | x :: rest =>
      success ← body i x;
      count_from (S i) rest (if (success : bool) then S sent else sent) body
  end.

Definition broadcast (cfg : Config) (w : BroadcastWorld) (type : option string)
    (message : option payload) : M BroadcastReply :=
  match type, message with
  | Some t, Some m =>
      if negb (JS.truthy t) || negb (payload_truthy message) then
        mret {| bc_success := false; bc_message := Some "缺少必要參數";
                bc_sent := None; bc_total := None |}
      else
        subscribers ← getSubscribersByType (broadcast_read w) t;
        sent ← count_from 0 subscribers 0 (λ i user,
                 linePush cfg (broadcast_push w i) (userId user) m);
        mret {| bc_success := true; bc_message := None;
                bc_sent := Some sent; bc_total := Some (length subscribers) |}
  | _, _ =>
      mret {| bc_success := false; bc_message := Some "缺少必要參數";
              bc_sent := None; bc_total := None |}
  end.

(** The positions below [n] whose push is reported as sent. *)
Definition reported_from (cfg : Config) (pw : nat → PushWorld) (st : State)
    (i n : nat) : list nat :=
  List.filter (λ j, push_reported cfg (pw j) st) (seq i n).

(* ===================================================================== *)
(** ** Following and unfollowing  (lines 1652-1680) *)
(* ===================================================================== *)

Definition WELCOME : string := "🛰️ 歡迎加入 ORBITAL COMMAND！

太空氣象指揮中心為您提供：

🌌 即時極光預報
☀️ 太陽活動監測
🚀 ISS 太空站追蹤
⚠️ 太空天氣警報

━━━━━━━━━━━━━━━━

📱 快速開始：
• 輸入「極光」查看極光預報
• 輸入「太陽風」查看太陽活動
• 輸入「訂閱」設定定時通知

祝您觀測愉快！✨".

Definition handleFollow (cfg : Config) (w : PushWorld) (event : WebhookEvent) : M unit :=
  let userId := ev_userId event in
  linePush cfg w userId (Text WELCOME) ;; mret tt.

Definition handleUnfollow (w : UnsubscribeWorld) (event : WebhookEvent) : M unit :=
  let userId := ev_userId event in
  removeSubscription w userId None ;; mret tt.

(** One round of the event loop of the webhook: the handler of the event,
    inside its [try]. *)
Definition handled (handleTextMessage handleFollow handleUnfollow : WebhookEvent → M unit)
    (event : WebhookEvent) : M unit :=
  try_catch (handle_event handleTextMessage handleFollow handleUnfollow event)
            (λ msg, emit (EvError "❌ [LINE] 處理事件錯誤:" msg)).

(** The signature gate lets the request through: no channel secret is set,
    or the signature is the HMAC of the raw body under the secret. *)
Definition signature_accepted (hmac : string → string → string) (cfg : Config)
    (req : Request) : Prop :=
  JS.is_set (LINE_CHANNEL_SECRET cfg) = false ∨
  ∃ secret raw, LINE_CHANNEL_SECRET cfg = Some secret ∧
                req_rawBody req = Some raw ∧
                req_signature req = Some (hmac secret raw).

(* ===================================================================== *)
(** ** The NOAA fetchers that classify  (lines 300-378)

    NOAA serves each product as a table: an array of rows, each an array of
    cells, the first row holding the column names.  Decimal literals of the
    source are read as the decimals they spell. *)
(* ===================================================================== *)

Abbreviation table := (list (list string)).

(** Kp to G-scale (lines 309-314) and to the activity word (lines 316-319). *)
Definition gLevel_for (kp : Q) : string :=
  if Qle_bool 9 kp then "G5"
  else if Qle_bool 8 kp then "G4"
  else if Qle_bool 7 kp then "G3"
  else if Qle_bool 6 kp then "G2"
  else if Qle_bool 5 kp then "G1"
  else "G0".

Definition level_for (kp : Q) : string :=
  if negb (Qle_bool kp 6) then "severe"
  else if negb (Qle_bool kp 4) then "storm"
  else if negb (Qle_bool kp 2) then "active"
  else "quiet".

Definition kp_reading (time : option string) (kp : Q) : KpIndex :=
  {| kp_time := time; kp_kp := kp; kp_level := level_for kp; kp_gLevel := gLevel_for kp |}.

(** X-ray flux to flare class and level within the class (lines 336-342). *)
Definition flare_for (flux : Q) : string * Q :=
  if Qle_bool (1 # 10000) flux then ("X", flux / (1 # 10000))%Q
  else if Qle_bool (1 # 100000) flux then ("M", flux / (1 # 100000))%Q
  else if Qle_bool (1 # 1000000) flux then ("C", flux / (1 # 1000000))%Q
  else if Qle_bool (1 # 10000000) flux then ("B", flux / (1 # 10000000))%Q
  else ("A", 0%Q).

(** Proton flux to S-scale (lines 366-371). *)
Definition sLevel_for (flux : Q) : string :=
  if Qle_bool 100000 flux then "S5"
  else if Qle_bool 10000 flux then "S4"
  else if Qle_bool 1000 flux then "S3"
  else if Qle_bool 100 flux then "S2"
  else if Qle_bool 10 flux then "S1"
  else "S0".

Definition proton_reading (time : option string) (flux : Q) : Proton :=
  {| p_time := time; p_flux := flux; p_sLevel := sLevel_for flux |}.

Section Fetchers.

Variable parseFloat : string → option Q.  (* [None]: [NaN] *)
Variable toFixed : nat → Q → string.

(** [parseFloat(cell) || 0], the cell being [undefined] when the row is too
    short. *)
Definition number_or_zero (cell : option string) : Q :=
  default 0%Q (cell ≫= parseFloat).

Definition xray_reading (time : option string) (flux : Q) : Xray :=
  let '(flareClass, flareLevel) := flare_for flux in
  {| x_time := time; x_flux := flux; x_flareClass := flareClass;
     x_flareLevel := Some (toFixed 1 flareLevel);
     x_fullClass := flareClass +:+ toFixed 1 flareLevel |}.

(** [response] is what [fetch] and [res.json()] give: the table, or the
    error either of them throws. *)
Definition fetchKpIndex (response : outcome table) : M (option KpIndex) :=
  try_catch
    (data ← await response;
     match last (filter (λ row, head row ≠ Some "time_tag") data) with
     | None => mret None
     | Some latest =>
         mret (Some (kp_reading (latest !! 0%nat) (number_or_zero (latest !! 1%nat))))
     end)
    (λ msg, emit (EvError "Kp API 錯誤:" msg) ;; mret None).

Definition fetchXrayFlux (response : outcome table) : M (option Xray) :=
  try_catch
    (data ← await response;
     match last data with
     | None => mret None
     | Some latest =>
         mret (Some (xray_reading (latest !! 0%nat) (number_or_zero (latest !! 1%nat))))
     end)
    (λ msg, emit (EvError "X射線 API 錯誤:" msg) ;; mret None).

Definition fetchProtonFlux (response : outcome table) : M (option Proton) :=
  try_catch
    (data ← await response;
     match last data with
     | None => mret None
     | Some latest =>
         mret (Some (proton_reading (latest !! 0%nat) (number_or_zero (latest !! 1%nat))))
     end)
    (λ msg, emit (EvError "質子 API 錯誤:" msg) ;; mret None).

End Fetchers.

(** [xs.slice(-n)]: the last [n] elements. *)
Definition slice_last {A} (n : nat) (xs : list A) : list A :=
  drop (length xs - n) xs.

(** *** Kp history  ([GET /api/kp-history], lines 1841-1858) *)

Record KpPoint := { point_time : option string; point_kp : Q }.

(** The answer of a history endpoint: the status and the body. *)
Inductive HistoryReply :=
| HistoryData (data : list KpPoint)   (* [{ success: true, data }] *)
| HistoryError (error : string).      (* [{ success: false, error }] *)

Section History.

Variable parseFloat : string → option Q.

Definition kpHistory (response : outcome table) : M (Z * HistoryReply) :=
  try_catch
    (data ← await response;
     let history :=
       (λ row, {| point_time := row !! 0%nat;
                  point_kp := number_or_zero parseFloat (row !! 1%nat) |})
       <$> slice_last 72 (filter (λ row, head row ≠ Some "time_tag") data) in
     mret (200, HistoryData history))
    (λ msg, mret (500, HistoryError msg)).

End History.

(** *** Flare events from the flux series  ([fetchFlareEvents],
        lines 399-431) *)

(** The flare being followed: [{ start, peakFlux, peakTime }]. *)
Record Flare := {
  flare_start : option string;
  flare_peakFlux : Q;
  flare_peakTime : option string
}.

Record FlareReport := { report_time : option string; report_class : string; report_flux : Q }.

(** [a || b] on values that are strings or [undefined]. *)
Definition or_else (a b : option string) : option string :=
  match a with
  | Some s => if JS.truthy s then Some s else b
  | None => b
  end.

Definition report_of (currentFlare : Flare) : FlareReport :=
  {| report_time := or_else (flare_peakTime currentFlare) (flare_start currentFlare);
     report_class := if Qle_bool (1 # 10000) (flare_peakFlux currentFlare) then "X" else "M";
     report_flux := flare_peakFlux currentFlare |}.

(** A report of an M- or X-class flare with the class its flux calls for. *)
Definition sound_report (ev : FlareReport) : Prop :=
  (1 # 100000 <= report_flux ev)%Q ∧
  report_class ev = (if Qle_bool (1 # 10000) (report_flux ev) then "X" else "M").

Section FlareEvents.

Variable parseFloat : string → option Q.

(** The loop of lines 408-425, with its two variables. *)
Fixpoint scan_flares (rows : table) (currentFlare : option Flare)
    (events : list FlareReport) : list FlareReport :=
  match rows with
  | [] => events
  | row :: rest =>
      let flux := number_or_zero parseFloat (row !! 1%nat) in
      match currentFlare with
      | None =>
          if Qle_bool (1 # 100000) flux then
            scan_flares rest
              (Some {| flare_start := row !! 0%nat; flare_peakFlux := flux;
                       flare_peakTime := None |})
              events
          else scan_flares rest None events
      | Some current =>
          if negb (Qle_bool flux (flare_peakFlux current)) then
            scan_flares rest
              (Some {| flare_start := flare_start current; flare_peakFlux := flux;
                       flare_peakTime := row !! 0%nat |})
              events
          else if negb (Qle_bool (1 # 1000000) flux) then
            scan_flares rest None (events ++ [report_of current])
          else scan_flares rest (Some current) events
      end
  end.

Definition fetchFlareEvents (response : outcome table) : M (list FlareReport) :=
  try_catch
    (data ← await response;
     mret (slice_last 10 (scan_flares (slice_last 200 data) None [])))
    (λ _, mret []).

End FlareEvents.

(** The reading is one the fetcher can return. *)
Definition fetched {A} (fetcher : outcome table → M (option A)) (reading : option A)
    : Prop :=
  ∃ response st, result (fetcher response) st = Returned reading.

(** How far each category is into alert territory: 0 not at all, 1 warning,
    2 severe. *)
Definition kp_severity (kp : option KpIndex) : nat :=
  match kp with
  | Some k => if Qle_bool 7 (kp_kp k) then 2 else if Qle_bool 5 (kp_kp k) then 1 else 0
  | None => 0
  end.

Definition flare_severity (xray : option Xray) : nat :=
  match xray with
  | Some x =>
      if Qle_bool (1 # 10000) (x_flux x) then 2
      else if Qle_bool (1 # 100000) (x_flux x) then 1 else 0
  | None => 0
  end.

Definition radiation_severity (proton : option Proton) : nat :=
  match proton with
  | Some p =>
      if Qle_bool 1000 (p_flux p) then 2 else if Qle_bool 10 (p_flux p) then 1 else 0
  | None => 0
  end.

Definition level_name (severity : nat) : string :=
  match severity with
  | 0%nat => "normal"
  | 1%nat => "warning"
  | _ => "severe"
  end.

(* ===================================================================== *)
(** ** What the cache may hold *)
(* ===================================================================== *)

(** The cached object, if any, is a snapshot that was built, never the
    failure sentinel. *)
Definition cache_sound (st : State) : Prop :=
  ∀ o, cachedSpaceWeather st = Some o → ∃ s, value o = Built s.

(** Between two states the cache is untouched or was replaced by a built
    snapshot. *)
Definition cache_refreshed (st st' : State) : Prop :=
  cachedSpaceWeather st' = cachedSpaceWeather st ∨
  ∃ o s, cachedSpaceWeather st' = Some o ∧ value o = Built s.

(* ===================================================================== *)
(** ** Replies  ([lineReply], lines 211-251) *)
(* ===================================================================== *)

Module JStr.

(** [s.startsWith(p)] *)
Definition startsWith (s p : string) : bool := String.prefix p s.

(** [s.includes(p)] *)
Fixpoint includes (s p : string) : bool :=
  String.prefix p s ||
  match s with
  | EmptyString => false
  | String _ rest => includes rest p
  end.

End JStr.

(** A message object of the Messaging API, as far as the server builds
    them: a text, or a Flex Message known by its [altText]. *)
Inductive chat_message :=
| TextMessage (text : string)
| FlexMessage (altText : string).

(** The [messages] argument of [lineReply]: an array, one message object,
    or anything else, which is sent as text. *)
Inductive reply_payload :=
| ReplyArray (l : list chat_message)
| ReplyObject (m : chat_message)
| ReplyString (s : string).

(** What the outside answers during one [lineReply], as a function of the
    request: the reply token and the messages sent. *)
Record ReplyWorld := {
  reply_response : string → list chat_message → outcome bool;  (* [response.ok] *)
  reply_status : string;                                       (* [response.status] *)
  reply_error : outcome string                                 (* [response.text()] *)
}.

Definition reply_messages (messages : reply_payload) : list chat_message :=
  match messages with
  | ReplyArray l => l
  | ReplyObject m => [m]
  | ReplyString s => [TextMessage s]
  end.

Definition lineReply (cfg : Config) (w : ReplyWorld) (replyToken : string)
    (messages : reply_payload) : M bool :=
  if negb (JS.is_set (LINE_CHANNEL_ACCESS_TOKEN cfg)) then mret false
  else
    try_catch
      (let msgArray := reply_messages messages in
       ok ← await (reply_response w replyToken (JS.slice0 5 msgArray));
       if negb ok then
         errorData ← await (reply_error w);
         emit (EvError "❌ [LINE] 回覆失敗:" (reply_status w +:+ " " +:+ errorData)) ;;
         mret false
       else mret true)
      (λ msg, emit (EvError "❌ [LINE] 回覆錯誤:" msg) ;; mret false).

(* ===================================================================== *)
(** ** Chat commands  ([handleTextMessage], lines 1452-1650) *)
(* ===================================================================== *)

Inductive Command :=
| CmdReport | CmdAurora | CmdSolarWind | CmdIss | CmdCme
| CmdSpaceX | CmdLaunches | CmdMoon | CmdMeteors | CmdWeather
| CmdSubscriptionMenu
| CmdSubscribeDaily | CmdSubscribeAurora | CmdSubscribeFlare | CmdSubscribeCme
| CmdMySubscriptions | CmdUnsubscribe
| CmdMenu.

(** [text === a || text === b || ...] *)
Definition is_one_of (text : string) (words : list string) : bool :=
  existsb (String.eqb text) words.

(** The chain of [if]/[else if] of lines 1461-1649, on the trimmed,
    lower-cased text: the first test that holds decides. *)
Definition command_of (text : string) : Command :=
  if is_one_of text ["太空氣象"; "報告"; "完整報告"] then CmdReport
  else if is_one_of text ["極光"; "aurora"; "kp"] then CmdAurora
  else if is_one_of text ["太陽風"; "solar"; "太陽"] then CmdSolarWind
  else if is_one_of text ["iss"; "太空站"; "國際太空站"] then CmdIss
  else if is_one_of text ["cme"; "日冕拋射"] then CmdCme
  else if is_one_of text ["spacex"; "發射"; "火箭"] then CmdSpaceX
  else if is_one_of text ["發射列表"; "spacex列表"] then CmdLaunches
  else if is_one_of text ["月亮"; "月相"; "moon"] then CmdMoon
  else if is_one_of text ["流星"; "流星雨"; "meteor"] then CmdMeteors
  else if JStr.startsWith text "天氣" then CmdWeather
  else if is_one_of text ["訂閱"; "設定"; "通知"] then CmdSubscriptionMenu
  else if JStr.startsWith text "訂閱每日報告" then CmdSubscribeDaily
  else if is_one_of text ["訂閱極光警報"; "訂閱極光"] then CmdSubscribeAurora
  else if is_one_of text ["訂閱閃焰警報"; "訂閱閃焰"] then CmdSubscribeFlare
  else if is_one_of text ["訂閱cme警報"; "訂閱cme"] then CmdSubscribeCme
  else if is_one_of text ["我的訂閱"; "查看訂閱"] then CmdMySubscriptions
  else if is_one_of text ["取消所有訂閱"; "取消訂閱"] then CmdUnsubscribe
  else CmdMenu.

(** Every command word of the chain, with the branch written for it. *)
Definition COMMAND_WORDS : list (string * Command) :=
  [ ("太空氣象", CmdReport); ("報告", CmdReport); ("完整報告", CmdReport);
    ("極光", CmdAurora); ("aurora", CmdAurora); ("kp", CmdAurora);
    ("太陽風", CmdSolarWind); ("solar", CmdSolarWind); ("太陽", CmdSolarWind);
    ("iss", CmdIss); ("太空站", CmdIss); ("國際太空站", CmdIss);
    ("cme", CmdCme); ("日冕拋射", CmdCme);
    ("spacex", CmdSpaceX); ("發射", CmdSpaceX); ("火箭", CmdSpaceX);
    ("發射列表", CmdLaunches); ("spacex列表", CmdLaunches);
    ("月亮", CmdMoon); ("月相", CmdMoon); ("moon", CmdMoon);
    ("流星", CmdMeteors); ("流星雨", CmdMeteors); ("meteor", CmdMeteors);
    ("訂閱", CmdSubscriptionMenu); ("設定", CmdSubscriptionMenu); ("通知", CmdSubscriptionMenu);
    ("訂閱極光警報", CmdSubscribeAurora); ("訂閱極光", CmdSubscribeAurora);
    ("訂閱閃焰警報", CmdSubscribeFlare); ("訂閱閃焰", CmdSubscribeFlare);
    ("訂閱cme警報", CmdSubscribeCme); ("訂閱cme", CmdSubscribeCme);
    ("我的訂閱", CmdMySubscriptions); ("查看訂閱", CmdMySubscriptions);
    ("取消所有訂閱", CmdUnsubscribe); ("取消訂閱", CmdUnsubscribe);
    ("選單", CmdMenu); ("主選單", CmdMenu); ("menu", CmdMenu); ("幫助", CmdMenu);
    ("help", CmdMenu) ].

(** Line 1608: the schedule a daily subscription gets. *)
Definition daily_time (text : string) : string :=
  if JStr.includes text "08:00" then "08:00"
  else if JStr.includes text "20:00" then "20:00"
  else "08:00".

Definition SUBSCRIPTION_MENU : chat_message := FlexMessage "訂閱設定選單".
Definition MAIN_MENU : chat_message := FlexMessage "太空氣象指揮中心".

(** [`${x}`] of a value that may be [undefined]. *)
Definition interpolate (x : option string) : string := default "undefined" x.

(** Lines 1629-1635: the list shown for 我的訂閱. *)
Definition subscription_list (subs : list Subscription) : string :=
  foldl (λ msg sub,
           msg +:+ "✅ " +:+ s_name sub
               +:+ (if JS.truthy (s_pushTime sub)
                    then " (" +:+ s_pushTime sub +:+ ")" else EmptyString)
               +:+ "
")
        "📋 您的訂閱清單
━━━━━━━━━━━━━━━━

" subs
  +:+ "
輸入「取消所有訂閱」可停止所有通知".

(** What the outside answers during one text message. *)
Record ChatWorld := {
  chat_snapshot : SnapshotWorld;
  chat_report_time : string;         (* [new Date().toLocaleString(...)] in the report *)
  chat_lookup : outcome string;      (* the text that the launch, moon, meteor and
                                        weather commands compose from their own
                                        lookups *)
  chat_subscribe : SubscribeWorld;
  chat_read : fault;
  chat_unsubscribe : UnsubscribeWorld;
  chat_reply : ReplyWorld
}.

Section Chat.

Variable normalize : string → string.                  (* [text.trim().toLowerCase()] *)
Variable toFixed : nat → Q → string.
Variable report_text : string → Snapshot → string.
Variable aurora_text : Snapshot → string.
Variable solar_text : Snapshot → string.               (* lines 927-968 *)
Variable iss_text : Iss → string → string → string.    (* lines 976-1003 *)
Variable cme_text : list CmeEvent → string.            (* lines 1478-1484 *)
Variable cfg : Config.

(** Lines 926-969: reads [data.solarWind.speed] first. *)
Definition formatSolarWindMessage (data : SpaceWeather) : M string :=
  match data with
  | Built s => mret (solar_text s)
  | Failed _ _ => throw "Cannot read properties of undefined (reading 'speed')"
  end.

(** Lines 971-1004. *)
Definition formatISSMessage (data : SpaceWeather) : M string :=
  match data_iss data with
  | None => mret "🚀 ISS 資料暫時無法取得，請稍後再試"
  | Some i =>
      lat ← num_toFixed toFixed 4 (iss_lat i);
      lon ← num_toFixed toFixed 4 (iss_lon i);
      mret (iss_text i lat lon)
  end.

(** [spaceWeather.cme || []] *)
Definition data_cme (data : SpaceWeather) : list CmeEvent :=
  match data with Built s => cme s | Failed _ _ => [] end.

Definition handleTextMessage (w : ChatWorld) (event : WebhookEvent) : M unit :=
  let text := normalize (ev_text event) in
  let userId := ev_userId event in
  let replyToken := ev_replyToken event in
  let reply (messages : reply_payload) : M unit :=
    lineReply cfg (chat_reply w) replyToken messages ;; mret tt in
  o ← getSpaceWeather (chat_snapshot w) false;
  let spaceWeather := value o in
  match command_of text with
  | CmdReport =>
      msg ← formatSpaceWeatherMessage report_text (chat_report_time w) spaceWeather;
      reply (ReplyString msg)
  | CmdAurora =>
      msg ← formatAuroraMessage aurora_text spaceWeather;
      reply (ReplyString msg)
  | CmdSolarWind =>
      msg ← formatSolarWindMessage spaceWeather;
      reply (ReplyString msg)
  | CmdIss =>
      msg ← formatISSMessage spaceWeather;
      reply (ReplyString msg)
  | CmdCme =>
      let cmeList := data_cme spaceWeather in
      if (length cmeList =? 0)%nat then
        reply (ReplyString "🌋 過去 7 天沒有偵測到 CME 事件")
      else reply (ReplyString (cme_text cmeList))
  | CmdSpaceX | CmdLaunches | CmdMoon | CmdMeteors | CmdWeather =>
      msg ← await (chat_lookup w);
      reply (ReplyString msg)
  | CmdSubscriptionMenu => reply (ReplyObject SUBSCRIPTION_MENU)
  | CmdSubscribeDaily =>
      let time := daily_time text in
      result ← addSubscription (chat_subscribe w) userId "daily" "每日太空氣象報告" (Some time);
      reply (ReplyString ("✅ " +:+ interpolate (reply_message result) +:+ "

每天 " +:+ time +:+ " 將收到太空氣象報告"))
  | CmdSubscribeAurora =>
      result ← addSubscription (chat_subscribe w) userId "aurora" "極光警報 (Kp≥5)" None;
      reply (ReplyString ("✅ " +:+ interpolate (reply_message result) +:+ "

當 Kp 指數 ≥ 5 時，您將收到極光警報"))
  | CmdSubscribeFlare =>
      result ← addSubscription (chat_subscribe w) userId "flare" "X級太陽閃焰警報" None;
      reply (ReplyString ("✅ " +:+ interpolate (reply_message result) +:+ "

當發生 X 級太陽閃焰時，您將收到警報"))
  | CmdSubscribeCme =>
      result ← addSubscription (chat_subscribe w) userId "cme" "CME 地球方向警報" None;
      reply (ReplyString ("✅ " +:+ interpolate (reply_message result) +:+ "

當偵測到朝向地球的 CME 時，您將收到警報"))
  | CmdMySubscriptions =>
      subs ← getSubscriptions (chat_read w) userId;
      if (length subs =? 0)%nat then
        reply (ReplyString "📋 您目前沒有任何訂閱

輸入「訂閱」查看可用選項")
      else reply (ReplyString (subscription_list subs))
  | CmdUnsubscribe =>
      removeSubscription (chat_unsubscribe w) userId None ;;
      reply (ReplyString "✅ 已取消所有訂閱

如需重新訂閱，請輸入「訂閱」")
  | CmdMenu => reply (ReplyObject MAIN_MENU)
  end.

End Chat.

(** The commands that write the subscription sheet. *)
Definition writes_sheet (c : Command) : bool :=
  match c with
  | CmdSubscribeDaily | CmdSubscribeAurora | CmdSubscribeFlare | CmdSubscribeCme
  | CmdUnsubscribe => true
  | _ => false
  end.

(** Between two states nothing was pushed. *)
Definition silent (st st' : State) : Prop :=
  ∃ evs, trace st' = trace st ++ evs ∧ line_pushes evs = [].

(** Between two states the spreadsheet is as it was. *)
Definition same_doc (st st' : State) : Prop := doc st' = doc st.

(* ===================================================================== *)
(** ** The test push  ([POST /api/admin/test-push], lines 2035-2061) *)
(* ===================================================================== *)

Record TestPushWorld := {
  test_snapshot : SnapshotWorld;
  test_report_time : string;   (* [new Date().toLocaleString(...)] in the report *)
  test_push : PushWorld
}.

Section TestPush.

Variable toFixed : nat → Q → string.
Variable report_text : string → Snapshot → string.
Variable aurora_text : Snapshot → string.
Variable solar_text : Snapshot → string.
Variable iss_text : Iss → string → string → string.
Variable cfg : Config.

(** [userId] and [type] are the fields of the request body, [None] when
    the field is absent. *)
Definition testPush (w : TestPushWorld) (userId type : option string) : M Reply :=
  let type := default "space-weather" type in
  match userId with
  | Some user =>
      if negb (JS.truthy user) then
        mret {| success := false; reply_message := Some "缺少用戶 ID" |}
      else
        o ← getSpaceWeather (test_snapshot w) true;
        let spaceWeather := value o in
        message ←
          (if String.eqb type "aurora" then formatAuroraMessage aurora_text spaceWeather
           else if String.eqb type "solar" then formatSolarWindMessage solar_text spaceWeather
           else if String.eqb type "iss" then formatISSMessage toFixed iss_text spaceWeather
           else formatSpaceWeatherMessage report_text (test_report_time w) spaceWeather);
        success ← linePush cfg (test_push w) user (Text message);
        mret {| success := success;
                reply_message := Some (if success then "已發送" else "發送失敗") |}
  | None => mret {| success := false; reply_message := Some "缺少用戶 ID" |}
  end.

End TestPush.

(* ===================================================================== *)
(** ** Subscription statistics  ([GET /api/stats/subscriptions],
       lines 1992-2013) *)
(* ===================================================================== *)

Record SubscriptionStats := {
  stats_total : nat; stats_daily : nat; stats_aurora : nat;
  stats_flare : nat; stats_cme : nat
}.

Inductive StatsReply :=
| StatsData (data : SubscriptionStats)  (* [{ success: true, data }] *)
| StatsMessage (message : string)       (* [{ success: false, message }] *)
| StatsError (error : string).          (* [{ success: false, error }], status 500 *)

Definition count_rows (P : SubRow → Prop) `{!∀ row, Decision (P row)}
    (rows : list SubRow) : nat :=
  length (filter P rows).

Definition statsSubscriptions (read : fault) : M (Z * StatsReply) :=
  st ← get;
  match doc st with
  | None => mret (200, StatsMessage "Google Sheets 未連線")
  | Some _ =>
      try_catch
        (rows ← getRows read;
         let stats :=
           {| stats_total := count_rows (λ r, sub_status r = ENABLED) rows;
              stats_daily :=
                count_rows (λ r, sub_type r = "daily" ∧ sub_status r = ENABLED) rows;
              stats_aurora :=
                count_rows (λ r, sub_type r = "aurora" ∧ sub_status r = ENABLED) rows;
              stats_flare :=
                count_rows (λ r, sub_type r = "flare" ∧ sub_status r = ENABLED) rows;
              stats_cme :=
                count_rows (λ r, sub_type r = "cme" ∧ sub_status r = ENABLED) rows |} in
         mret (200, StatsData stats))
        (λ msg, mret (500, StatsError msg))
  end.

(** The topics a chat subscription can have. *)
Definition TOPICS : list string := ["daily"; "aurora"; "flare"; "cme"].

(* ===================================================================== *)
(** ** Moon phase  ([getMoonPhase], lines 629-683) *)
(* ===================================================================== *)

Record Phase := { phase_name : string; phase_icon : string; phase_english : string }.

(** The table of lines 652-661. *)
Definition PHASES : list Phase :=
  [ {| phase_name := "新月"; phase_icon := "🌑"; phase_english := "New Moon" |};
    {| phase_name := "眉月"; phase_icon := "🌒"; phase_english := "Waxing Crescent" |};
    {| phase_name := "上弦月"; phase_icon := "🌓"; phase_english := "First Quarter" |};
    {| phase_name := "盈凸月"; phase_icon := "🌔"; phase_english := "Waxing Gibbous" |};
    {| phase_name := "滿月"; phase_icon := "🌕"; phase_english := "Full Moon" |};
    {| phase_name := "虧凸月"; phase_icon := "🌖"; phase_english := "Waning Gibbous" |};
    {| phase_name := "下弦月"; phase_icon := "🌗"; phase_english := "Last Quarter" |};
    {| phase_name := "殘月"; phase_icon := "🌘"; phase_english := "Waning Crescent" |} ].

Record Moon := {
  moon_phase : string;
  moon_icon : string;
  moon_english : string;
  moon_illumination : Z;
  moon_age : Z;
  moon_nextFullMoon : string;
  moon_nextNewMoon : string;
  moon_isGoodForViewing : bool
}.

(** [xs[i]] for a number [i]: [undefined] unless [i] is an index. *)
Definition at_index {A} (xs : list A) (i : Z) : option A :=
  if i <? 0 then None else xs !! Z.to_nat i.

Section Moon.

(** [new Date(ms).toLocaleDateString('zh-TW')] *)
Variable toLocaleDateString : Q → string.

(** Lines 663-682, for the phase number and the fraction of the cycle. *)
Definition moon_of_phase (phase : Z) (jd : Q) (time : Z) : outcome Moon :=
  match at_index PHASES (Z.rem phase 8) with
  | None => Threw "Cannot read properties of undefined (reading 'name')"
  | Some currentPhase =>
      let daysUntilFull := (inject_Z (Z.rem (4 - phase + 8) 8) * (369 # 100))%Q in
      let nextFullMoon := (inject_Z time + daysUntilFull * 24 * 60 * 60 * 1000)%Q in
      let daysUntilNew := (inject_Z (Z.rem (8 - phase) 8) * (369 # 100))%Q in
      let nextNewMoon := (inject_Z time + daysUntilNew * 24 * 60 * 60 * 1000)%Q in
      Returned
        {| moon_phase := phase_name currentPhase;
           moon_icon := phase_icon currentPhase;
           moon_english := phase_english currentPhase;
           moon_illumination :=
             JS.round (50 - Qabs (50 - inject_Z phase * (25 # 2)))%Q;
           moon_age := JS.round (jd * (2953 # 100))%Q;
           moon_nextFullMoon := toLocaleDateString nextFullMoon;
           moon_nextNewMoon := toLocaleDateString nextNewMoon;
           moon_isGoodForViewing := (5 <=? phase) || (phase <=? 1) |}
  end.

(** The fraction of the lunar cycle on the given day (lines 636-649):
    [year], [month] (1 to 12) and [day] are the local calendar date. *)
Definition cycle_fraction (year month day : Z) : Q :=
  let c := if month <? 3 then year - 1 else year in
  let e := if month <? 3 then month + 12 else month in
  let jd := (inject_Z (Qfloor ((36525 # 100) * inject_Z c))
             + inject_Z (Qfloor ((306001 # 10000) * inject_Z (e + 1)))
             + inject_Z day - (69403909 # 100))%Q in
  let jd := (jd / (2953058867 # 100000000))%Q in
  let b := Qfloor jd in
  (jd - inject_Z b)%Q.

(** [time] is [date.getTime()]. *)
Definition getMoonPhase (year month day time : Z) : outcome Moon :=
  let jd := cycle_fraction year month day in
  let phase := JS.round (jd * 8)%Q in
  moon_of_phase phase jd time.

End Moon.

Module Tour.

Import Sample.

(** One subscriber with three topics, and another one in between. *)
Definition rows : list SubRow :=
  [ row "U-both" "daily" "08:00" ENABLED;
    row "U-other" "aurora" EmptyString ENABLED;
    row "U-both" "aurora" EmptyString ENABLED;
    row "U-both" "flare" EmptyString ENABLED ].

Definition st : State := connected rows.

(** An unsubscribe during which the save of the row at position [k] is
    refused. *)
Definition save_fails_at (k : nat) : UnsubscribeWorld :=
  {| unsubscribe_read := None;
     unsubscribe_save := λ i, if (i =? k)%nat then Some "Quota exceeded" else None |}.

(** A broadcast in which LINE refuses the push to the second recipient. *)
Definition second_refused : BroadcastWorld :=
  {| broadcast_read := None;
     broadcast_push := λ i, if (i =? 1)%nat then push_refused else push_ok |}.

(** Three active subscribers of the aurora topic. *)
Definition audience : State :=
  connected [ row "U-1" "aurora" EmptyString ENABLED;
              row "U-2" "aurora" EmptyString ENABLED;
              row "U-3" "aurora" EmptyString ENABLED ].

(** A text event that lacks its [message] object, then a follow event. *)
Definition broken : WebhookEvent :=
  {| ev_type := "message"; ev_message_type := None; ev_text := EmptyString;
     ev_userId := "U-odd"; ev_replyToken := "r0" |}.

Definition unfollow (user : string) : WebhookEvent :=
  {| ev_type := "unfollow"; ev_message_type := None; ev_text := EmptyString;
     ev_userId := user; ev_replyToken := EmptyString |}.

(** A request signed with the secret of [Sample.cfg] under [Stub.hmac]. *)
Definition signed (events : list WebhookEvent) : Request :=
  {| req_rawBody := Some "{}"; req_signature := Some "secret{}";
     req_body_events := EventsArray events |}.

Definition forged (events : list WebhookEvent) : Request :=
  {| req_rawBody := Some "{}"; req_signature := Some "guess";
     req_body_events := EventsArray events |}.

(** Stand-ins for the platform's text functions and for the wording of
    further templates. *)
Definition normalize (text : string) : string := text.
Definition solar_text (s : Snapshot) : string := "solar wind".
Definition iss_text (i : Iss) (lat lon : string) : string := "position".
Definition cme_text (l : list CmeEvent) : string := "ejections".

(** LINE accepts every reply. *)
Definition reply_ok : ReplyWorld :=
  {| reply_response := λ _ _, Returned true; reply_status := "200";
     reply_error := Returned EmptyString |}.

Definition chat : ChatWorld :=
  {| chat_snapshot := snapshot_world t0 quiet;
     chat_report_time := "2025/12/25 11:00:00";
     chat_lookup := Returned "lookup";
     chat_subscribe := {| subscribe_read := None; subscribe_write := None;
                          subscribe_time := "2025-12-25T03:00:00.000Z" |};
     chat_read := None;
     chat_unsubscribe := unsubscribe_ok;
     chat_reply := reply_ok |}.

Definition say (user text : string) : WebhookEvent :=
  {| ev_type := "message"; ev_message_type := Some "text"; ev_text := text;
     ev_userId := user; ev_replyToken := "r1" |}.

Definition test_world : TestPushWorld :=
  {| test_snapshot := snapshot_world (t0 + 1000) quiet;
     test_report_time := "2025/12/25 11:00:01";
     test_push := push_ok |}.

End Tour.


(* ===================================================================== *)
(** * Properties *)
(* ===================================================================== *)

(** Unfolding one step of a computation. *)
Ltac run :=
  repeat (cbn [mbind mret M_bind M_ret exec result fst snd] in *;
          unfold mbind, mret, M_bind, M_ret, get, modify, emit, external, throw,
                 try_catch, await, exec, result in *;
          cbn [fst snd] in *).

(** Projections of updated states. *)
Ltac st_simpl :=
  cbn [doc cachedSpaceWeather cacheTime lastAlerts next_oid trace
       with_event with_doc with_cache with_lastAlerts with_next_oid] in *.

Arguments JS.slice0 : simpl never.

(** ** Sequencing *)

Lemma bind_run {A B} (m : M A) (f : A → M B) (st st' : State) (a : A) :
  m st = (Returned a, st') → (m ≫= f) st = f a st'.
Proof. intros H. unfold mbind, M_bind. by rewrite H. Qed.

Lemma bind_throw {A B} (m : M A) (f : A → M B) (st st' : State) (e : string) :
  m st = (Threw e, st') → (m ≫= f) st = (Threw e, st').
Proof. intros H. unfold mbind, M_bind. by rewrite H. Qed.

Lemma try_catch_run {A} (m : M A) (h : string → M A) (st st' : State) (a : A) :
  m st = (Returned a, st') → try_catch m h st = (Returned a, st').
Proof. intros H. unfold try_catch. by rewrite H. Qed.

Lemma try_catch_throw {A} (m : M A) (h : string → M A) (st st' : State) (e : string) :
  m st = (Threw e, st') → try_catch m h st = h e st'.
Proof. intros H. unfold try_catch. by rewrite H. Qed.

Lemma exec_run {A} (m : M A) (st st' : State) (o : outcome A) :
  m st = (o, st') → exec m st = st'.
Proof. unfold exec. by intros ->. Qed.

Lemma result_run {A} (m : M A) (st st' : State) (o : outcome A) :
  m st = (o, st') → result m st = o.
Proof. unfold result. by intros ->. Qed.

(** ** Traces *)

Lemma line_pushes_app (a b : list event) :
  line_pushes (a ++ b) = line_pushes a ++ line_pushes b.
Proof. apply omap_app. Qed.

Lemma upstream_fetches_app (a b : list event) :
  upstream_fetches (a ++ b) = (upstream_fetches a + upstream_fetches b)%nat.
Proof. unfold upstream_fetches. by rewrite omap_app, length_app. Qed.

Lemma errors_app (a b : list event) : errors (a ++ b) = errors a ++ errors b.
Proof. apply omap_app. Qed.

Lemma http_pushes_app (a b : list event) :
  http_pushes (a ++ b) = http_pushes a ++ http_pushes b.
Proof. apply omap_app. Qed.

Lemma added_eq {A} (m : M A) (st : State) (evs : list event) :
  trace (exec m st) = trace st ++ evs → added m st = evs.
Proof. unfold added. intros ->. by rewrite drop_app_length. Qed.

#[global] Instance push_frame_refl : Reflexive push_frame.
Proof. by intros st. Qed.

#[global] Instance push_frame_trans : Transitive push_frame.
Proof.
  intros a b c (?&?&?&?&?&Hab) (?&?&?&?&?&Hbc).
  repeat split; try congruence.
  - intros. by apply Hab, Hbc.
  - intros. by apply Hbc, Hab.
Qed.

(** ** LINE push *)

(** [linePush] always returns: every failure inside it is caught. *)
Lemma linePush_run cfg w u p st :
  ∃ b st' evs,
    linePush cfg w u p st = (Returned b, st') ∧
    push_frame st st' ∧
    trace st' = trace st ++ EvLinePush u p :: evs ∧
    line_pushes evs = [] ∧ upstream_fetches evs = 0%nat.
Proof.
  assert (Hfin : ∀ (b : bool) st' evs,
    push_frame st st' → trace st' = trace st ++ EvLinePush u p :: evs →
    line_pushes evs = [] → upstream_fetches evs = 0%nat →
    ∃ (b0 : bool) st0 evs0, (Returned b, st') = (Returned b0, st0) ∧ push_frame st st0 ∧
      trace st0 = trace st ++ EvLinePush u p :: evs0 ∧
      line_pushes evs0 = [] ∧ upstream_fetches evs0 = 0%nat) by eauto 10.
  unfold linePush, record_push. run.
  destruct (JS.is_set _); cbn [negb].
  2:{ apply (Hfin _ _ []); try done. }
  destruct (push_response w) as [[|]|e]; cbn [negb]; st_simpl;
    [destruct (doc st) as [d|] eqn:Hd;
       [destruct (sheet_pushLog d) as [rows|] eqn:Hs;
          [destruct (push_log_write w) eqn:Hw|]|]
    |destruct (push_error w)|];
    (eapply Hfin;
     [ | st_simpl; rewrite <- ?app_assoc; reflexivity | done | done ];
     unfold push_frame; st_simpl; rewrite ?Hd; done).
Qed.

Lemma linePush_trace cfg w u p st :
  http_pushes (added (linePush cfg w u p) st)
  = if push_sent cfg then [(u, JS.slice0 5 (msgArray p))] else [].
Proof.
  unfold added, linePush, push_sent, record_push. run.
  destruct (JS.is_set _); cbn [negb fst snd]; st_simpl.
  2:{ by rewrite drop_app_length. }
  destruct (push_response w) as [[|]|e]; cbn [negb fst snd]; st_simpl;
    [destruct (doc st) as [d|] eqn:Hd;
       [destruct (sheet_pushLog d) as [rows|] eqn:Hs;
          [destruct (push_log_write w) eqn:Hw|]|]
    |destruct (push_error w)|];
    cbn [fst snd]; st_simpl; rewrite <- ?app_assoc, drop_app_length; reflexivity.
Qed.

(** The push request of a call, among what the call adds to the trace. *)
Lemma linePush_request cfg w u p st :
  ∃ evs, trace (exec (linePush cfg w u p) st) = trace st ++ evs ∧
         http_pushes evs
         = (if push_sent cfg then [(u, JS.slice0 5 (msgArray p))] else []).
Proof.
  destruct (linePush_run cfg w u p st) as (b & st' & evs & Hrun & _ & Htr & _).
  exists (EvLinePush u p :: evs). erewrite exec_run by exact Hrun. split; [done|].
  rewrite <- (linePush_trace cfg w u p st).
  by erewrite added_eq by (erewrite exec_run by exact Hrun; exact Htr).
Qed.

Lemma push_loop_requests cfg (pw : nat → PushWorld) (msg : payload)
    (xs : list Subscriber) :
  ∀ (i : nat) (st : State),
    ∃ evs,
      trace (exec (for_each_from i xs (λ i user,
               linePush cfg (pw i) (userId user) msg ;; mret tt)) st) = trace st ++ evs ∧
      http_pushes evs
      = (if push_sent cfg
         then (λ u, (userId u, JS.slice0 5 (msgArray msg))) <$> xs else []).
Proof.
  induction xs as [|x xs IH]; intros i st.
  - exists []. rewrite app_nil_r. by destruct (push_sent cfg).
  - destruct (linePush_run cfg (pw i) (userId x) msg st) as (b & st1 & evs0 & Hrun & _).
    destruct (linePush_request cfg (pw i) (userId x) msg st) as (evs1 & Htr1 & Hh1).
    erewrite exec_run in Htr1 by exact Hrun.
    destruct (IH (S i) st1) as (evs2 & Htr2 & Hh2).
    exists (evs1 ++ evs2). split.
    + cbn [for_each_from]. unfold exec in *.
      erewrite bind_run by (erewrite bind_run by exact Hrun; reflexivity).
      by rewrite Htr2, Htr1, <- app_assoc.
    + rewrite http_pushes_app, Hh1, Hh2. by destruct (push_sent cfg).
Qed.

Lemma push_loop cfg (pw : nat → PushWorld) (msg : payload) (xs : list Subscriber) :
  ∀ (i : nat) (st : State),
    ∃ st' evs,
      for_each_from i xs (λ i user,
        linePush cfg (pw i) (userId user) msg ;; mret tt) st = (Returned tt, st') ∧
      push_frame st st' ∧
      trace st' = trace st ++ evs ∧
      line_pushes evs = (λ u, (userId u, msg)) <$> xs ∧
      upstream_fetches evs = 0%nat.
Proof.
  induction xs as [|x xs IH]; intros i st; simpl.
  - exists st, []. run. by rewrite app_nil_r.
  - destruct (linePush_run cfg (pw i) (userId x) msg st)
      as (b & st1 & evs1 & Hrun & Hfr & Htr & Hlp & Hup).
    destruct (IH (S i) st1) as (st2 & evs2 & Hrun2 & Hfr2 & Htr2 & Hlp2 & Hup2).
    exists st2, ((EvLinePush (userId x) msg :: evs1) ++ evs2).
    split.
    { erewrite bind_run; [exact Hrun2|].
      erewrite bind_run by exact Hrun. reflexivity. }
    split; [by etrans|].
    split; [by rewrite Htr2, Htr, <- app_assoc|].
    split.
    + rewrite line_pushes_app. simpl. by rewrite Hlp, Hlp2.
    + change (EvLinePush (userId x) msg :: evs1)
        with ([EvLinePush (userId x) msg] ++ evs1).
      by rewrite !upstream_fetches_app, Hup, Hup2.
Qed.

(** ** Subscribers *)

Lemma getSubscribersByType_run read type st :
  getSubscribersByType read type st = (Returned (active_subscribers read type st), st).
Proof.
  unfold getSubscribersByType, active_subscribers, getRows. run.
  destruct (doc st) as [d|] eqn:Hd; [|done]. simpl. rewrite Hd. simpl.
  destruct (sheet_subscriptions d) as [rows|]; [|done].
  by destruct read.
Qed.

(** ** Building the snapshot *)

Lemma alert_flare_consistent xray acc :
  alert_consistent acc → alert_consistent (alert_flare xray acc).
Proof.
  destruct acc as [lvl msgs]. unfold alert_flare, alert_consistent. cbn [fst snd].
  intros H. destruct xray as [x|]; [|done].
  destruct (String.eqb (x_flareClass x) "X").
  { right. split; [by right|]. by destruct msgs. }
  destruct (String.eqb (x_flareClass x) "M"); [|done].
  right. split; [|by destruct msgs].
  destruct (String.eqb_spec lvl "normal") as [->|Hne]; [by left|].
  destruct H as [[? _]|[? _]]; done.
Qed.

Lemma alert_radiation_consistent proton acc :
  alert_consistent acc → alert_consistent (alert_radiation proton acc).
Proof.
  destruct acc as [lvl msgs]. unfold alert_radiation, alert_consistent. cbn [fst snd].
  intros H. destruct proton as [p|]; [|done].
  destruct (JS.truthy (p_sLevel p) && negb (String.eqb (p_sLevel p) "S0")); [|done].
  right. split; [|by destruct msgs].
  destruct (JS.str_ge (p_sLevel p) "S3"); [by right|].
  destruct (String.eqb_spec lvl "normal") as [->|Hne]; [by left|].
  destruct H as [[? _]|[? _]]; done.
Qed.

(** The geomagnetic branch reads [kp.gLevel] only when [kp] is there. *)
Lemma alert_geomagnetic_run kp :
  ∃ acc, alert_consistent acc ∧
         ∀ st, alert_geomagnetic kp (kpValue_of kp) ("normal", []) st = (Returned acc, st).
Proof.
  unfold alert_geomagnetic, alert_consistent.
  destruct kp as [k|]; cbn [kpValue_of gLevel_of].
  - destruct (Qle_bool 7 _).
    { eexists. split; [|intros st; run; reflexivity].
      right. cbn. split; [by right|done]. }
    destruct (Qle_bool 5 _).
    { eexists. split; [|intros st; run; reflexivity].
      right. cbn. split; [by left|done]. }
    eexists. split; [|done]. by left.
  - change (Qle_bool 7 2) with false. change (Qle_bool 5 2) with false.
    eexists. split; [|done]. by left.
Qed.

(** Building never throws, leaves the state alone and does not depend on
    it. *)
Lemma build_snapshot_run r ts :
  ∃ s, (∀ st, build_snapshot r ts st = (Returned s, st)) ∧
       alert_consistent (alertLevel s, alertMessages s) ∧
       timestamp s = ts ∧
       solarWind s = default default_solarWind (r_solarWind r) ∧
       magneticField s = default default_magneticField (r_magField r) ∧
       kp s = default default_kp (r_kp r) ∧
       xray s = default default_xray (r_xray r) ∧
       proton s = default default_proton (r_proton r) ∧
       electron s = default default_electron (r_electron r) ∧
       iss s = r_iss r.
Proof.
  unfold build_snapshot.
  destruct (alert_geomagnetic_run (r_kp r)) as (acc & Hacc & Hrun).
  pose proof (alert_radiation_consistent (r_proton r) _
                (alert_flare_consistent (r_xray r) _ Hacc)) as Hfin.
  destruct (alert_radiation _ _) as [lvl msgs] eqn:Hrad.
  eexists. split.
  { intros st. erewrite bind_run by apply Hrun. rewrite Hrad. reflexivity. }
  cbn. done.
Qed.

(** ** The reading cache *)

Lemma cache_hit_forced now st : cache_hit true now st = None.
Proof. unfold cache_hit. by destruct (cachedSpaceWeather st). Qed.

Lemma cache_hit_None force now st :
  cache_hit force now st = None ↔ cache_miss force now st.
Proof.
  unfold cache_hit, cache_miss.
  destruct (cachedSpaceWeather st) as [o|]; [|naive_solver].
  destruct force; cbn [negb andb]; [naive_solver|].
  destruct (Z.ltb_spec (now - cacheTime st) CACHE_DURATION); [|naive_solver].
  split; [done|]. intros [?|[?|?]]; [done..|lia].
Qed.

Lemma getSpaceWeather_hit w force st o :
  cache_hit force (snap_now w) st = Some o →
  getSpaceWeather w force st = (Returned o, st).
Proof. intros H. unfold getSpaceWeather. run. by rewrite H. Qed.

Lemma getSpaceWeather_resolved w force st r :
  cache_hit force (snap_now w) st = None →
  snap_upstream w = Returned r →
  ∃ s, (∀ st0, build_snapshot r (snap_timestamp w) st0 = (Returned s, st0)) ∧
       let o := {| oid := next_oid st; value := Built s |} in
       getSpaceWeather w force st
       = (Returned o,
          with_cache o (snap_now w)
            (with_next_oid (S (next_oid st)) (with_event EvUpstream st))).
Proof.
  intros Hmiss Hup.
  destruct (build_snapshot_run r (snap_timestamp w)) as (s & Hs & _).
  exists s. split; [done|].
  cbn zeta. unfold getSpaceWeather.
  erewrite bind_run by reflexivity. rewrite Hmiss.
  erewrite try_catch_run; [reflexivity|].
  erewrite bind_run by reflexivity.
  rewrite Hup. erewrite bind_run by reflexivity.
  erewrite bind_run by apply Hs.
  reflexivity.
Qed.

Lemma getSpaceWeather_rejected w force st msg :
  cache_hit force (snap_now w) st = None →
  snap_upstream w = Threw msg →
  getSpaceWeather w force st
  = (Returned {| oid := next_oid st; value := Failed msg (snap_timestamp w) |},
     with_next_oid (S (next_oid st))
       (with_event (EvError "綜合數據錯誤:" msg) (with_event EvUpstream st))).
Proof.
  intros Hmiss Hup. unfold getSpaceWeather.
  erewrite bind_run by reflexivity. rewrite Hmiss.
  erewrite try_catch_throw.
  2:{ erewrite bind_run by reflexivity. rewrite Hup. reflexivity. }
  reflexivity.
Qed.

Lemma read_all_within_ttl st cached ws :
  cachedSpaceWeather st = Some cached →
  Forall (λ w, snap_now w - cacheTime st < CACHE_DURATION) ws →
  read_all ws st = (Returned (replicate (length ws) cached), st).
Proof.
  intros Hc. induction 1 as [|w ws Hw _ IH]; [done|].
  cbn [read_all length replicate].
  erewrite bind_run.
  2:{ apply getSpaceWeather_hit. unfold cache_hit. rewrite Hc. cbn [negb andb].
      by destruct (Z.ltb_spec (snap_now w - cacheTime st) CACHE_DURATION); [|lia]. }
  erewrite bind_run by exact IH. reflexivity.
Qed.

(** ** The claims about the reading cache *)

(** C3.  Reads with [forceRefresh = false] made while a snapshot is cached
    and younger than [CACHE_DURATION] (60 s) all return the cached object
    itself and leave the state as it was, trace included: nothing is fetched.
    For any single call: the readings are fetched exactly when the cache is
    absent, expired or bypassed; the call then makes a new object and, when
    the readings arrive, stores it together with the time of the call;
    otherwise it returns the cached object and changes nothing. *)
Theorem getSpaceWeather_serves_from_cache (st : State) (cached : Obj)
    (ws : list SnapshotWorld) :
  cachedSpaceWeather st = Some cached →
  Forall (λ w, snap_now w - cacheTime st < CACHE_DURATION) ws →
  read_all ws st = (Returned (replicate (length ws) cached), st) ∧
  ∀ (w : SnapshotWorld) (force : bool) (st0 : State),
    let st' := exec (getSpaceWeather w force) st0 in
    (cache_miss force (snap_now w) st0 →
       upstream_fetches (added (getSpaceWeather w force) st0) = 1%nat ∧
       ∀ r, snap_upstream w = Returned r →
         ∃ s, result (getSpaceWeather w force) st0
                = Returned {| oid := next_oid st0; value := Built s |} ∧
              cachedSpaceWeather st'
                = Some {| oid := next_oid st0; value := Built s |} ∧
              cacheTime st' = snap_now w) ∧
    (¬ cache_miss force (snap_now w) st0 →
       upstream_fetches (added (getSpaceWeather w force) st0) = 0%nat ∧
       st' = st0 ∧
       ∃ o, cachedSpaceWeather st0 = Some o ∧
            result (getSpaceWeather w force) st0 = Returned o).
Proof.
  intros Hc Hws. split; [by apply read_all_within_ttl|].
  intros w force st0 st'. subst st'. split.
  - intros Hmiss%cache_hit_None.
    destruct (snap_upstream w) as [r|msg] eqn:Hup.
    + destruct (getSpaceWeather_resolved w force st0 r Hmiss Hup) as (s & _ & Hrun).
      cbn zeta in Hrun. split.
      * erewrite added_eq; [|erewrite exec_run by exact Hrun; st_simpl; reflexivity].
        done.
      * intros r' [= <-]. exists s.
        erewrite result_run, exec_run by exact Hrun. done.
    + pose proof (getSpaceWeather_rejected w force st0 msg Hmiss Hup) as Hrun.
      split; [|done].
      erewrite added_eq;
        [|erewrite exec_run by exact Hrun; st_simpl; rewrite <- app_assoc; reflexivity].
      done.
  - intros Hhit.
    destruct (cache_hit force (snap_now w) st0) as [o|] eqn:Hh.
    2:{ by apply cache_hit_None in Hh. }
    pose proof (getSpaceWeather_hit w force st0 o Hh) as Hrun.
    erewrite result_run, exec_run by exact Hrun.
    unfold added. erewrite exec_run by exact Hrun. rewrite drop_all.
    split; [done|]. split; [done|]. exists o. split; [|done].
    unfold cache_hit in Hh. destruct (cachedSpaceWeather st0); [|done].
    by destruct (_ && _); simplify_eq.
Qed.

(** C4.  When waiting for the readings throws, [getSpaceWeather] returns the
    [{ success: false, error }] sentinel carrying the error's message; it
    returns normally, and the cached snapshot and its time stamp are the ones
    from before the call. *)
Theorem getSpaceWeather_failure_keeps_cache (w : SnapshotWorld) (force : bool)
    (st : State) (msg : string) :
  cache_miss force (snap_now w) st →
  snap_upstream w = Threw msg →
  let st' := exec (getSpaceWeather w force) st in
  result (getSpaceWeather w force) st
    = Returned {| oid := next_oid st; value := Failed msg (snap_timestamp w) |} ∧
  cachedSpaceWeather st' = cachedSpaceWeather st ∧
  cacheTime st' = cacheTime st.
Proof.
  intros Hmiss%cache_hit_None Hup st'. subst st'.
  pose proof (getSpaceWeather_rejected w force st msg Hmiss Hup) as Hrun.
  by erewrite result_run, exec_run by exact Hrun.
Qed.

(** C10.  A snapshot that [getSpaceWeather] builds has [alertLevel] among
    [normal], [warning] and [severe], and the level is [normal] exactly when
    [alertMessages] is empty. *)
Theorem alert_level_matches_messages (w : SnapshotWorld) (force : bool)
    (st : State) (o : Obj) (s : Snapshot) :
  cache_miss force (snap_now w) st →
  result (getSpaceWeather w force) st = Returned o →
  value o = Built s →
  (alertLevel s = "normal" ∨ alertLevel s = "warning" ∨ alertLevel s = "severe") ∧
  (alertLevel s = "normal" ↔ alertMessages s = []).
Proof.
  intros Hmiss%cache_hit_None Hres Hval.
  destruct (snap_upstream w) as [r|msg] eqn:Hup.
  - destruct (getSpaceWeather_resolved w force st r Hmiss Hup) as (s0 & Hb & Hrun).
    cbn zeta in Hrun. erewrite result_run in Hres by exact Hrun.
    injection Hres as <-. cbn in Hval. injection Hval as <-.
    destruct (build_snapshot_run r (snap_timestamp w)) as (s1 & Hb1 & Hcons & _).
    assert (s1 = s0) as ->.
    { specialize (Hb st). specialize (Hb1 st). congruence. }
    destruct Hcons as [[H1 H2]|[H1 H2]]; cbn [fst snd] in *.
    + split; [by left|]. by rewrite H1, H2.
    + split; [destruct H1; auto|]. split; [|done].
      intros Hn. rewrite Hn in H1. by destruct H1.
  - pose proof (getSpaceWeather_rejected w force st msg Hmiss Hup) as Hrun.
    erewrite result_run in Hres by exact Hrun. injection Hres as <-. done.
Qed.

(** ** Alert checks *)

Lemma getSpaceWeather_forced w st :
  ∃ o st' evs,
    getSpaceWeather w true st = (Returned o, st') ∧
    value o = forced_read w st ∧
    doc st' = doc st ∧ lastAlerts st' = lastAlerts st ∧
    trace st' = trace st ++ EvUpstream :: evs ∧
    line_pushes evs = [] ∧ upstream_fetches evs = 0%nat ∧ http_pushes evs = [].
Proof.
  unfold forced_read.
  destruct (snap_upstream w) as [r|msg] eqn:Hup.
  - destruct (getSpaceWeather_resolved w true st r (cache_hit_forced _ _) Hup)
      as (s & _ & Hrun). cbn zeta in Hrun.
    eexists _, _, []. split; [exact Hrun|].
    erewrite result_run by exact Hrun. done.
  - pose proof (getSpaceWeather_rejected w true st msg (cache_hit_forced _ _) Hup) as Hrun.
    eexists _, _, [_]. split; [exact Hrun|].
    erewrite result_run by exact Hrun. st_simpl. by rewrite <- app_assoc.
Qed.

Lemma prefix_append (a b : string) : String.prefix a (a +:+ b) = true.
Proof.
  induction a as [|c a IH]; [by destruct b|].
  change (String.prefix (String c a) (String c (a +:+ b)) = true).
  cbn [String.prefix]. destruct (ascii_dec c c); [exact IH|congruence].
Qed.

Section AlertChecks.

Variable toFixed : nat → Q → string.
Variable aurora_text : Snapshot → string.
Variable cfg : Config.

Lemma aurora_alert_text_run sw :
  kp_crossed sw = true →
  ∃ msg, String.prefix AURORA_HEADER msg = true ∧
         String.prefix FLARE_HEADER msg = false ∧
         ∀ st, aurora_alert_text toFixed aurora_text sw st = (Returned msg, st).
Proof.
  unfold kp_crossed, aurora_alert_text. destruct sw as [s|]; [|done].
  cbn [data_kp formatAuroraMessage]. intros _.
  eexists. split; [|split; [|intros st; erewrite bind_run by reflexivity; reflexivity]].
  - apply prefix_append.
  - reflexivity.
Qed.

Lemma flare_alert_text_run sw :
  flare_crossed sw = true →
  ∃ msg, String.prefix FLARE_HEADER msg = true ∧
         String.prefix AURORA_HEADER msg = false ∧
         ∀ st, flare_alert_text sw st = (Returned msg, st).
Proof.
  unfold flare_crossed, flare_alert_text. destruct sw as [s|]; [|done].
  cbn [data_xray]. intros _.
  eexists. split; [|split; [|intros st; reflexivity]].
  - apply prefix_append.
  - reflexivity.
Qed.

(** One block of [checkAlerts]. *)
Lemma alert_block_run t c read push compose now st msg :
  (c = true → ∀ st0, compose st0 = (Returned msg, st0)) →
  let subs := active_subscribers read (topic_type t) st in
  let go := c && cooled_down t now st && (0 <? length subs)%nat in
  ∃ st' evs,
    alert_block cfg t c read push compose now st = (Returned tt, st') ∧
    push_frame (with_lastAlerts (lastAlerts st') st) st' ∧
    lastAlerts st'
      = (if go then record_alert t now (lastAlerts st) else lastAlerts st) ∧
    trace st' = trace st ++ evs ∧
    line_pushes evs = (if go then (λ u, (userId u, Text msg)) <$> subs else []) ∧
    upstream_fetches evs = 0%nat ∧
    http_pushes evs
    = (if go && push_sent cfg
       then (λ u, (userId u, [text_message msg])) <$> subs else []).
Proof.
  intros Hcompose subs go. subst go. unfold alert_block, cooled_down.
  erewrite bind_run by reflexivity.
  destruct c; cbn [andb].
  2:{ exists st, []. rewrite app_nil_r. by destruct st. }
  destruct (_ >? _); cbn [andb].
  2:{ exists st, []. rewrite app_nil_r. by destruct st. }
  erewrite bind_run by apply getSubscribersByType_run. fold subs.
  destruct (0 <? length subs)%nat.
  2:{ exists st, []. rewrite app_nil_r. by destruct st. }
  erewrite bind_run by by apply Hcompose.
  destruct (push_loop cfg push (Text msg) subs 0 st)
    as (st1 & evs & Hrun & Hfr & Htr & Hlp & Hup).
  destruct (push_loop_requests cfg push (Text msg) subs 0 st) as (evs' & Htr' & Hhttp).
  erewrite exec_run in Htr' by exact Hrun.
  rewrite Htr in Htr'. apply app_inv_head in Htr'. subst evs'.
  eexists _, evs. split.
  { erewrite bind_run by exact Hrun. reflexivity. }
  st_simpl. destruct Hfr as (?&?&Hla&?&?&?). rewrite Hla.
  repeat split; try done. all: st_simpl; try congruence; tauto.
Qed.

Lemma active_subscribers_ext read type st st' :
  doc st' ≫= sheet_subscriptions = doc st ≫= sheet_subscriptions →
  active_subscribers read type st' = active_subscribers read type st.
Proof. unfold active_subscribers. by intros ->. Qed.

Lemma checkAlerts_blocks w :
  checkAlerts toFixed aurora_text cfg w
  = (o ← getSpaceWeather (alert_snapshot w) true;
     alert_block cfg TopicAurora (kp_crossed (value o)) (alert_aurora_read w)
       (alert_aurora_push w) (aurora_alert_text toFixed aurora_text (value o))
       (alert_now w) ;;
     alert_block cfg TopicFlare (flare_crossed (value o)) (alert_flare_read w)
       (alert_flare_push w) (flare_alert_text (value o)) (alert_now w)).
Proof. reflexivity. Qed.

(** What one alert check does. *)
Lemma checkAlerts_run w st :
  ∃ st' amsg fmsg evs,
    checkAlerts toFixed aurora_text cfg w st = (Returned tt, st') ∧
    is_alert TopicAurora (EmptyString, Text amsg) = true ∧
    is_alert TopicFlare (EmptyString, Text amsg) = false ∧
    is_alert TopicFlare (EmptyString, Text fmsg) = true ∧
    is_alert TopicAurora (EmptyString, Text fmsg) = false ∧
    trace st' = trace st ++ evs ∧
    line_pushes evs
      = (if fires TopicAurora w st
         then (λ u, (userId u, Text amsg)) <$> topic_subscribers TopicAurora w st
         else []) ++
        (if fires TopicFlare w st
         then (λ u, (userId u, Text fmsg)) <$> topic_subscribers TopicFlare w st
         else []) ∧
    (∀ t, last_alert t (lastAlerts st')
          = if fires t w st then alert_now w else last_alert t (lastAlerts st)) ∧
    doc st' ≫= sheet_subscriptions = doc st ≫= sheet_subscriptions ∧
    http_pushes evs
      = (if fires TopicAurora w st && push_sent cfg
         then (λ u, (userId u, [text_message amsg])) <$> topic_subscribers TopicAurora w st
         else []) ++
        (if fires TopicFlare w st && push_sent cfg
         then (λ u, (userId u, [text_message fmsg])) <$> topic_subscribers TopicFlare w st
         else []) ∧
    (∀ t, crossed t (forced_read (alert_snapshot w) st) = true →
          ∀ st0, alert_text toFixed aurora_text t (forced_read (alert_snapshot w) st) st0
                 = (Returned (match t with TopicAurora => amsg | TopicFlare => fmsg end),
                    st0)).
Proof.
  rewrite checkAlerts_blocks.
  destruct (getSpaceWeather_forced (alert_snapshot w) st)
    as (o & st1 & evs0 & Hrun0 & Hval & Hdoc0 & Hla0 & Htr0 & Hlp0 & _ & Hhttp0).
  set (sw := forced_read (alert_snapshot w) st) in *.
  assert (∃ amsg, String.prefix AURORA_HEADER amsg = true ∧
                  String.prefix FLARE_HEADER amsg = false ∧
                  (kp_crossed sw = true →
                   ∀ st0, aurora_alert_text toFixed aurora_text sw st0
                          = (Returned amsg, st0)))
    as (amsg & Ha1 & Ha2 & Hacomp).
  { destruct (kp_crossed sw) eqn:Hc.
    - destruct (aurora_alert_text_run sw Hc) as (m & ? & ? & ?). by exists m.
    - exists AURORA_HEADER. by split_and!. }
  assert (∃ fmsg, String.prefix FLARE_HEADER fmsg = true ∧
                  String.prefix AURORA_HEADER fmsg = false ∧
                  (flare_crossed sw = true →
                   ∀ st0, flare_alert_text sw st0 = (Returned fmsg, st0)))
    as (fmsg & Hf1 & Hf2 & Hfcomp).
  { destruct (flare_crossed sw) eqn:Hc.
    - destruct (flare_alert_text_run sw Hc) as (m & ? & ? & ?). by exists m.
    - exists FLARE_HEADER. by split_and!. }
  pose proof Hacomp as Hacomp0. pose proof Hfcomp as Hfcomp0.
  rewrite <- Hval in Hacomp, Hfcomp.
  destruct (alert_block_run TopicAurora _ (alert_aurora_read w) (alert_aurora_push w)
              _ (alert_now w) st1 amsg Hacomp)
    as (st2 & evs1 & Hrun1 & Hfr1 & Hla1 & Htr1 & Hlp1 & _ & Hhttp1).
  destruct (alert_block_run TopicFlare _ (alert_flare_read w) (alert_flare_push w)
              _ (alert_now w) st2 fmsg Hfcomp)
    as (st3 & evs2 & Hrun2 & Hfr2 & Hla2 & Htr2 & Hlp2 & _ & Hhttp2).
  destruct Hfr1 as (_ & _ & _ & _ & Hsub1 & _).
  destruct Hfr2 as (_ & _ & _ & _ & Hsub2 & _).
  st_simpl.
  assert (HgoA : kp_crossed (value o) && cooled_down TopicAurora (alert_now w) st1
                 && (0 <? length (active_subscribers (alert_aurora_read w)
                                    (topic_type TopicAurora) st1))%nat
                 = fires TopicAurora w st).
  { unfold fires, topic_subscribers, cooled_down. cbn [crossed topic_read].
    rewrite Hval, Hla0.
    by rewrite (active_subscribers_ext _ _ st st1) by congruence. }
  assert (HgoF : flare_crossed (value o) && cooled_down TopicFlare (alert_now w) st2
                 && (0 <? length (active_subscribers (alert_flare_read w)
                                    (topic_type TopicFlare) st2))%nat
                 = fires TopicFlare w st).
  { unfold fires, topic_subscribers, cooled_down. cbn [crossed topic_read].
    rewrite Hval, Hla1.
    rewrite (active_subscribers_ext _ _ st st2) by congruence.
    assert (∀ b : bool,
              last_alert TopicFlare
                (if b then record_alert TopicAurora (alert_now w) (lastAlerts st1)
                 else lastAlerts st1)
              = last_alert TopicFlare (lastAlerts st1)) as -> by by intros [].
    rewrite Hla0. fold sw. reflexivity. }
  rewrite HgoA in Hla1, Hlp1, Hhttp1. rewrite HgoF in Hla2, Hlp2, Hhttp2.
  exists st3, amsg, fmsg, ((EvUpstream :: evs0) ++ evs1 ++ evs2).
  split.
  { erewrite bind_run by exact Hrun0. erewrite bind_run by exact Hrun1. exact Hrun2. }
  split; [exact Ha1|]. split; [exact Ha2|]. split; [exact Hf1|]. split; [exact Hf2|].
  split; [by rewrite Htr2, Htr1, Htr0, <- !app_assoc|].
  split.
  { change (EvUpstream :: evs0) with ([EvUpstream] ++ evs0).
    rewrite !line_pushes_app, Hlp0, Hlp1, Hlp2.
    unfold topic_subscribers. cbn [topic_read].
    rewrite (active_subscribers_ext _ _ st st2) by congruence.
    by rewrite (active_subscribers_ext _ _ st st1) by congruence. }
  split.
  { intros t. rewrite Hla2, Hla1, Hla0.
    destruct t, (fires TopicAurora w st), (fires TopicFlare w st); reflexivity. }
  split; [congruence|]. split.
  { change (EvUpstream :: evs0) with ([EvUpstream] ++ evs0).
    rewrite !http_pushes_app, Hhttp0, Hhttp1, Hhttp2.
    unfold topic_subscribers. cbn [topic_read].
    rewrite (active_subscribers_ext _ _ st st2) by congruence.
    by rewrite (active_subscribers_ext _ _ st st1) by congruence. }
  intros [] Hc; [by apply Hacomp0|by apply Hfcomp0].
Qed.

Lemma alerts_sent_app t a b :
  alerts_sent t (a ++ b) = alerts_sent t a ++ alerts_sent t b.
Proof. unfold alerts_sent. by rewrite line_pushes_app, List.filter_app. Qed.

Lemma filter_alert_all t msg (subs : list Subscriber) :
  is_alert t (EmptyString, Text msg) = true →
  List.filter (is_alert t) ((λ u, (userId u, Text msg)) <$> subs)
  = (λ u, (userId u, Text msg)) <$> subs.
Proof.
  intros H. induction subs as [|u subs IH]; [done|].
  cbn [fmap list_fmap List.filter]. unfold is_alert at 1. cbn [snd].
  unfold is_alert in H. cbn [snd] in H. rewrite H. by f_equal.
Qed.

Lemma filter_alert_none t msg (subs : list Subscriber) :
  is_alert t (EmptyString, Text msg) = false →
  List.filter (is_alert t) ((λ u, (userId u, Text msg)) <$> subs) = [].
Proof.
  intros H. induction subs as [|u subs IH]; [done|].
  cbn [fmap list_fmap List.filter]. unfold is_alert at 1. cbn [snd].
  unfold is_alert in H. cbn [snd] in H. by rewrite H.
Qed.

Lemma filter_request_all t msg (subs : list Subscriber) :
  is_alert t (EmptyString, Text msg) = true →
  List.filter (is_alert_request t) ((λ u, (userId u, [text_message msg])) <$> subs)
  = (λ u, (userId u, [text_message msg])) <$> subs.
Proof.
  intros H. induction subs as [|u subs IH]; [done|].
  cbn [fmap list_fmap List.filter]. unfold is_alert_request at 1. cbn.
  unfold is_alert in H. cbn [snd] in H. rewrite H. by f_equal.
Qed.

Lemma filter_request_none t msg (subs : list Subscriber) :
  is_alert t (EmptyString, Text msg) = false →
  List.filter (is_alert_request t) ((λ u, (userId u, [text_message msg])) <$> subs) = [].
Proof.
  intros H. induction subs as [|u subs IH]; [done|].
  cbn [fmap list_fmap List.filter]. unfold is_alert_request at 1. cbn.
  unfold is_alert in H. cbn [snd] in H. by rewrite H.
Qed.

(** The alerts of one topic that a pass sends: the calls of [linePush] and
    the push requests. *)
Lemma checkAlerts_alerts w st t :
  ∃ msg,
    is_alert t (EmptyString, Text msg) = true ∧
    alerts_sent t (added (checkAlerts toFixed aurora_text cfg w) st)
    = (if fires t w st
       then (λ u, (userId u, Text msg)) <$> topic_subscribers t w st
       else []) ∧
    alert_requests t (added (checkAlerts toFixed aurora_text cfg w) st)
    = (if fires t w st && push_sent cfg
       then (λ u, (userId u, [text_message msg])) <$> topic_subscribers t w st
       else []) ∧
    (crossed t (forced_read (alert_snapshot w) st) = true →
     ∀ st0, alert_text toFixed aurora_text t (forced_read (alert_snapshot w) st) st0
            = (Returned msg, st0)).
Proof.
  destruct (checkAlerts_run w st)
    as (st' & amsg & fmsg & evs & Hrun & Ha1 & Ha2 & Hf1 & Hf2 & Htr & Hlp & _ & _
        & Hhttp & Htext).
  erewrite added_eq by (erewrite exec_run by exact Hrun; exact Htr).
  unfold alerts_sent, alert_requests. rewrite Hlp, Hhttp, !List.filter_app.
  destruct t; [exists amsg|exists fmsg]; (split; [done|]);
    (split; [|split; [|exact (Htext _)]]);
    destruct (fires TopicAurora w st), (fires TopicFlare w st), (push_sent cfg);
    cbn [andb];
    rewrite ?(filter_alert_all _ amsg), ?(filter_alert_all _ fmsg),
      ?(filter_alert_none _ amsg), ?(filter_alert_none _ fmsg),
      ?(filter_request_all _ amsg), ?(filter_request_all _ fmsg),
      ?(filter_request_none _ amsg), ?(filter_request_none _ fmsg) by done;
    cbn [List.filter]; by rewrite ?app_nil_r.
Qed.

Lemma fires_spec t w st :
  fires t w st = true ↔
  crossed t (forced_read (alert_snapshot w) st) = true ∧
  alert_now w - last_alert t (lastAlerts st) > ALERT_COOLDOWN ∧
  topic_subscribers t w st ≠ [].
Proof.
  unfold fires, cooled_down. rewrite !andb_true_iff, Z.gtb_gt, Nat.ltb_lt.
  destruct (topic_subscribers t w st); cbn [length]; split.
  - intros (_ & ?). lia.
  - by intros (_ & _ & ?).
  - intros ((? & ?) & _). split_and!; [done|lia|done].
  - intros (? & ? & _). split_and!; [done|lia|lia].
Qed.


Lemma dispatches_fires t w st :
  dispatches toFixed aurora_text cfg t w st ↔ fires t w st = true.
Proof.
  unfold dispatches.
  destruct (checkAlerts_alerts w st t) as (msg & _ & -> & _).
  destruct (fires t w st) eqn:Hf; [|done].
  apply fires_spec in Hf as (_ & _ & Hsubs).
  split; [done|]. intros _. by destruct (topic_subscribers t w st).
Qed.

(** The recorded time of a topic never goes back. *)
Lemma run_checks_last_alert t ws :
  ∀ i st,
    last_alert t (lastAlerts st)
    ≤ last_alert t (lastAlerts
        (exec (for_each_from i ws (λ _ w, checkAlerts toFixed aurora_text cfg w)) st)).
Proof.
  induction ws as [|w ws IH]; intros i st; [done|].
  destruct (checkAlerts_run w st) as (st1 & _ & _ & _ & Hrun & _ & _ & _ & _ & _ & _ & Hla & _).
  cbn [for_each_from]. unfold exec. erewrite bind_run by exact Hrun.
  etrans; [|apply (IH (S i) st1)].
  rewrite Hla. destruct (fires t w st) eqn:Hf; [|done].
  apply fires_spec in Hf as (_ & Hcool & _). unfold ALERT_COOLDOWN in Hcool. lia.
Qed.

(** ** The claims about alerting *)



(** Checks that run one after the other respect the cooldown: after a
    check that sends an alert of a topic at time [t1], no later check whose
    time is at most [t1] plus one hour sends an alert of that topic, however
    many checks run in between and whatever they see.  Nothing re-arms the
    topic: a later check sends exactly when the threshold is crossed, the
    topic has a subscriber and its own time exceeds the recorded time of the
    last alert by more than one hour. *)
Lemma sequential_checks_respect_cooldown (t : topic) (st : State) (w1 : AlertWorld)
    (between : list AlertWorld) (w2 : AlertWorld) :
  let st1 := exec (checkAlerts toFixed aurora_text cfg w1) st in
  let st2 := exec (run_checks toFixed aurora_text cfg between) st1 in
  dispatches toFixed aurora_text cfg t w1 st →
  last_alert t (lastAlerts st1) = alert_now w1 ∧
  (alert_now w2 ≤ alert_now w1 + ALERT_COOLDOWN →
     ¬ dispatches toFixed aurora_text cfg t w2 st2) ∧
  (dispatches toFixed aurora_text cfg t w2 st2 ↔
     crossed t (forced_read (alert_snapshot w2) st2) = true ∧
     alert_now w2 - last_alert t (lastAlerts st2) > ALERT_COOLDOWN ∧
     topic_subscribers t w2 st2 ≠ []).
Proof.
  intros st1 st2 Hd%dispatches_fires.
  assert (Hla1 : last_alert t (lastAlerts st1) = alert_now w1).
  { subst st1.
    destruct (checkAlerts_run w1 st)
      as (st' & _ & _ & _ & Hrun & _ & _ & _ & _ & _ & _ & Hla & _).
    erewrite exec_run by exact Hrun. by rewrite Hla, Hd. }
  split; [done|]. split.
  - intros Hwin Hd2%dispatches_fires%fires_spec.
    destruct Hd2 as (_ & Hcool & _).
    pose proof (run_checks_last_alert t between 0 st1) as Hmono.
    fold (for_each between (λ _ w, checkAlerts toFixed aurora_text cfg w)) in Hmono.
    fold (run_checks toFixed aurora_text cfg between) in Hmono. fold st2 in Hmono.
    lia.
  - rewrite dispatches_fires. apply fires_spec.
Qed.

End AlertChecks.

(** ** Calls cut at their [await]s, run alone *)

Lemma eq_bind {A B} (m m' : M A) (f g : A → M B) st :
  m st = m' st → (∀ a st', f a st' = g a st') → (m ≫= f) st = (m' ≫= g) st.
Proof.
  intros Hm Hf. unfold mbind, M_bind. rewrite Hm.
  destruct (m' st) as [[a|e] st']; [apply Hf|done].
Qed.

Lemma alone_bind {A B} (p : Async A) (f : A → Async B) :
  ∀ st, alone (p ≫= f) st = (alone p ≫= λ a, alone (f a)) st.
Proof.
  induction p as [a|e|C m k IH|k IH]; intros st.
  - reflexivity.
  - reflexivity.
  - change (alone (Eff m k ≫= f)) with (m ≫= λ b, alone (k b ≫= f)).
    change (alone (Eff m k)) with (m ≫= λ b, alone (k b)).
    unfold mbind at 1 3 4, M_bind.
    destruct (m st) as [[b|e] st']; [apply IH|reflexivity].
  - apply IH.
Qed.

Lemma alone_awaiting {A} (callee : M A) : ∀ st, alone (awaiting callee) st = callee st.
Proof.
  intros st. unfold awaiting. cbn [alone]. unfold mbind, M_bind, mret, M_ret.
  by destruct (callee st) as [[a|e] st'].
Qed.

Lemma alone_lift {A} (m : M A) : ∀ st, alone (lift m) st = m st.
Proof.
  intros st. unfold lift. cbn [alone]. unfold mbind, M_bind, mret, M_ret.
  by destruct (m st) as [[a|e] st'].
Qed.

Lemma alone_catch {A} (p : Async A) (h : string → Async A) :
  ∀ st, alone (catch p h) st = try_catch (alone p) (λ e, alone (h e)) st.
Proof.
  induction p as [a|e|C m k IH|k IH]; intros st.
  - reflexivity.
  - reflexivity.
  - cbn [catch alone]. unfold try_catch, mbind, M_bind.
    destruct (m st) as [[b|e] st']; [apply IH|reflexivity].
  - apply IH.
Qed.

Lemma alone_pushes cfg (push : nat → PushWorld) (msg : string) (xs : list Subscriber) :
  ∀ i st,
    alone (afor_each_from i xs (λ i user,
             awaiting (linePush cfg (push i) (userId user) (Text msg)) ;; mret tt)) st
    = for_each_from i xs (λ i user,
        linePush cfg (push i) (userId user) (Text msg) ;; mret tt) st.
Proof.
  induction xs as [|x xs IH]; intros i st; [done|].
  cbn [afor_each_from for_each_from].
  rewrite alone_bind. apply eq_bind; [|intros; apply IH].
  rewrite alone_bind. apply eq_bind; [apply alone_awaiting|done].
Qed.

Section Alone.

Variable toFixed : nat → Q → string.
Variable aurora_text : Snapshot → string.
Variable cfg : Config.

Lemma alone_alert_block t c read push compose now :
  ∀ st, alone (alert_block_async cfg t c read push compose now) st
        = alert_block cfg t c read push compose now st.
Proof.
  intros st. unfold alert_block_async, alert_block.
  rewrite alone_bind. apply eq_bind; [apply alone_lift|]. intros st0 st'.
  destruct (c && _); [|done].
  rewrite alone_bind. apply eq_bind; [apply alone_awaiting|]. intros subs st1.
  destruct (0 <? _)%nat; [|done].
  rewrite alone_bind. apply eq_bind; [apply alone_lift|]. intros msg st2.
  rewrite alone_bind. apply eq_bind; [apply alone_pushes|]. intros [] st3.
  apply alone_lift.
Qed.

(** The check cut at its [await]s and run alone is [checkAlerts]. *)
Lemma alone_checkAlerts w :
  ∀ st, alone (checkAlerts_async toFixed aurora_text cfg w) st
        = checkAlerts toFixed aurora_text cfg w st.
Proof.
  intros st. rewrite checkAlerts_blocks. unfold checkAlerts_async.
  rewrite alone_bind. apply eq_bind; [apply alone_awaiting|]. intros o st1.
  rewrite alone_bind. apply eq_bind; [apply alone_alert_block|]. intros [] st2.
  apply alone_alert_block.
Qed.

End Alone.

Lemma eq_try_catch {A} (m m' : M A) (h h' : string → M A) st :
  m st = m' st → (∀ e st', h e st' = h' e st') →
  try_catch m h st = try_catch m' h' st.
Proof.
  intros Hm Hh. unfold try_catch. rewrite Hm.
  destruct (m' st) as [[a|e] st']; [done|apply Hh].
Qed.

(** The subscribe cut at its [await]s and run alone is [addSubscription]. *)
Lemma alone_addSubscription w userId type name pushTime :
  ∀ st, alone (addSubscription_async w userId type name pushTime) st
        = addSubscription w userId type name pushTime st.
Proof.
  intros st. unfold addSubscription_async, addSubscription.
  rewrite alone_bind. apply eq_bind; [apply alone_lift|]. intros st0 st'.
  destruct (doc st0); [|done].
  rewrite alone_catch. apply eq_try_catch.
  - rewrite alone_bind. apply eq_bind; [apply alone_awaiting|].
    intros rows st2. destruct (list_find _ rows) as [[i existing]|]; cbn zeta;
      rewrite alone_bind; (apply eq_bind; [apply alone_awaiting|done]).
  - intros e st1. rewrite alone_bind. apply eq_bind; [apply alone_lift|done].
Qed.

Section AlertClaims.

Variable toFixed : nat → Q → string.
Variable cfg : Config.


End AlertClaims.


(** ** The claim about the delivery log *)

(** What a call of [linePush] leaves in the delivery log. *)
Lemma linePush_log (cfg : Config) (w : PushWorld)
    (userId : string) (messages : payload) (st : State) :
  delivery_log (exec (linePush cfg w userId messages) st)
    = delivery_log st ++
      (if push_accepted cfg w && log_writable w st
       then [delivery_record w userId (msgArray messages)] else []).
Proof.
  unfold linePush, push_accepted, push_sent, log_writable, record_push, delivery_log.
    run.
    destruct (JS.is_set _); cbn [negb andb fst snd]; st_simpl; [|by rewrite app_nil_r].
    destruct (push_response w) as [[|]|e]; cbn [negb andb fst snd]; st_simpl;
      [|destruct (push_error w); cbn [fst snd]; st_simpl; by rewrite app_nil_r
       |by rewrite app_nil_r].
    destruct (doc st) as [d|] eqn:Hd; cbn [fst snd]; st_simpl; rewrite ?Hd; [|done].
    destruct (sheet_pushLog d) as [rows|] eqn:Hs; cbn [fst snd]; st_simpl;
      rewrite ?Hd, ?Hs; [|done].
    destruct (push_log_write w) eqn:Hw; cbn [fst snd]; st_simpl; rewrite ?Hd, ?Hs; cbn.
  - by rewrite app_nil_r.
  - done.
Qed.

(** C7, as the code has it.  A call of [linePush] sends at most one push
    request, and it appends a Delivery Record only for a push that LINE
    accepted, and then exactly one, with status 成功, type [push] and the
    time of the call, provided the spreadsheet is connected, has the 推播紀錄
    sheet, and takes the row.  A push that was refused or failed, and a call
    without an access token, leave the delivery log as it was. *)
Theorem linePush_records_accepted_pushes (cfg : Config) (w : PushWorld)
    (userId : string) (messages : payload) (st : State) :
  let st' := exec (linePush cfg w userId messages) st in
  http_pushes (added (linePush cfg w userId messages) st)
    = (if push_sent cfg then [(userId, JS.slice0 5 (msgArray messages))] else []) ∧
  ∃ rows,
    delivery_log st' = delivery_log st ++ rows ∧
    length rows = (if push_accepted cfg w && log_writable w st then 1 else 0)%nat ∧
    Forall (λ row, log_status row = "成功" ∧ log_type row = "push" ∧
                   log_time row = push_log_time w) rows.
Proof.
  intros st'. subst st'. split; [apply linePush_trace|].
  eexists. split; [apply linePush_log|].
  destruct (push_accepted cfg w && log_writable w st); [|by split; [|constructor]].
  split; [done|]. by repeat constructor.
Qed.

(** ** The claim about the webhook *)

Section Webhook.

Variable hmac_sha256_base64 : string → string → string.
Variable handleTextMessage handleFollow handleUnfollow : WebhookEvent → M unit.
Variable cfg : Config.

Lemma handled_returns event st :
  ∃ st', handled handleTextMessage handleFollow handleUnfollow event st = (Returned tt, st').
Proof.
  unfold handled, try_catch.
  destruct (handle_event _ _ _ event st) as [[[]|e] st1]; [eauto|].
  unfold emit, modify. eauto.
Qed.

Lemma event_loop_run (events : list WebhookEvent) :
  ∀ i st,
    for_each_from i events (λ _ event,
      try_catch (handle_event handleTextMessage handleFollow handleUnfollow event)
                (λ msg, emit (EvError "❌ [LINE] 處理事件錯誤:" msg))) st
    = (Returned tt,
       foldl (λ st event,
                exec (handled handleTextMessage handleFollow handleUnfollow event) st)
             st events).
Proof.
  induction events as [|event events IH]; intros i st; [done|].
  cbn [for_each_from foldl].
  destruct (handled_returns event st) as [st1 Hrun].
  erewrite bind_run by exact Hrun. rewrite IH.
  by erewrite exec_run by exact Hrun.
Qed.

(** What the webhook does with a request that is past the token check and
    the signature gate. *)
Lemma webhook_gate req st :
  JS.is_set (LINE_CHANNEL_ACCESS_TOKEN cfg) = true →
  signature_accepted hmac_sha256_base64 cfg req →
  webhook hmac_sha256_base64 handleTextMessage handleFollow handleUnfollow cfg req st
  = match req_body_events req with
    | EventsOther => (Threw "events is not iterable", st)
    | _ =>
        (Returned {| status := 200; body := "OK" |},
         foldl (λ st event,
                  exec (handled handleTextMessage handleFollow handleUnfollow event) st)
               st (default [] (req_events req)))
    end.
Proof.
  intros Htoken Hsig. unfold webhook. rewrite Htoken. cbn [negb].
  assert (Hloop : ∀ st0,
    (events ← match req_body_events req with
              | EventsAbsent => mret []
              | EventsArray l => mret l
              | EventsOther => throw "events is not iterable"
              end;
     for_each events (λ _ event,
       try_catch (handle_event handleTextMessage handleFollow handleUnfollow event)
                 (λ msg, emit (EvError "❌ [LINE] 處理事件錯誤:" msg))) ;;
     mret {| status := 200; body := "OK" |}) st0
    = match req_body_events req with
      | EventsOther => (Threw "events is not iterable", st0)
      | _ =>
          (Returned {| status := 200; body := "OK" |},
           foldl (λ st event,
                    exec (handled handleTextMessage handleFollow handleUnfollow event) st)
                 st0 (default [] (req_events req)))
      end).
  { intros st0. unfold req_events.
    destruct (req_body_events req) as [|l|]; [| |reflexivity];
      erewrite bind_run by reflexivity; unfold for_each;
      by erewrite bind_run by apply event_loop_run. }
  destruct Hsig as [Hno|(secret & raw & Hsec & Hraw & Hsig)].
  - rewrite Hno. erewrite bind_run by reflexivity. apply Hloop.
  - destruct (JS.is_set (LINE_CHANNEL_SECRET cfg)) eqn:Hset.
    + erewrite bind_run.
      2:{ erewrite bind_run; [reflexivity|].
          unfold validateLineSignature. rewrite Hsec, Hraw, Hsig.
          rewrite Hsec in Hset. cbn in Hset. rewrite Hset. cbn [negb].
          reflexivity. }
      rewrite bool_decide_eq_true_2 by done. apply Hloop.
    + erewrite bind_run by reflexivity. apply Hloop.
Qed.

(** The event loop, event by event: a handler that throws costs one logged
    line, and the next event starts from the state it left. *)
Lemma event_loop_states events st :
  foldl (λ st event,
           exec (handled handleTextMessage handleFollow handleUnfollow event) st)
        st events
  = foldl (λ st event,
             match handle_event handleTextMessage handleFollow handleUnfollow event st with
             | (Returned _, st') => st'
             | (Threw e, st') => with_event (EvError "❌ [LINE] 處理事件錯誤:" e) st'
             end)
          st events.
Proof.
  revert st. induction events as [|event events IH]; intros st; [done|].
  cbn [foldl]. rewrite IH. f_equal.
  unfold handled, exec, try_catch.
  by destruct (handle_event _ _ _ event st) as [[[]|e] st1].
Qed.

(** C9, as the code has it.  Without a channel secret the signature check
    answers [true] for every body and signature, absent ones included, and
    the webhook never consults it.  What happens to the request then depends
    on the access token.  With a token, a request whose [events] are an
    array, or absent, is answered 200 [OK] whatever its handlers do, after
    every event was handled in order, each inside its own [try]; a request
    whose [events] are neither makes the webhook throw before it handles
    anything or answers.  Without a token the webhook answers 200 at once
    and handles no event. *)
Theorem webhook_without_secret :
  JS.is_set (LINE_CHANNEL_SECRET cfg) = false →
  (∀ body signature st,
     validateLineSignature hmac_sha256_base64 cfg body signature st
     = (Returned true, st)) ∧
  (∀ req st,
     JS.is_set (LINE_CHANNEL_ACCESS_TOKEN cfg) = true →
     let step (st : State) (event : WebhookEvent) : State :=
       match handle_event handleTextMessage handleFollow handleUnfollow event st with
       | (Returned _, st') => st'
       | (Threw e, st') => with_event (EvError "❌ [LINE] 處理事件錯誤:" e) st'
       end in
     webhook hmac_sha256_base64 handleTextMessage handleFollow handleUnfollow cfg req st
     = match req_body_events req with
       | EventsArray events =>
           (Returned {| status := 200; body := "OK" |}, foldl step st events)
       | EventsAbsent => (Returned {| status := 200; body := "OK" |}, st)
       | EventsOther => (Threw "events is not iterable", st)
       end) ∧
  (∀ req st,
     JS.is_set (LINE_CHANNEL_ACCESS_TOKEN cfg) = false →
     webhook hmac_sha256_base64 handleTextMessage handleFollow handleUnfollow cfg req st
     = (Returned {| status := 200; body := "OK (no token configured)" |},
        with_event (EvError "❌ [LINE] LINE_CHANNEL_ACCESS_TOKEN 未設定！無法回覆訊息" EmptyString) st)).
Proof.
  intros Hsecret. split_and!.
  - intros body signature st. unfold validateLineSignature.
    destruct (LINE_CHANNEL_SECRET cfg) as [secret|]; [|done].
    cbn [JS.is_set] in Hsecret. by rewrite Hsecret.
  - intros req st Htoken step. rewrite webhook_gate by (done || by left).
    unfold req_events. destruct (req_body_events req) as [|events|]; [done| |done].
    cbn [default from_option id]. by rewrite event_loop_states.
  - intros req st Htoken. unfold webhook. rewrite Htoken. reflexivity.
Qed.

End Webhook.

(** ** The claim about recording *)

Lemma append_row_run {R} (sheet : Doc → option (list R)) put f (row : M R) st d rows r :
  doc st = Some d → sheet d = Some rows → row st = (Returned r, st) →
  append_row sheet put f row st
  = match f with
    | None => (Returned tt, with_doc (Some (put (rows ++ [r]) d)) st)
    | Some msg => (Threw msg, st)
    end.
Proof.
  intros Hd Hs Hrow. unfold append_row.
  erewrite bind_run by reflexivity. rewrite Hd, Hs.
  erewrite bind_run by exact Hrow.
  destruct f as [msg|]; [done|].
  erewrite bind_run by reflexivity.
  unfold modify. by rewrite Hd, Hs.
Qed.

Lemma append_row_throw {R} (sheet : Doc → option (list R)) put f (row : M R) st d rows e :
  doc st = Some d → sheet d = Some rows → row st = (Threw e, st) →
  append_row sheet put f row st = (Threw e, st).
Proof.
  intros Hd Hs Hrow. unfold append_row.
  erewrite bind_run by reflexivity. rewrite Hd, Hs.
  by erewrite bind_throw by exact Hrow.
Qed.

Section Recording.

Variable toFixed : nat → Q → string.

(** C8, as the code has it.  With the spreadsheet connected and a snapshot
    at hand, the pass attempts the four category writes in the order solar
    wind, Kp, satellite position, radiation, all inside one [try] block.
    A category whose sub-record is absent (the satellite position) is
    skipped silently and the pass goes on.  The first write that fails
    (the spreadsheet refuses the row, or a number of the position is
    missing) is logged once and ends the pass: the categories before it
    have their row, that one and the ones after it do not, and the pass
    prints one line under 記錄錯誤.  The pass itself always returns. *)
Theorem recordData_stops_at_first_failure (w : RecordWorld) (st : State)
    (r : Readings) :
  history_ready st →
  snap_upstream (rec_snapshot w) = Returned r →
  let pass := recordData toFixed w in
  let st' := exec pass st in
  let solar := accepted (rec_solarWind_write w) in
  let kp := solar && accepted (rec_kp_write w) in
  let position :=
    kp && match r_iss r with
          | Some i => iss_complete i && accepted (rec_iss_write w)
          | None => true
          end in
  let radiation := position && accepted (rec_radiation_write w) in
  result pass st = Returned tt ∧
  length (rows_of sheet_solarWind st')
    = (length (rows_of sheet_solarWind st) + if solar then 1 else 0)%nat ∧
  length (rows_of sheet_kp st')
    = (length (rows_of sheet_kp st) + if kp then 1 else 0)%nat ∧
  length (rows_of sheet_iss st')
    = (length (rows_of sheet_iss st)
       + if position && bool_decide (is_Some (r_iss r)) then 1 else 0)%nat ∧
  length (rows_of sheet_radiation st')
    = (length (rows_of sheet_radiation st) + if radiation then 1 else 0)%nat ∧
  length (errors_with "記錄錯誤:" (added pass st)) = (if radiation then 0 else 1)%nat.
Proof.
  intros (d & Hd & [r1 H1] & [r2 H2] & [r3 H3] & [r4 H4]) Hup pass st' solar kp0 position radiation.
  subst pass st' solar kp0 position radiation.
  destruct (getSpaceWeather_resolved (rec_snapshot w) true st r (cache_hit_forced _ _) Hup)
    as (s & Hb & Hrun). cbn zeta in Hrun.
  destruct (build_snapshot_run r (snap_timestamp (rec_snapshot w)))
    as (s' & Hb' & _ & _ & _ & _ & _ & _ & _ & _ & Hiss).
  assert (s' = s) as -> by (specialize (Hb st); specialize (Hb' st); congruence).


  unfold errors_with, added, rows_of, accepted, result, exec.
  destruct (recordData toFixed w st) as [out stf] eqn:Hrec.
  unfold recordData in Hrec.
  erewrite bind_run in Hrec by reflexivity. rewrite Hd in Hrec.
  unfold try_catch in Hrec.
  erewrite bind_run in Hrec by exact Hrun.
  cbn [value data_solarWind data_kp data_iss data_proton data_magneticField data_electron] in Hrec.
  rewrite Hiss in Hrec. clear Hrun Hb Hb' Hiss Hup.
  destruct d as [s0 s1 s2 s3 s4 s5]. cbn in H1, H2, H3, H4. subst.
  destruct st as [dc c ct la n tr]. cbn in Hd. subst dc.
  destruct w as [now sw f1 f2 f3 f4].
  cbn [rec_now rec_snapshot rec_solarWind_write rec_kp_write rec_iss_write
       rec_radiation_write] in *.
  unfold append_row, num_toFixed in Hrec.
  destruct f1 as [e1|].
  { run. cbn in Hrec. injection Hrec as <- <-. cbn.
    rewrite <- ?app_assoc, drop_app_length. cbn. repeat split; lia. }
  destruct f2 as [e2|].
  { run. cbn in Hrec. injection Hrec as <- <-. cbn.
    rewrite <- ?app_assoc, drop_app_length. cbn. rewrite ?length_app. cbn.
    repeat split; lia. }
  destruct (r_iss r) as [[[lat|] [lon|] [alt|] [vel|] loc]|];
    cbn [iss_lat iss_lon iss_altitude iss_velocity iss_location iss_complete] in *;
    destruct f3 as [e3|]; destruct f4 as [e4|];
    run; cbn in Hrec; injection Hrec as <- <-; cbn;
    rewrite <- ?app_assoc, ?drop_app_length; cbn; rewrite ?length_app; cbn;
    repeat split; lia.
Qed.

(** On the failure sentinel every sub-record is absent: the pass skips all
    four categories and logs nothing of its own. *)
Lemma recordData_skips_absent_records (w : RecordWorld) (st : State) (msg : string) :
  is_Some (doc st) →
  snap_upstream (rec_snapshot w) = Threw msg →
  let pass := recordData toFixed w in
  result pass st = Returned tt ∧
  doc (exec pass st) = doc st ∧
  errors (added pass st) = [("綜合數據錯誤:", msg)].
Proof.
  intros [d Hd] Hup pass. subst pass.
  pose proof (getSpaceWeather_rejected (rec_snapshot w) true st msg
                (cache_hit_forced _ _) Hup) as Hrun.
  assert (Hrec : recordData toFixed w st
                 = (Returned tt,
                    with_next_oid (S (next_oid st))
                      (with_event (EvError "綜合數據錯誤:" msg)
                         (with_event EvUpstream st)))).
  { unfold recordData. erewrite bind_run by reflexivity. rewrite Hd.
    erewrite try_catch_run; [reflexivity|].
    erewrite bind_run by exact Hrun. reflexivity. }
  erewrite result_run by exact Hrec.
  erewrite added_eq
    by (erewrite exec_run by exact Hrec; st_simpl; rewrite <- app_assoc; reflexivity).
  by erewrite exec_run by exact Hrec.
Qed.

End Recording.

(** ** The claim about scheduled delivery *)

Lemma clock_label_facts (h m : nat) :
  (h < 100)%nat → (m < 60)%nat →
  JS.endsWith (clock_label h m) ":00" = (m =? 0)%nat ∧
  JS.split_head ":" (clock_label h m) +:+ ":00" = clock_label h 0.
Proof.
  intros Hh Hm.
  assert (Hall : Forall (λ h, Forall (λ m,
            JS.endsWith (clock_label h m) ":00" = (m =? 0)%nat ∧
            JS.split_head ":" (clock_label h m) +:+ ":00" = clock_label h 0)
            (seq 0 60)) (seq 0 100)).
  { eapply bool_decide_unpack. vm_compute. exact I. }
  rewrite Forall_forall in Hall. specialize (Hall h).
  rewrite Forall_forall in Hall. apply Hall; apply elem_of_seq; lia.
Qed.

(** The subscribers a tick reads are the active rows of the topic when the
    sheet can be read, and nobody when it cannot. *)
Lemma active_subscribers_stored read type st :
  active_subscribers read type st
  = if decide (read = None)
    then (λ row, {| userId := sub_userId row; pushTime := sub_pushTime row |})
         <$> filter (λ row, sub_type row = type ∧ sub_status row = ENABLED)
               (subscriptions st)
    else [].
Proof.
  unfold active_subscribers, subscriptions.
  destruct (doc st ≫= sheet_subscriptions) as [rows|]; cbn;
    destruct read; by rewrite ?decide_True, ?decide_False by done.
Qed.

Section Daily.

Variable report_text : string → Snapshot → string.
Variable cfg : Config.

Lemma dailyPush_off_hour w st :
  JS.endsWith (daily_currentTime w) ":00" = false →
  dailyPush report_text cfg w st = (Returned tt, st).
Proof. intros H. unfold dailyPush. by rewrite H. Qed.

Lemma dailyPush_on_hour w st :
  JS.endsWith (daily_currentTime w) ":00" = true →
  let hour := JS.split_head ":" (daily_currentTime w) +:+ ":00" in
  let targets := filter (λ s, pushTime s = hour)
                   (active_subscribers (daily_read w) "daily" st) in
  (targets = [] → dailyPush report_text cfg w st = (Returned tt, st)) ∧
  (targets ≠ [] →
   ∃ o st' evs,
     dailyPush report_text cfg w st = (o, st') ∧
     trace st' = trace st ++ EvUpstream :: evs ∧
     upstream_fetches evs = 0%nat ∧
     match snap_upstream (daily_snapshot w) with
     | Returned r =>
         o = Returned tt ∧
         ∃ s, (∀ st0, build_snapshot r (snap_timestamp (daily_snapshot w)) st0
                      = (Returned s, st0)) ∧
              let report := report_text (daily_report_time w) s in
              line_pushes evs = (λ u, (userId u, Text report)) <$> targets ∧
              http_pushes evs
              = (if push_sent cfg
                 then (λ u, (userId u, [text_message report])) <$> targets else [])
     | Threw _ =>
         o = Threw "Cannot read properties of undefined (reading 'kp')" ∧
         line_pushes evs = [] ∧ http_pushes evs = []
     end).
Proof.
  intros H hour targets. unfold dailyPush. rewrite H. cbn [negb].
  erewrite bind_run by apply getSubscribersByType_run.
  fold hour. fold targets. split.
  - by intros ->.
  - intros Hne. destruct targets as [|u us] eqn:Ht; [done|]. cbn [length Nat.eqb].
    rewrite <- Ht. clear Hne.
    destruct (snap_upstream (daily_snapshot w)) as [r|msg] eqn:Hup.
    + destruct (getSpaceWeather_resolved (daily_snapshot w) true st r
                  (cache_hit_forced _ _) Hup) as (s & Hs & Hrun).
      cbn zeta in Hrun. erewrite bind_run by exact Hrun.
      cbn [value formatSpaceWeatherMessage].
      erewrite bind_run by reflexivity.
      set (report := report_text (daily_report_time w) s).
      set (st1 := with_cache _ _ _).
      destruct (push_loop cfg (daily_push w) (Text report) targets 0 st1)
        as (st' & evs & Hloop & _ & Htr & Hlp & Hupf).
      destruct (push_loop_requests cfg (daily_push w) (Text report) targets 0 st1)
        as (evs' & Htr' & Hhttp).
      erewrite exec_run in Htr' by exact Hloop.
      rewrite Htr in Htr'. apply app_inv_head in Htr'. subst evs'.
      eexists _, _, evs. split; [exact Hloop|].
      rewrite Htr. subst st1. st_simpl. rewrite <- app_assoc.
      split; [done|]. split; [done|]. split; [done|]. exists s. by split.
    + pose proof (getSpaceWeather_rejected (daily_snapshot w) true st msg
                    (cache_hit_forced _ _) Hup) as Hrun.
      erewrite bind_run by exact Hrun.
      cbn [value formatSpaceWeatherMessage].
      eexists _, _, [_]. split; [reflexivity|]. st_simpl.
      rewrite <- app_assoc. done.
Qed.

(** One tick at a local time [HH:MM]. *)
Lemma dailyPush_tick (w : DailyWorld) (st : State) (h m : nat) :
  (h < 100)%nat → (m < 60)%nat →
  daily_currentTime w = clock_label h m →
  let tick := dailyPush report_text cfg w in
  let targets := filter (λ s, pushTime s = clock_label h 0)
                   (active_subscribers (daily_read w) "daily" st) in
  (m ≠ 0%nat → tick st = (Returned tt, st)) ∧
  (m = 0%nat →
     upstream_fetches (added tick st) = (if decide (targets = []) then 0 else 1)%nat ∧
     (∀ c, c ∈ line_pushes (added tick st) → ∃ u, u ∈ targets ∧ c.1 = userId u) ∧
     (∀ c, c ∈ http_pushes (added tick st) → ∃ u, u ∈ targets ∧ c.1 = userId u) ∧
     (∀ r, snap_upstream (daily_snapshot w) = Returned r →
        result tick st = Returned tt ∧
        ∃ s, result (build_snapshot r (snap_timestamp (daily_snapshot w))) st
             = Returned s ∧
             let report := report_text (daily_report_time w) s in
             line_pushes (added tick st) = (λ u, (userId u, Text report)) <$> targets ∧
             http_pushes (added tick st)
             = (if push_sent cfg
                then (λ u, (userId u, [text_message report])) <$> targets else [])) ∧
     (∀ e, snap_upstream (daily_snapshot w) = Threw e →
        line_pushes (added tick st) = [] ∧ http_pushes (added tick st) = [])).
Proof.
  intros Hh Hm Hclock tick targets.
  destruct (clock_label_facts h m Hh Hm) as [Hends Hhour].
  rewrite <- Hclock in Hends, Hhour. subst tick. split.
  - intros Hne. apply dailyPush_off_hour. rewrite Hends.
    by apply Nat.eqb_neq.
  - intros ->. cbn in Hends.
    destruct (dailyPush_on_hour w st Hends) as [Hnone Hsome].
    rewrite Hhour in Hnone, Hsome. fold targets in Hnone, Hsome.
    destruct (decide (targets = [])) as [Hnil|Hne].
    + specialize (Hnone Hnil). unfold added. erewrite result_run, exec_run by exact Hnone.
      rewrite drop_all, Hnil.
      change (line_pushes []) with (@nil (string * payload)).
      change (http_pushes []) with (@nil (string * list message)).
      split; [done|].
      split; [intros c Hc; by apply elem_of_nil in Hc|].
      split; [intros c Hc; by apply elem_of_nil in Hc|].
      split; [|done]. intros r Hr. split; [done|].
      destruct (build_snapshot_run r (snap_timestamp (daily_snapshot w))) as (s & Hs & _).
      exists s. unfold result. rewrite Hs. split; [done|]. by destruct (push_sent cfg).
    + destruct (Hsome Hne) as (o & st' & evs & Hrun & Htr & Hupf & Hcase).
      erewrite result_run by exact Hrun.
      erewrite added_eq by (erewrite exec_run by exact Hrun; exact Htr).
      change (EvUpstream :: evs) with ([EvUpstream] ++ evs).
      rewrite upstream_fetches_app, line_pushes_app, http_pushes_app, Hupf. cbn [app].
      change (line_pushes [EvUpstream]) with (@nil (string * payload)).
      change (http_pushes [EvUpstream]) with (@nil (string * list message)). cbn [app].
      split; [done|].
      destruct (snap_upstream (daily_snapshot w)) as [r|msg].
      * destruct Hcase as (-> & s & Hs & Hlp & Hhttp). cbn zeta in Hlp, Hhttp.
        rewrite Hlp, Hhttp. split_and!.
        -- intros c (u & -> & Hu)%list_elem_of_fmap. eauto.
        -- destruct (push_sent cfg); [|intros c Hc; by apply elem_of_nil in Hc].
           intros c (u & -> & Hu)%list_elem_of_fmap. eauto.
        -- intros r' [= <-]. split; [done|]. exists s. unfold result.
           by rewrite Hs.
        -- done.
      * destruct Hcase as (-> & Hlp & Hhttp). rewrite Hlp, Hhttp. split_and!.
        -- intros c Hc. by apply elem_of_nil in Hc.
        -- intros c Hc. by apply elem_of_nil in Hc.
        -- done.
        -- done.
Qed.

End Daily.

Section DailyClaim.

Variable toFixed : nat → Q → string.
Variable cfg : Config.

(** C6, as the code has it.  A tick whose local time is [HH:MM] with [MM]
    other than [00] does nothing at all: the state, trace included, is
    unchanged.  A tick at [HH:00] works on the active daily-report
    subscribers with the schedule [HH:00] that the read of the sheet
    returns: the rows of the sheet when it can be read, nobody when it
    cannot.  It fetches the readings (a forced refresh) exactly when there
    is such a subscriber, and then calls [linePush] with the report --
    [formatSpaceWeatherMessage] of the snapshot just built -- once for each
    of them, in the order of the sheet, and for no one else; each call sends
    one push request with that text when the access token is set, and none
    when it is not.  When the snapshot cannot be built nothing is pushed. *)
Theorem dailyPush_on_the_hour_only (w : DailyWorld) (st : State) (h m : nat) :
  (h < 100)%nat → (m < 60)%nat →
  daily_currentTime w = clock_label h m →
  let tick := dailyPush (space_weather_report toFixed) cfg w in
  let targets := filter (λ s, pushTime s = clock_label h 0)
                   (active_subscribers (daily_read w) "daily" st) in
  active_subscribers (daily_read w) "daily" st
    = (if decide (daily_read w = None)
       then (λ row, {| userId := sub_userId row; pushTime := sub_pushTime row |})
            <$> filter (λ row, sub_type row = "daily" ∧ sub_status row = ENABLED)
                  (subscriptions st)
       else []) ∧
  (m ≠ 0%nat → tick st = (Returned tt, st)) ∧
  (m = 0%nat →
     upstream_fetches (added tick st) = (if decide (targets = []) then 0 else 1)%nat ∧
     (∀ c, c ∈ line_pushes (added tick st) → ∃ u, u ∈ targets ∧ c.1 = userId u) ∧
     (∀ c, c ∈ http_pushes (added tick st) → ∃ u, u ∈ targets ∧ c.1 = userId u) ∧
     (∀ r, snap_upstream (daily_snapshot w) = Returned r →
        result tick st = Returned tt ∧
        ∃ s, result (build_snapshot r (snap_timestamp (daily_snapshot w))) st
             = Returned s ∧
             let report := space_weather_report toFixed (daily_report_time w) s in
             line_pushes (added tick st) = (λ u, (userId u, Text report)) <$> targets ∧
             http_pushes (added tick st)
             = (if push_sent cfg
                then (λ u, (userId u, [text_message report])) <$> targets else [])) ∧
     (∀ e, snap_upstream (daily_snapshot w) = Threw e →
        line_pushes (added tick st) = [] ∧ http_pushes (added tick st) = [])).
Proof.
  intros Hh Hm Hclock tick targets.
  split; [apply active_subscribers_stored|].
  by apply dailyPush_tick.
Qed.

End DailyClaim.

(** ** The claim about subscriptions *)

Lemma filter_none {A} (P : A → Prop) `{!∀ x, Decision (P x)} (l : list A) :
  Forall (λ x, ¬ P x) l → filter P l = [].
Proof.
  induction 1 as [|x l Hx _ IH]; [done|]. by rewrite filter_cons_False.
Qed.

Section Upsert.

Variable userId type : string.

Lemma matches_key (row : SubRow) :
  (sub_userId row = userId ∧ sub_type row = type) ↔ key row = (userId, type).
Proof. unfold key. split; [by intros [-> ->]|by intros [= -> ->]]. Qed.

Lemma upsert_spec name time pushTime rows :
  unique_keys rows →
  let rows' := upsert userId type name time pushTime rows in
  unique_keys rows' ∧
  (∃ r, records_of userId type rows' = [r] ∧
        sub_status r = ENABLED ∧
        sub_pushTime r = JS.or_str pushTime EmptyString) ∧
  length rows'
    = (length rows + if decide (records_of userId type rows = []) then 1 else 0)%nat.
Proof.
  intros Huniq rows'. subst rows'. unfold upsert, records_of.
  destruct (list_find _ rows) as [[i existing]|] eqn:Hfind.
  - apply list_find_Some in Hfind as (Hi & Hmatch & _).
    set (updated := set_status ENABLED (set_pushTime (JS.or_str pushTime EmptyString) existing)).
    assert (Hkey : key updated = key existing) by done.
    pose proof (lookup_lt_Some _ _ _ Hi) as Hlt.
    rewrite insert_take_drop by done.
    pose proof (take_drop_middle _ _ _ Hi) as Hsplit.
    unfold unique_keys in *. rewrite <- Hsplit in Huniq.
    rewrite fmap_app, fmap_cons in Huniq.
    apply NoDup_app in Huniq as (Hn1 & Hdisj & Hn2).
    apply NoDup_cons in Hn2 as (Hnotin & Hn2).
    assert (H1 : filter (λ row, sub_userId row = userId ∧ sub_type row = type)
                   (take i rows) = []).
    { apply filter_none, Forall_forall. intros row Hrow Hp%matches_key.
      apply (Hdisj (key row)); [by apply list_elem_of_fmap_2|].
      rewrite Hp. apply matches_key in Hmatch. rewrite <- Hmatch. left. }
    assert (H2 : filter (λ row, sub_userId row = userId ∧ sub_type row = type)
                   (drop (S i) rows) = []).
    { apply filter_none, Forall_forall. intros row Hrow Hp%matches_key.
      apply Hnotin. apply matches_key in Hmatch. rewrite Hmatch, <- Hp.
      by apply list_elem_of_fmap_2. }
    split_and!.
    + rewrite fmap_app, fmap_cons, Hkey.
      apply NoDup_app. split_and!; [done|done|by apply NoDup_cons].
    + exists updated.
      rewrite filter_app, filter_cons_True, H1, H2 by done. done.
    + rewrite decide_False.
      2:{ intros Hnil. eapply filter_nil_not_elem_of; [exact Hnil|exact Hmatch|].
          by eapply list_elem_of_lookup_2. }
      rewrite <- insert_take_drop, length_insert by done. lia.
  - apply list_find_None in Hfind.
    rewrite (filter_none _ rows Hfind). rewrite decide_True by done.
    split_and!.
    + unfold unique_keys in *. rewrite fmap_app. apply NoDup_app.
      split_and!; [done| |apply NoDup_singleton].
      intros k (row & -> & Hrow)%list_elem_of_fmap Hin.
      apply list_elem_of_singleton in Hin.
      rewrite Forall_forall in Hfind. apply (Hfind row Hrow).
      by apply matches_key.
    + eexists. rewrite filter_app, (filter_none _ rows Hfind).
      rewrite filter_cons_True by done. done.
    + rewrite length_app. cbn. lia.
Qed.

End Upsert.

Lemma addSubscription_ok w userId type name pushTime st d rows :
  doc st = Some d → sheet_subscriptions d = Some rows → sheet_ok w →
  ∃ reply,
    addSubscription w userId type name pushTime st
    = (Returned reply,
       with_doc (Some (with_subscriptions
                         (upsert userId type name (subscribe_time w) pushTime rows) d)) st)
    ∧ success reply = true.
Proof.
  intros Hd Hs [Hread Hwrite].
  unfold addSubscription, upsert, getRows, save, addRow, update_subscriptions.
  rewrite Hread, Hwrite. run.
  repeat (first [rewrite Hd|rewrite Hs]; cbn).
  destruct (list_find _ rows) as [[i existing]|];
    repeat (first [rewrite Hd|rewrite Hs]; cbn); eauto.
Qed.

Lemma store_ok_rows st :
  store_ok st →
  ∃ d rows, doc st = Some d ∧ sheet_subscriptions d = Some rows ∧
            subscriptions st = rows ∧ unique_keys rows.
Proof.
  intros [[rows Hrows] Huniq]. unfold subscriptions in *.
  destruct (doc st) as [d|] eqn:Hd; [|done]. cbn in *.
  exists d, rows. rewrite Hrows in Huniq. by rewrite Hrows.
Qed.

(** One subscribe that reaches the sheet. *)
Lemma addSubscription_step w userId type name pushTime st :
  store_ok st → sheet_ok w →
  ∃ reply st',
    addSubscription w userId type name pushTime st = (Returned reply, st') ∧
    success reply = true ∧
    store_ok st' ∧
    (∃ r, records_of userId type (subscriptions st') = [r] ∧
          sub_status r = ENABLED ∧
          sub_pushTime r = JS.or_str pushTime EmptyString) ∧
    length (subscriptions st')
      = (length (subscriptions st)
         + if decide (records_of userId type (subscriptions st) = []) then 1 else 0)%nat.
Proof.
  intros (d & rows & Hd & Hs & Hrows & Huniq)%store_ok_rows Hok.
  destruct (addSubscription_ok w userId type name pushTime st d rows Hd Hs Hok)
    as (reply & Hrun & Hsucc).
  destruct (upsert_spec userId type name (subscribe_time w) pushTime rows Huniq)
    as (Huniq' & Hrec & Hlen).
  eexists reply, _. split; [exact Hrun|]. split; [done|].
  unfold store_ok, subscriptions in *. st_simpl. cbn. rewrite Hd. cbn. rewrite Hs. cbn.
  split_and!; eauto.
Qed.

Lemma for_each_from_app {A} (xs ys : list A) (body : nat → A → M unit) :
  ∀ i st,
    for_each_from i (xs ++ ys) body st
    = (for_each_from i xs body ;; for_each_from (i + length xs) ys body) st.
Proof.
  induction xs as [|x xs IH]; intros i st.
  - cbn [app length for_each_from]. rewrite Nat.add_0_r. reflexivity.
  - cbn [app length for_each_from].
    destruct (body i x st) as [[[]|e] st1] eqn:Hb.
    + erewrite bind_run by exact Hb. rewrite IH.
      destruct (for_each_from (S i) xs body st1) as [[[]|e] st2] eqn:Hxs.
      * erewrite bind_run by exact Hxs.
        erewrite (bind_run (_ ≫= _)); [by rewrite Nat.add_succ_r|].
        by erewrite bind_run by exact Hb.
      * erewrite bind_throw by exact Hxs.
        erewrite (bind_throw (_ ≫= _)); [done|].
        by erewrite bind_run by exact Hb.
    + erewrite bind_throw by exact Hb.
      erewrite (bind_throw (_ ≫= _)); [done|].
      by erewrite bind_throw by exact Hb.
Qed.

(** A run of subscribes for one subscriber and topic, each reaching the
    sheet. *)
Lemma subscribe_all_run userId type (calls : list SubscribeCall) :
  ∀ i st,
    store_ok st → Forall (λ c, sheet_ok (call_world c)) calls →
    ∃ st',
      for_each_from i calls (λ _ c,
        addSubscription (call_world c) userId type (call_name c) (call_pushTime c) ;;
        mret tt) st = (Returned tt, st') ∧
      store_ok st' ∧
      (calls = [] → st' = st) ∧
      (calls ≠ [] →
         records_of userId type (subscriptions st') ≠ [] ∧
         length (subscriptions st')
         = (length (subscriptions st)
            + if decide (records_of userId type (subscriptions st) = []) then 1 else 0)%nat).
Proof.
  induction calls as [|c calls IH]; intros i st Hst Hok.
  - exists st. by split_and!.
  - apply Forall_cons in Hok as [Hc Hok].
    destruct (addSubscription_step (call_world c) userId type (call_name c)
                (call_pushTime c) st Hst Hc)
      as (reply & st1 & Hrun & _ & Hst1 & (r & Hrec & _) & Hlen).
    destruct (IH (S i) st1 Hst1 Hok) as (st2 & Hrun2 & Hst2 & Hnil & Hcons).
    exists st2. split.
    { cbn [for_each_from]. erewrite bind_run; [exact Hrun2|].
      erewrite bind_run by exact Hrun. reflexivity. }
    split; [done|]. split; [done|]. intros _.
    destruct calls as [|c' calls'].
    + rewrite (Hnil eq_refl), Hrec. done.
    + destruct Hcons as [Hne Hlen2]; [done|]. split; [done|].
      rewrite Hlen2, Hlen, Hrec. rewrite (decide_False (P := [r] = [])) by done. lia.
Qed.

(** C5, as the code has it.  Start from a connected sheet with at most one
    row per subscriber and topic, and let the subscribes run one after the
    other and every one of them reach the sheet.  After any such run of
    subscribes for one subscriber and topic, the sheet holds exactly one row
    for the pair; that row is active and carries the schedule of the latest
    subscribe ([null] is stored as the empty string).  The run adds one row
    when the pair had none and no row when it had one, and the sheet still
    has at most one row per pair. *)
Theorem resubscribe_updates_in_place (userId type : string)
    (calls : list SubscribeCall) (latest : SubscribeCall) (st : State) :
  store_ok st →
  Forall (λ c, sheet_ok (call_world c)) (calls ++ [latest]) →
  let run := subscribe_all userId type (calls ++ [latest]) in
  let rows' := subscriptions (exec run st) in
  result run st = Returned tt ∧
  (∃ r, records_of userId type rows' = [r] ∧
        active_records_of userId type rows' = [r] ∧
        sub_pushTime r = JS.or_str (call_pushTime latest) EmptyString) ∧
  length rows'
    = (length (subscriptions st)
       + if decide (records_of userId type (subscriptions st) = []) then 1 else 0)%nat ∧
  unique_keys rows'.
Proof.
  intros Hst Hok run rows'. subst run rows'.
  apply Forall_app in Hok as [Hcalls Hlatest].
  apply Forall_cons in Hlatest as [Hlatest _].
  destruct (subscribe_all_run userId type calls 0 st Hst Hcalls)
    as (st1 & Hrun1 & Hst1 & Hnil & Hcons).
  destruct (addSubscription_step (call_world latest) userId type (call_name latest)
              (call_pushTime latest) st1 Hst1 Hlatest)
    as (reply & st2 & Hrun2 & _ & Hst2 & (r & Hrec & Hactive & Htime) & Hlen).
  assert (Hrun : subscribe_all userId type (calls ++ [latest]) st = (Returned tt, st2)).
  { unfold subscribe_all, for_each. rewrite for_each_from_app.
    erewrite bind_run by exact Hrun1. cbn [for_each_from].
    erewrite bind_run; [reflexivity|]. erewrite bind_run by exact Hrun2. reflexivity. }
  erewrite result_run, exec_run by exact Hrun.
  split; [done|]. split.
  { exists r. split; [done|]. split; [|done].
    unfold active_records_of. rewrite Hrec. by rewrite filter_cons_True. }
  split; [|by destruct Hst2].
  rewrite Hlen. destruct calls as [|c calls'].
  - by rewrite (Hnil eq_refl).
  - destruct Hcons as [Hne Hlen1]; [done|].
    rewrite Hlen1. rewrite (decide_False (P := records_of _ _ (subscriptions st1) = []))
      by done. lia.
Qed.

(** [store_ok] is an invariant of the two operations that write the sheet,
    whatever the spreadsheet answers. *)

Lemma update_subscriptions_keys f st :
  is_Some (doc st ≫= sheet_subscriptions) →
  key <$> f (subscriptions st) = key <$> subscriptions st →
  is_Some (doc (update_subscriptions f st) ≫= sheet_subscriptions) ∧
  key <$> subscriptions (update_subscriptions f st) = key <$> subscriptions st.
Proof.
  intros [rows Hrows] Hkeys. unfold update_subscriptions, subscriptions in *.
  destruct (doc st) as [d|]; [|done]. cbn in *.
  destruct (sheet_subscriptions d); [|done]. cbn in *. split; [by eexists|done].
Qed.

Lemma addSubscription_keeps_store w userId type name pushTime st :
  store_ok st →
  store_ok (exec (addSubscription w userId type name pushTime) st).
Proof.
  intros Hst.
  destruct (store_ok_rows st Hst) as (d & rows & Hd & Hs & Hrows & Huniq).
  destruct (subscribe_read w) as [e|] eqn:Hread.
  { unfold addSubscription, getRows, exec. rewrite Hread. run.
    repeat (first [rewrite Hd|rewrite Hs]; cbn).
    unfold store_ok, subscriptions in *. by st_simpl. }
  destruct (subscribe_write w) as [e|] eqn:Hwrite.
  { unfold addSubscription, getRows, save, addRow, exec. rewrite Hread, Hwrite. run.
    repeat (first [rewrite Hd|rewrite Hs]; cbn).
    destruct (list_find _ rows) as [[i existing]|]; cbn;
      unfold store_ok, subscriptions in *; by st_simpl. }
  destruct (addSubscription_step w userId type name pushTime st Hst (conj Hread Hwrite))
    as (reply & st' & Hrun & _ & Hst' & _).
  by erewrite exec_run by exact Hrun.
Qed.

Lemma removeSubscription_loop w userId type (xs : list SubRow) :
  ∀ i st,
    is_Some (doc st ≫= sheet_subscriptions) →
    (∀ j row, xs !! j = Some row →
              (key <$> subscriptions st) !! (i + j)%nat = Some (key row)) →
    let st' := exec (for_each_from i xs (λ i row,
                 if bool_decide (sub_userId row = userId) then
                   if negb (JS.is_set type) || bool_decide (Some (sub_type row) = type)
                   then save (unsubscribe_save w i) i (set_status DISABLED row)
                   else mret tt
                 else mret tt)) st in
    is_Some (doc st' ≫= sheet_subscriptions) ∧
    key <$> subscriptions st' = key <$> subscriptions st ∧
    errors (trace st') = errors (trace st).
Proof.
  induction xs as [|x xs IH]; intros i st Hsome Hkeys; [done|].
  cbn zeta. cbn [for_each_from]. unfold exec.
  assert (Hx : (key <$> subscriptions st) !! i = Some (key x)).
  { specialize (Hkeys 0%nat x eq_refl). by rewrite Nat.add_0_r in Hkeys. }
  assert (Hrest : ∀ st1, key <$> subscriptions st1 = key <$> subscriptions st →
            ∀ j row, xs !! j = Some row →
              (key <$> subscriptions st1) !! (S i + j)%nat = Some (key row)).
  { intros st1 -> j row Hj. specialize (Hkeys (S j) row Hj).
    by rewrite Nat.add_succ_r in Hkeys. }
  assert (Hskip : ∀ P : State → Prop,
            P (exec (for_each_from (S i) xs (λ i row,
                 if bool_decide (sub_userId row = userId) then
                   if negb (JS.is_set type) || bool_decide (Some (sub_type row) = type)
                   then save (unsubscribe_save w i) i (set_status DISABLED row)
                   else mret tt
                 else mret tt)) st) →
            P ((mret tt ≫= λ _, for_each_from (S i) xs (λ i row,
                 if bool_decide (sub_userId row = userId) then
                   if negb (JS.is_set type) || bool_decide (Some (sub_type row) = type)
                   then save (unsubscribe_save w i) i (set_status DISABLED row)
                   else mret tt
                 else mret tt)) st).2) by done.
  destruct (bool_decide _); [|apply Hskip, IH; auto].
  destruct (_ || _); [|apply Hskip, IH; auto].
  unfold save. destruct (unsubscribe_save w i) as [e|]; [done|].
  erewrite bind_run by (erewrite bind_run by reflexivity; reflexivity).
  set (st1 := update_subscriptions _ st).
  destruct (update_subscriptions_keys
              (λ rows, <[i := set_status DISABLED x]> rows) st Hsome) as [Hsome1 Hkeys1].
  { rewrite list_fmap_insert. by apply list_insert_id. }
  fold st1 in Hsome1, Hkeys1.
  destruct (IH (S i) st1 Hsome1 (Hrest st1 Hkeys1)) as (? & Hk & Herr).
  unfold exec, save in Hk, Herr |- *.
  split; [done|]. split; [by rewrite Hk|]. rewrite Herr.
  subst st1. unfold update_subscriptions.
  destruct (doc st) as [d|]; [|done]. by destruct (sheet_subscriptions d).
Qed.

Lemma getRows_run f st rows :
  doc st ≫= sheet_subscriptions = Some rows →
  getRows f st = match f with
                 | None => (Returned rows, st)
                 | Some e => (Threw e, st)
                 end.
Proof.
  intros H. unfold getRows. erewrite bind_run by reflexivity. rewrite H.
  by destruct f.
Qed.

Lemma removeSubscription_keeps_store w userId type st :
  store_ok st →
  store_ok (exec (removeSubscription w userId type) st).
Proof.
  intros Hst.
  destruct (store_ok_rows st Hst) as (d & rows & Hd & Hs & Hrows & Huniq).
  assert (Hsheet : doc st ≫= sheet_subscriptions = Some rows) by by rewrite Hd.
  unfold removeSubscription, exec. erewrite bind_run by reflexivity. rewrite Hd.
  unfold try_catch.
  destruct (unsubscribe_read w) as [e|] eqn:Hread.
  { erewrite bind_throw; [exact Hst|]. by rewrite (getRows_run _ _ rows Hsheet). }
  erewrite bind_run by (rewrite (getRows_run _ _ rows Hsheet); reflexivity).
  destruct Hst as [Hsome _].
  pose proof (removeSubscription_loop w userId type rows 0 st Hsome) as Hloop.
  cbn zeta in Hloop. unfold exec, for_each in *.
  destruct Hloop as (Hsome' & Hkeys & _).
  { intros j row Hj. rewrite Hrows. cbn. by rewrite list_lookup_fmap, Hj. }
  destruct (for_each_from 0 rows _ st) as [[[]|e] st'] eqn:Hrun;
    erewrite ?bind_run, ?bind_throw by exact Hrun; cbn [fst snd] in *;
    (split; [done|]); unfold unique_keys;
    change (NoDup (key <$> subscriptions st')); rewrite Hkeys, Hrows; exact Huniq.
Qed.

(* ===================================================================== *)
(** * Concrete runs *)
(* ===================================================================== *)

(** A snapshot cached at [t0] serves the reads 10 and 59.999 seconds
    later. *)
Lemma getSpaceWeather_serves_from_cache_witness :
  ∃ cached,
    cachedSpaceWeather Sample.warm = Some cached ∧
    read_all [Sample.failing_world (Sample.t0 + 10000);
              Sample.failing_world (Sample.t0 + 59999)] Sample.warm
    = (Returned [cached; cached], Sample.warm).
Proof.
  eexists. split; [reflexivity|].
  apply (getSpaceWeather_serves_from_cache Sample.warm _
           [Sample.failing_world (Sample.t0 + 10000);
            Sample.failing_world (Sample.t0 + 59999)]).
  - reflexivity.
  - repeat constructor; vm_compute; reflexivity.
Defined.

(** The cache has expired and the fetch fails: the sentinel comes back and
    the cache is kept. *)
Lemma getSpaceWeather_failure_keeps_cache_witness :
  let w := Sample.failing_world (Sample.t0 + 60000) in
  result (getSpaceWeather w false) Sample.warm
    = Returned {| oid := 1; value := Failed "fetch failed" (snap_timestamp w) |} ∧
  cachedSpaceWeather (exec (getSpaceWeather w false) Sample.warm)
    = cachedSpaceWeather Sample.warm ∧
  cacheTime (exec (getSpaceWeather w false) Sample.warm) = Sample.t0.
Proof.
  apply (getSpaceWeather_failure_keeps_cache
           (Sample.failing_world (Sample.t0 + 60000)) false Sample.warm "fetch failed").
  - right. right. vm_compute. intros H. discriminate H.
  - reflexivity.
Defined.

(** With Kp 6 and an X2.5 flare the level is raised and there are
    messages. *)
Lemma alert_level_matches_messages_witness :
  ∃ o s,
    result (getSpaceWeather (Sample.snapshot_world Sample.t0 Sample.stormy) true)
      initial_state = Returned o ∧
    value o = Built s ∧
    alertLevel s = "severe" ∧
    (alertLevel s = "normal" ↔ alertMessages s = []).
Proof.
  eexists _, _. split; [reflexivity|]. split; [reflexivity|].
  split; [reflexivity|].
  eapply (alert_level_matches_messages
            (Sample.snapshot_world Sample.t0 Sample.stormy) true initial_state).
  - left. reflexivity.
  - reflexivity.
  - reflexivity.
Defined.

(** An aurora alert goes out at [t0]; a quiet check follows five minutes
    later; the check 59 minutes after the alert sees Kp 6 again and sends
    nothing. *)
Lemma sequential_checks_respect_cooldown_witness :
  let w1 := Scenario.check Sample.t0 Sample.stormy in
  let between := [Scenario.check (Sample.t0 + 5 * Scenario.minute) Sample.quiet] in
  let w2 := Scenario.check (Sample.t0 + 59 * Scenario.minute) Sample.stormy in
  let st1 := exec (checkAlerts Stub.toFixed Stub.aurora_text Sample.cfg w1) Scenario.st in
  let st2 := exec (run_checks Stub.toFixed Stub.aurora_text Sample.cfg between) st1 in
  dispatches Stub.toFixed Stub.aurora_text Sample.cfg TopicAurora w1 Scenario.st ∧
  ¬ dispatches Stub.toFixed Stub.aurora_text Sample.cfg TopicAurora w2 st2.
Proof.
  intros w1 between w2 st1 st2.
  assert (Hd : dispatches Stub.toFixed Stub.aurora_text Sample.cfg TopicAurora w1
                 Scenario.st).
  { vm_compute. intros H. discriminate H. }
  split; [exact Hd|].
  apply (sequential_checks_respect_cooldown Stub.toFixed Stub.aurora_text Sample.cfg
           TopicAurora Scenario.st w1 between w2 Hd).
  vm_compute. intros H. discriminate H.
Defined.


(** Subscribing to the daily report at 08:00 and then at 20:00 leaves one
    active row, at 20:00. *)
Lemma resubscribe_updates_in_place_witness :
  let run := subscribe_all "U-new" "daily"
               [Scenario.subscribe "08:00"; Scenario.subscribe "20:00"] in
  let rows' := subscriptions (exec run Scenario.st) in
  (∃ r, records_of "U-new" "daily" rows' = [r] ∧
        active_records_of "U-new" "daily" rows' = [r] ∧
        sub_pushTime r = "20:00") ∧
  length rows' = 5%nat.
Proof.
  intros run rows'.
  destruct (resubscribe_updates_in_place "U-new" "daily"
              [Scenario.subscribe "08:00"] (Scenario.subscribe "20:00") Scenario.st)
    as (_ & Hone & Hlen & _).
  - split; [by eexists|]. eapply bool_decide_unpack. vm_compute. exact I.
  - repeat constructor.
  - split; [exact Hone|exact Hlen].
Defined.

(** At 08:03 the tick does nothing; at 08:00 it fetches once and requests
    the push of the report for the one active subscriber scheduled at
    08:00. *)
Lemma dailyPush_on_the_hour_only_witness :
  dailyPush (space_weather_report Stub.toFixed) Sample.cfg (Scenario.tick "08:03")
    Scenario.st
    = (Returned tt, Scenario.st) ∧
  let tick := dailyPush (space_weather_report Stub.toFixed) Sample.cfg
                (Scenario.tick "08:00") in
  upstream_fetches (added tick Scenario.st) = 1%nat ∧
  fst <$> http_pushes (added tick Scenario.st) = ["U-daily"].
Proof.
  split.
  - apply (dailyPush_on_the_hour_only Stub.toFixed Sample.cfg
             (Scenario.tick "08:03") Scenario.st 8 3); [lia|lia|reflexivity|lia].
  - destruct (dailyPush_on_the_hour_only Stub.toFixed Sample.cfg
                (Scenario.tick "08:00") Scenario.st 8 0) as (_ & _ & H);
      [lia|lia|reflexivity|].
    destruct (H eq_refl) as (Hfetch & _ & _ & Hpush & _).
    destruct (Hpush Sample.quiet eq_refl) as (_ & s & _ & _ & Hhttp).
    intros tick. split; [exact Hfetch|]. subst tick. rewrite Hhttp. reflexivity.
Defined.

(** The spreadsheet refuses the solar-wind row: the error is logged and no
    sheet gets a row. *)
Lemma recordData_stops_at_first_failure_witness :
  let pass := recordData Stub.toFixed Scenario.recording in
  length (rows_of sheet_solarWind (exec pass Scenario.st)) = 0%nat ∧
  length (rows_of sheet_kp (exec pass Scenario.st)) = 0%nat ∧
  length (rows_of sheet_radiation (exec pass Scenario.st)) = 0%nat ∧
  length (errors_with "記錄錯誤:" (added pass Scenario.st)) = 1%nat.
Proof.
  intros pass.
  destruct (recordData_stops_at_first_failure Stub.toFixed Scenario.recording
              Scenario.st Sample.stormy) as (_ & Hsolar & Hkp & _ & Hrad & Herr).
  - eexists. split; [reflexivity|]. split_and!; by eexists.
  - reflexivity.
  - split; [exact Hsolar|]. split; [exact Hkp|]. split; [exact Hrad|exact Herr].
Defined.

(** Without a secret and with a token, an unsigned follow event reaches its
    handler. *)
Lemma webhook_without_secret_witness :
  validateLineSignature Stub.hmac Sample.cfg_no_secret (Some "{}") None Scenario.st
    = (Returned true, Scenario.st) ∧
  line_pushes (trace (exec (webhook Stub.hmac (Stub.echo Sample.cfg_no_secret)
                              (Stub.echo Sample.cfg_no_secret)
                              (Stub.echo Sample.cfg_no_secret)
                              Sample.cfg_no_secret Scenario.request) Scenario.st))
    = [("U-new", Text "hello")].
Proof.
  destruct (webhook_without_secret Stub.hmac (Stub.echo Sample.cfg_no_secret)
              (Stub.echo Sample.cfg_no_secret) (Stub.echo Sample.cfg_no_secret)
              Sample.cfg_no_secret eq_refl) as (Hvalid & Hset & _).
  split; [apply Hvalid|].
  unfold exec. rewrite (Hset Scenario.request Scenario.st eq_refl). reflexivity.
Defined.

(** ** Where the code departs from the specification *)

(** C7 fails: LINE refuses a push, and the attempt leaves no entry in the
    delivery log. *)
Lemma linePush_refused_push_leaves_no_record :
  let attempt := linePush Sample.cfg Sample.push_refused "U-aurora" (Text "alert") in
  http_pushes (added attempt Scenario.st)
    = [("U-aurora", [{| m_type := "text"; m_text := Some "alert" |}])] ∧
  result attempt Scenario.st = Returned false ∧
  delivery_log (exec attempt Scenario.st) = delivery_log Scenario.st.
Proof. by vm_compute. Qed.

(** C8 fails: the solar-wind write fails, and the Kp and radiation rows are
    never written although their sub-records are there and the spreadsheet
    would have taken them. *)
Lemma recordData_failure_blocks_later_categories :
  let pass := recordData Stub.toFixed Scenario.recording in
  let data := forced_read (rec_snapshot Scenario.recording) Scenario.st in
  is_Some (data_kp data) ∧ rec_kp_write Scenario.recording = None ∧
  is_Some (data_proton data) ∧ rec_radiation_write Scenario.recording = None ∧
  history_ready Scenario.st ∧
  rows_of sheet_kp (exec pass Scenario.st) = [] ∧
  rows_of sheet_radiation (exec pass Scenario.st) = [] ∧
  errors_with "記錄錯誤:" (added pass Scenario.st) = [("記錄錯誤:", "Quota exceeded")].
Proof.
  split_and!; try reflexivity; by repeat eexists.
Qed.

(** C9 fails: with neither the secret nor the access token configured, the
    webhook answers 200 and handles no event of the request. *)
Lemma webhook_without_token_handles_nothing :
  let handler := Stub.echo Sample.cfg_bare in
  let call := webhook Stub.hmac handler handler handler Sample.cfg_bare Scenario.request in
  JS.is_set (LINE_CHANNEL_SECRET Sample.cfg_bare) = false ∧
  req_events Scenario.request = Some [Scenario.follow] ∧
  result call Scenario.st
    = Returned {| status := 200; body := "OK (no token configured)" |} ∧
  line_pushes (added call Scenario.st) = [].
Proof. by vm_compute. Qed.


(** C5 fails on a sheet that already holds the pair twice, and when the
    spreadsheet refuses the write.  On the doubled sheet a subscribe for
    20:00 updates the first row only and leaves two active records, with
    different schedules.  When the write is refused the subscribe answers
    訂閱失敗 and the one record keeps its old schedule, 08:00. *)
Lemma addSubscription_keeps_duplicates_and_old_schedule :
  let again := addSubscription (call_world (Scenario.subscribe "20:00"))
                 "U-daily" "daily" "每日太空氣象報告" (Some "20:00") in
  let failed := addSubscription Scenario.refused
                  "U-daily" "daily" "每日太空氣象報告" (Some "20:00") in
  (sub_pushTime <$> active_records_of "U-daily" "daily"
                      (subscriptions (exec again Scenario.doubled)))
    = ["20:00"; "08:00"] ∧
  result failed Scenario.st
    = Returned {| success := false; reply_message := Some "訂閱失敗" |} ∧
  (sub_pushTime <$> active_records_of "U-daily" "daily"
                      (subscriptions (exec failed Scenario.st)))
    = ["08:00"].
Proof. split_and!; by vm_compute. Qed.

(** Two subscribes of one user that overlap -- both read the sheet before
    either writes -- add one row each: the user ends with two active daily
    records. *)
Lemma overlapping_subscribes_add_two_rows :
  let run := interleave Overlap.alternating Overlap.subscribes Scenario.st in
  forallb finished run.1 = true ∧
  records_of "U-new" "daily" (subscriptions Scenario.st) = [] ∧
  (sub_pushTime <$> active_records_of "U-new" "daily" (subscriptions run.2))
    = ["08:00"; "20:00"].
Proof. split_and!; by vm_compute. Qed.

(** C6 fails without an access token and when the sheet cannot be read.
    Without a token the tick at 08:00 refreshes the readings for the
    subscriber scheduled at 08:00 and then sends no push request.  With a
    token but an unreadable sheet the tick does nothing although the
    subscriber's row is in the sheet. *)
Lemma dailyPush_delivers_nothing :
  let tick := dailyPush (space_weather_report Stub.toFixed) Sample.cfg_bare
                (Scenario.tick "08:00") in
  let tick' := dailyPush (space_weather_report Stub.toFixed) Sample.cfg
                 (Scenario.tick_unreadable "08:00") in
  (sub_pushTime <$> active_records_of "U-daily" "daily" (subscriptions Scenario.st))
    = ["08:00"] ∧
  upstream_fetches (added tick Scenario.st) = 1%nat ∧
  http_pushes (added tick Scenario.st) = [] ∧
  tick' Scenario.st = (Returned tt, Scenario.st).
Proof. split_and!; by vm_compute. Qed.

Section Overlap.

Variable toFixed : nat → Q → string.

(** C1, where the code departs from it: two checks that overlap send the
    same alert twice within the hour.  The timer of line 2229 starts a
    check every five minutes and does not wait for the one before.  Here the
    first check, at [t0], finds Kp 6, the cooldown over and one subscriber;
    it requests the push and waits for LINE.  The second check starts five
    minutes later, while the first still waits: it tests the cooldown
    against the time of the alert before, since the first check records its
    time only after its last push, and so sends the alert again.  The
    subscriber gets two aurora alerts five minutes apart, and the time left
    in [lastAlerts] is that of the first check. *)
Theorem overlapping_checks_alert_twice :
  let check := checkAlerts_async toFixed (aurora_forecast toFixed) Sample.cfg in
  let run := interleave Overlap.schedule
               [check Overlap.first; check Overlap.second] Scenario.st in
  alert_now Overlap.second = alert_now Overlap.first + 5 * Scenario.minute ∧
  5 * Scenario.minute < ALERT_COOLDOWN ∧
  forallb finished run.1 = true ∧
  fst <$> alert_requests TopicAurora (trace run.2) = ["U-aurora"; "U-aurora"] ∧
  la_kp (lastAlerts run.2) = alert_now Overlap.first.
Proof. split_and!; by vm_compute. Qed.

End Overlap.

(* ===================================================================== *)
(** * Further properties *)
(* ===================================================================== *)

(** ** Cancelling subscriptions *)

Lemma with_subscriptions_id st d rows :
  doc st = Some d → sheet_subscriptions d = Some rows →
  with_doc (Some (with_subscriptions rows d)) st = st.
Proof. destruct st, d. cbn. by intros [= ->] ->. Qed.

(** The loop of [removeSubscription], from any position. *)
Lemma removeSubscription_rows w user type (xs : list SubRow) :
  ∀ (pre : list SubRow) (st : State) (d : Doc),
    doc st = Some d → sheet_subscriptions d = Some (pre ++ xs) →
    let r := cancel_rows w user type (length pre) xs in
    for_each_from (length pre) xs (λ i row,
      if bool_decide (sub_userId row = user) then
        if negb (JS.is_set type) || bool_decide (Some (sub_type row) = type)
        then save (unsubscribe_save w i) i (set_status DISABLED row)
        else mret tt
      else mret tt) st
    = (match r.2 with None => Returned tt | Some e => Threw e end,
       with_doc (Some (with_subscriptions (pre ++ r.1) d)) st).
Proof.
  induction xs as [|x xs IH]; intros pre st d Hd Hs; cbn zeta.
  - cbn [for_each_from cancel_rows fst snd]. by rewrite with_subscriptions_id.
  - cbn [for_each_from cancel_rows]. unfold cancels.
    assert (Hskip : ∀ st0, (mret tt : M unit) st0 = (Returned tt, st0)) by done.
    assert (IH' : ∀ y st0 d0, doc st0 = Some d0 →
              sheet_subscriptions d0 = Some (pre ++ y :: xs) →
              for_each_from (S (length pre)) xs (λ i row,
                if bool_decide (sub_userId row = user) then
                  if negb (JS.is_set type) || bool_decide (Some (sub_type row) = type)
                  then save (unsubscribe_save w i) i (set_status DISABLED row)
                  else mret tt
                else mret tt) st0
              = (match (cancel_rows w user type (S (length pre)) xs).2 with
                 | None => Returned tt | Some e => Threw e end,
                 with_doc (Some (with_subscriptions
                   (pre ++ y :: (cancel_rows w user type (S (length pre)) xs).1) d0)) st0)).
    { intros y st0 d0 Hd0 Hs0. specialize (IH (pre ++ [y]) st0 d0 Hd0).
      rewrite length_app in IH. cbn [length] in IH. rewrite Nat.add_1_r in IH.
      cbn zeta in IH. rewrite <- !app_assoc in IH. by apply IH. }
    clear IH.
    destruct (bool_decide (sub_userId x = user)); cbn [andb].
    2:{ erewrite bind_run by apply Hskip. by rewrite (IH' x st d Hd Hs). }
    destruct (negb (JS.is_set type) || bool_decide (Some (sub_type x) = type)).
    2:{ erewrite bind_run by apply Hskip. by rewrite (IH' x st d Hd Hs). }
    unfold save. destruct (unsubscribe_save w (length pre)) as [e|].
    { erewrite bind_throw by (erewrite bind_throw by reflexivity; reflexivity).
      cbn [fst snd]. by rewrite with_subscriptions_id. }
    erewrite bind_run.
    2:{ erewrite bind_run by reflexivity. reflexivity. }
    unfold update_subscriptions. rewrite Hd, Hs.
    rewrite (IH' (set_status DISABLED x) _
               (with_subscriptions (<[length pre := set_status DISABLED x]> (pre ++ x :: xs)) d)).
    + done.
    + done.
    + cbn. by rewrite insert_app_r_alt, Nat.sub_diag by done.
Qed.

Lemma removeSubscription_run w user type st d rows :
  doc st = Some d → sheet_subscriptions d = Some rows →
  removeSubscription w user type st
  = match unsubscribe_read w with
    | Some _ => (Returned {| success := false; reply_message := Some "取消失敗" |}, st)
    | None =>
        let r := cancel_rows w user type 0 rows in
        (Returned
           match r.2 with
           | None => {| success := true;
                        reply_message :=
                          Some (if JS.is_set type then "已取消訂閱" else "已取消所有訂閱") |}
           | Some _ => {| success := false; reply_message := Some "取消失敗" |}
           end,
         with_doc (Some (with_subscriptions r.1 d)) st)
    end.
Proof.
  intros Hd Hs.
  assert (Hsheet : doc st ≫= sheet_subscriptions = Some rows) by by rewrite Hd.
  unfold removeSubscription. erewrite bind_run by reflexivity. rewrite Hd.
  unfold try_catch.
  destruct (unsubscribe_read w) as [e|] eqn:Hread.
  { erewrite bind_throw; [done|]. by rewrite (getRows_run _ _ rows Hsheet). }
  erewrite bind_run by (rewrite (getRows_run _ _ rows Hsheet); reflexivity).
  pose proof (removeSubscription_rows w user type rows [] st d Hd Hs) as Hloop.
  cbn zeta in Hloop. cbn [length app] in Hloop. unfold for_each. cbn zeta.
  destruct (cancel_rows w user type 0 rows) as [rows' [e|]]; cbn [fst snd] in *.
  - by erewrite bind_throw by exact Hloop.
  - by erewrite bind_run by exact Hloop.
Qed.

Lemma cancel_rows_ok w user type (xs : list SubRow) :
  ∀ i,
    (∀ j row, xs !! j = Some row → cancels user type row = true →
              unsubscribe_save w (i + j) = None) →
    cancel_rows w user type i xs = (cancel user type <$> xs, None).
Proof.
  induction xs as [|x xs IH]; intros i Hok; [done|].
  cbn [cancel_rows fmap list_fmap]. unfold cancel at 1.
  rewrite (IH (S i)).
  2:{ intros j row Hj Hc. specialize (Hok (S j) row Hj Hc).
      by rewrite Nat.add_succ_r in Hok. }
  destruct (cancels user type x) eqn:Hc; [|done].
  specialize (Hok 0%nat x eq_refl Hc). rewrite Nat.add_0_r in Hok. by rewrite Hok.
Qed.

Lemma cancel_rows_stop w user type (xs : list SubRow) :
  ∀ i k row e,
    xs !! k = Some row → cancels user type row = true →
    unsubscribe_save w (i + k) = Some e →
    (∀ j r, (j < k)%nat → xs !! j = Some r → cancels user type r = true →
            unsubscribe_save w (i + j) = None) →
    cancel_rows w user type i xs
    = ((cancel user type <$> take k xs) ++ drop k xs, Some e).
Proof.
  induction xs as [|x xs IH]; intros i k row e Hk Hc He Hbefore; [done|].
  destruct k as [|k].
  - injection Hk as ->. cbn [cancel_rows take drop fmap list_fmap app].
    rewrite Nat.add_0_r in He. by rewrite Hc, He.
  - cbn [cancel_rows take drop fmap list_fmap app]. unfold cancel at 1.
    rewrite (IH (S i) k row e).
    + destruct (cancels user type x) eqn:Hx; [|done].
      specialize (Hbefore 0%nat x (Nat.lt_0_succ k) eq_refl Hx).
      rewrite Nat.add_0_r in Hbefore. by rewrite Hbefore.
    + done.
    + done.
    + by rewrite Nat.add_succ_r in He.
    + intros j r Hj Hr Hcr. specialize (Hbefore (S j) r (proj1 (Nat.succ_lt_mono j k) Hj) Hr Hcr).
      by rewrite Nat.add_succ_r in Hbefore.
Qed.

Lemma sheet_rows st :
  is_Some (doc st ≫= sheet_subscriptions) →
  ∃ d, doc st = Some d ∧ sheet_subscriptions d = Some (subscriptions st).
Proof.
  intros [rows Hrows]. unfold subscriptions.
  destruct (doc st) as [d|]; [|done]. cbn in *. exists d. by rewrite Hrows.
Qed.

Lemma removeSubscription_cancels w user type st :
  is_Some (doc st ≫= sheet_subscriptions) →
  unsubscribe_read w = None →
  (∀ i row, subscriptions st !! i = Some row → cancels user type row = true →
            unsubscribe_save w i = None) →
  removeSubscription w user type st
  = (Returned {| success := true;
                 reply_message :=
                   Some (if JS.is_set type then "已取消訂閱" else "已取消所有訂閱") |},
     exec (removeSubscription w user type) st) ∧
  subscriptions (exec (removeSubscription w user type) st)
    = cancel user type <$> subscriptions st ∧
  trace (exec (removeSubscription w user type) st) = trace st.
Proof.
  intros (d & Hd & Hs)%sheet_rows Hread Hok.
  unfold exec.
  rewrite (removeSubscription_run w user type st d _ Hd Hs), Hread. cbn zeta.
  rewrite (cancel_rows_ok w user type (subscriptions st) 0) by done.
  cbn [fst snd]. split; [done|]. split; [|done].
  unfold subscriptions at 1. by st_simpl.
Qed.

(** X1.  An unsubscribe that reaches the sheet marks exactly the rows it is
    aimed at as 停用 -- every row of the subscriber when no topic is given, the
    rows of that subscriber and topic otherwise -- and leaves every other row,
    the order of the rows and their number as they were; no row is deleted.
    It answers success and logs nothing. *)
Theorem removeSubscription_deactivates (w : UnsubscribeWorld) (user : string)
    (type : option string) (st : State) :
  is_Some (doc st ≫= sheet_subscriptions) →
  unsubscribe_read w = None →
  (∀ i row, subscriptions st !! i = Some row → cancels user type row = true →
            unsubscribe_save w i = None) →
  let call := removeSubscription w user type in
  result call st
    = Returned {| success := true;
                  reply_message :=
                    Some (if JS.is_set type then "已取消訂閱" else "已取消所有訂閱") |} ∧
  subscriptions (exec call st) = cancel user type <$> subscriptions st ∧
  trace (exec call st) = trace st.
Proof.
  intros Hsome Hread Hok call. subst call.
  destruct (removeSubscription_cancels w user type st Hsome Hread Hok)
    as (Hrun & Hrows & Htrace).
  split; [|done]. unfold result. by rewrite Hrun.
Qed.

Lemma removeSubscription_deactivates_witness :
  let call := removeSubscription unsubscribe_ok "U-daily" None in
  subscriptions (exec call Scenario.st)
  = [ Sample.row "U-aurora" "aurora" EmptyString ENABLED;
      Sample.row "U-daily" "daily" "08:00" DISABLED;
      Sample.row "U-evening" "daily" "20:00" ENABLED;
      Sample.row "U-gone" "daily" "08:00" DISABLED ].
Proof.
  intros call.
  destruct (removeSubscription_deactivates unsubscribe_ok "U-daily" None Scenario.st)
    as (_ & Hrows & _).
  - by eexists.
  - reflexivity.
  - reflexivity.
  - exact Hrows.
Defined.

(** X2.  A save that fails ends the unsubscribe at that row: the call
    answers 取消失敗, the subscriber's rows before it are already 停用, and that
    row and every row after it keep their status. *)
Theorem removeSubscription_stops_at_failed_save (w : UnsubscribeWorld)
    (user : string) (type : option string) (st : State) (k : nat) (row : SubRow)
    (e : string) :
  is_Some (doc st ≫= sheet_subscriptions) →
  unsubscribe_read w = None →
  subscriptions st !! k = Some row →
  cancels user type row = true →
  unsubscribe_save w k = Some e →
  (∀ j r, (j < k)%nat → subscriptions st !! j = Some r → cancels user type r = true →
          unsubscribe_save w j = None) →
  let call := removeSubscription w user type in
  result call st = Returned {| success := false; reply_message := Some "取消失敗" |} ∧
  subscriptions (exec call st)
    = (cancel user type <$> take k (subscriptions st)) ++ drop k (subscriptions st).
Proof.
  intros (d & Hd & Hs)%sheet_rows Hread Hk Hc He Hbefore call. subst call.
  unfold result, exec.
  rewrite (removeSubscription_run w user type st d _ Hd Hs), Hread. cbn zeta.
  rewrite (cancel_rows_stop w user type (subscriptions st) 0 k row e) by done.
  cbn [fst snd]. split; [done|].
  unfold subscriptions at 1. by st_simpl.
Qed.

Lemma removeSubscription_stops_at_failed_save_witness :
  let call := removeSubscription (Tour.save_fails_at 2) "U-both" None in
  result call Tour.st = Returned {| success := false; reply_message := Some "取消失敗" |} ∧
  sub_status <$> subscriptions (exec call Tour.st) = [DISABLED; ENABLED; ENABLED; ENABLED].
Proof.
  intros call.
  destruct (removeSubscription_stops_at_failed_save (Tour.save_fails_at 2) "U-both" None
              Tour.st 2 (Sample.row "U-both" "aurora" EmptyString ENABLED) "Quota exceeded")
    as (Hres & Hrows).
  - by eexists.
  - reflexivity.
  - reflexivity.
  - reflexivity.
  - reflexivity.
  - intros [|[|j]] r Hj Hr Hc; [reflexivity|reflexivity|lia].
  - split; [exact Hres|]. unfold call. rewrite Hrows. reflexivity.
Defined.

(** ** Listing subscriptions *)

Lemma getSubscriptions_run read user st :
  getSubscriptions read user st = (Returned (active_subscriptions read user st), st).
Proof.
  unfold getSubscriptions, active_subscriptions, getRows. run.
  destruct (doc st) as [d|] eqn:Hd; [|done]. simpl. rewrite Hd. simpl.
  destruct (sheet_subscriptions d) as [rows|]; [|done].
  by destruct read.
Qed.

Lemma cancel_status user type row :
  cancels user type row = true → sub_status (cancel user type row) ≠ ENABLED.
Proof. unfold cancel. by intros ->. Qed.

Lemma cancel_key user type row : key (cancel user type row) = key row.
Proof. unfold cancel. by destruct (cancels user type row). Qed.

Lemma cancel_other user type row :
  sub_userId row ≠ user → cancel user type row = row.
Proof.
  intros Hne. unfold cancel, cancels. by rewrite bool_decide_eq_false_2.
Qed.

Lemma inactive_active_subscribers user st read type :
  inactive user st →
  Forall (λ s, userId s ≠ user) (active_subscribers read type st).
Proof.
  unfold inactive, active_subscribers, subscriptions.
  destruct (doc st ≫= sheet_subscriptions) as [rows|]; [|done]. cbn.
  destruct read; [done|]. intros Hin.
  apply Forall_fmap, Forall_forall. intros row [[_ Hon] Hrow]%list_elem_of_filter.
  cbn. intros Hu. rewrite Forall_forall in Hin. by apply (Hin row Hrow Hu).
Qed.

Lemma inactive_active_subscriptions user st read :
  inactive user st → active_subscriptions read user st = [].
Proof.
  unfold inactive, active_subscriptions, subscriptions.
  destruct (doc st ≫= sheet_subscriptions) as [rows|]; [|done]. cbn.
  destruct read; [done|]. intros Hin.
  rewrite filter_none; [done|].
  eapply Forall_impl; [exact Hin|]. cbn. intros row Hrow [Hu Hon]. by apply Hrow.
Qed.

Lemma cancel_all_inactive user (rows : list SubRow) :
  Forall (λ row, sub_userId row = user → sub_status row ≠ ENABLED)
    (cancel user None <$> rows).
Proof.
  apply Forall_fmap, Forall_forall. intros row _. cbn. unfold cancel, cancels. cbn.
  destruct (bool_decide_reflect (sub_userId row = user)) as [Hu|Hu]; cbn; [done|].
  by intros.
Qed.

Lemma listing_cancel_other user type other (rows : list SubRow) :
  other ≠ user →
  filter (λ row, sub_userId row = other ∧ sub_status row = ENABLED)
    (cancel user type <$> rows)
  = filter (λ row, sub_userId row = other ∧ sub_status row = ENABLED) rows.
Proof.
  intros Hne. induction rows as [|row rows IH]; [done|].
  cbn [fmap list_fmap]. rewrite !filter_cons, IH.
  destruct (decide (sub_userId row = user)) as [Hu|Hu].
  - rewrite !decide_False; [done| |].
    + intros [Ho _]. congruence.
    + intros [Ho _]. unfold cancel in Ho. destruct (cancels user type row); cbn in Ho; congruence.
  - by rewrite cancel_other.
Qed.

Lemma removeSubscription_inactive w user st :
  is_Some (doc st ≫= sheet_subscriptions) →
  unsubscribe_read w = None →
  (∀ i, unsubscribe_save w i = None) →
  inactive user (exec (removeSubscription w user None) st).
Proof.
  intros Hsome Hread Hok.
  destruct (removeSubscription_cancels w user None st Hsome Hread) as (_ & Hrows & _).
  { intros. apply Hok. }
  unfold inactive. rewrite Hrows. apply cancel_all_inactive.
Qed.

(** X3.  After an unsubscribe from everything that reached the sheet, the
    subscriber has no active row: [getSubscriptions] lists nothing for them
    and [getSubscribersByType] names them for no topic, while what is listed
    for every other subscriber is what it was before. *)
Theorem unsubscribe_all_clears_subscriber (w : UnsubscribeWorld) (user : string)
    (st : State) :
  is_Some (doc st ≫= sheet_subscriptions) →
  unsubscribe_read w = None →
  (∀ i, unsubscribe_save w i = None) →
  let st' := exec (removeSubscription w user None) st in
  inactive user st' ∧
  (∀ read, getSubscriptions read user st' = (Returned [], st')) ∧
  (∀ read type, ∃ subscribers,
     getSubscribersByType read type st' = (Returned subscribers, st') ∧
     Forall (λ s, userId s ≠ user) subscribers) ∧
  (∀ read other, other ≠ user →
     result (getSubscriptions read other) st' = result (getSubscriptions read other) st).
Proof.
  intros Hsome Hread Hok st'.
  destruct (removeSubscription_cancels w user None st Hsome Hread) as (_ & Hrows & _).
  { intros. apply Hok. }
  fold st' in Hrows.
  assert (Hin : inactive user st').
  { unfold inactive. rewrite Hrows. apply cancel_all_inactive. }
  split; [done|]. split.
  { intros read. by rewrite getSubscriptions_run, inactive_active_subscriptions. }
  split.
  { intros read type. eexists. split; [apply getSubscribersByType_run|].
    by apply inactive_active_subscribers. }
  intros read other Hne. unfold result. rewrite !getSubscriptions_run. cbn [fst].
  f_equal. unfold active_subscriptions.
  destruct (sheet_rows st Hsome) as (d & Hd & Hs).
  assert (Hsome' : doc st' ≫= sheet_subscriptions = Some (subscriptions st')).
  { subst st'. unfold exec.
    rewrite (removeSubscription_run w user None st d _ Hd Hs), Hread. cbn zeta.
    cbn [snd]. unfold subscriptions. by st_simpl. }
  rewrite Hsome', Hrows. rewrite Hd. cbn. rewrite Hs.
  destruct read; [done|]. by rewrite listing_cancel_other.
Qed.

Lemma unsubscribe_all_clears_subscriber_witness :
  let st' := exec (removeSubscription unsubscribe_ok "U-both" None) Tour.st in
  getSubscriptions None "U-both" st' = (Returned [], st') ∧
  result (getSubscriptions None "U-other") st'
  = Returned [{| s_type := "aurora"; s_name := EmptyString; s_pushTime := EmptyString;
                 s_subscribedAt := "2025-12-24T00:00:00.000Z" |}].
Proof.
  intros st'.
  destruct (unsubscribe_all_clears_subscriber unsubscribe_ok "U-both" Tour.st)
    as (_ & Hnone & _ & Hother).
  - by eexists.
  - reflexivity.
  - reflexivity.
  - split; [apply Hnone|]. unfold st'. rewrite Hother; [reflexivity|done].
Defined.

(** ** What the timers do to a subscriber without an active row *)

Section Keeps.

Context (R : State → State → Prop) `{!PreOrder R}.

Lemma keeps_ret {A} (a : A) : keeps R (mret a : M A).
Proof. intros st. reflexivity. Qed.

Lemma keeps_throw {A} (e : string) : keeps R (throw e : M A).
Proof. intros st. reflexivity. Qed.

Lemma keeps_get : keeps R get.
Proof. intros st. reflexivity. Qed.

Lemma keeps_external f : keeps R (external f).
Proof. intros st. destruct f; reflexivity. Qed.

Lemma keeps_await {A} (o : outcome A) : keeps R (await o).
Proof. intros st. reflexivity. Qed.

Lemma keeps_bind {A B} (m : M A) (f : A → M B) :
  keeps R m → (∀ a, keeps R (f a)) → keeps R (m ≫= f).
Proof.
  intros Hm Hf st. specialize (Hm st). unfold exec in *.
  unfold mbind, M_bind. destruct (m st) as [[a|e] st1]; cbn [snd] in *; [|done].
  etrans; [exact Hm|]. apply Hf.
Qed.

Lemma keeps_try_catch {A} (m : M A) (h : string → M A) :
  keeps R m → (∀ e, keeps R (h e)) → keeps R (try_catch m h).
Proof.
  intros Hm Hh st. specialize (Hm st). unfold exec, try_catch in *.
  destruct (m st) as [[a|e] st1]; cbn [snd] in *; [done|].
  etrans; [exact Hm|]. apply Hh.
Qed.

Lemma keeps_for_each_from {A} (xs : list A) (body : nat → A → M unit) :
  (∀ i x, keeps R (body i x)) → ∀ i, keeps R (for_each_from i xs body).
Proof.
  intros Hbody. induction xs as [|x xs IH]; intros i; cbn [for_each_from].
  - apply keeps_ret.
  - apply keeps_bind; [apply Hbody|]. intros _. apply IH.
Qed.

End Keeps.

#[global] Instance unreached_preorder user : PreOrder (unreached user).
Proof.
  split.
  - intros st. split; [done|]. exists []. by rewrite app_nil_r.
  - intros a b c [Hab (e1 & Ht1 & H1)] [Hbc (e2 & Ht2 & H2)]. split; [congruence|].
    exists (e1 ++ e2). rewrite Ht2, Ht1, <- app_assoc. split; [done|].
    rewrite line_pushes_app. by apply Forall_app.
Qed.

Lemma unreached_event user e st :
  match e with EvLinePush u _ => u ≠ user | _ => True end →
  unreached user st (with_event e st).
Proof.
  intros He. split; [done|]. exists [e]. split; [done|].
  destruct e; cbn; try done. by apply Forall_singleton.
Qed.

Lemma keeps_emit user e :
  match e with EvLinePush u _ => u ≠ user | _ => True end →
  keeps (unreached user) (emit e).
Proof. intros He st. by apply unreached_event. Qed.

Lemma keeps_modify_quiet user (f : State → State) :
  (∀ st, doc (f st) ≫= sheet_subscriptions = doc st ≫= sheet_subscriptions) →
  (∀ st, trace (f st) = trace st) →
  keeps (unreached user) (modify f).
Proof.
  intros Hd Ht st. split; [apply Hd|]. exists []. unfold exec, modify. cbn [snd].
  by rewrite Ht, app_nil_r.
Qed.

Lemma push_frame_unreached user st st' evs :
  push_frame st st' → trace st' = trace st ++ evs →
  Forall (λ c, c.1 ≠ user) (line_pushes evs) →
  unreached user st st'.
Proof. intros (_ & _ & _ & _ & Hs & _) Ht Hev. split; [done|]. eauto. Qed.

Lemma keeps_getSpaceWeather_forced user w :
  keeps (unreached user) (getSpaceWeather w true).
Proof.
  intros st.
  destruct (getSpaceWeather_forced w st) as (o & st' & evs & Hrun & _ & Hd & _ & Ht & Hlp & _).
  erewrite exec_run by exact Hrun. split; [by rewrite Hd|].
  exists (EvUpstream :: evs). split; [done|].
  change (EvUpstream :: evs) with ([EvUpstream] ++ evs).
  rewrite line_pushes_app, Hlp. by cbn.
Qed.

Lemma keeps_append_row user {R} (sheet : Doc → option (list R)) put f (row : M R) :
  (∀ rows d, sheet_subscriptions (put rows d) = sheet_subscriptions d) →
  keeps (unreached user) row →
  keeps (unreached user) (append_row sheet put f row).
Proof.
  intros Hput Hrow. unfold append_row.
  apply (keeps_bind (unreached user)); [apply (keeps_get (unreached user))|]. intros st0.
  destruct (doc st0) as [d|]; [|apply (keeps_throw (unreached user))].
  destruct (sheet d); [|apply (keeps_throw (unreached user))].
  apply (keeps_bind (unreached user)); [done|]. intros r.
  apply (keeps_bind (unreached user)); [apply (keeps_external (unreached user))|]. intros _.
  apply keeps_modify_quiet.
  - intros st. destruct (doc st) as [d'|] eqn:Hd'; [|by rewrite Hd'].
    cbn. by rewrite Hput.
  - intros st. by destruct (doc st).
Qed.

Lemma keeps_num_toFixed user toFixed digits x :
  keeps (unreached user) (num_toFixed toFixed digits x).
Proof. destruct x; [apply (keeps_ret (unreached user))|apply (keeps_throw (unreached user))]. Qed.

Lemma keeps_recordData user toFixed w :
  keeps (unreached user) (recordData toFixed w).
Proof.
  unfold recordData.
  apply (keeps_bind (unreached user)); [apply (keeps_get (unreached user))|]. intros st0.
  destruct (doc st0); [|apply (keeps_ret (unreached user))].
  apply (keeps_try_catch (unreached user)); [|intros e; by apply keeps_emit].
  apply (keeps_bind (unreached user)); [apply keeps_getSpaceWeather_forced|]. intros o.
  repeat (apply (keeps_bind (unreached user)); [|intros _]);
    try (match goal with |- keeps _ (match ?x with _ => _ end) => destruct x end);
    try apply (keeps_ret (unreached user));
    apply keeps_append_row; try done;
    repeat (apply (keeps_bind (unreached user)); [apply keeps_num_toFixed|intros ?]);
    apply (keeps_ret (unreached user)).
Qed.

Lemma keeps_linePush user cfg w u p :
  u ≠ user → keeps (unreached user) (linePush cfg w u p).
Proof.
  intros Hne st.
  destruct (linePush_run cfg w u p st) as (b & st' & evs & Hrun & Hfr & Ht & Hlp & _).
  erewrite exec_run by exact Hrun.
  eapply push_frame_unreached; [exact Hfr|exact Ht|].
  change (EvLinePush u p :: evs) with ([EvLinePush u p] ++ evs).
  rewrite line_pushes_app, Hlp. cbn. by apply Forall_singleton.
Qed.

Lemma keeps_push_loop user cfg (pw : nat → PushWorld) (msg : payload)
    (xs : list Subscriber) :
  Forall (λ s, userId s ≠ user) xs →
  ∀ i, keeps (unreached user)
         (for_each_from i xs (λ i s, linePush cfg (pw i) (userId s) msg ;; mret tt)).
Proof.
  induction 1 as [|x xs Hx _ IH]; intros i; cbn [for_each_from].
  - apply (keeps_ret (unreached user)).
  - apply (keeps_bind (unreached user)); [|intros _; apply IH].
    apply (keeps_bind (unreached user)); [by apply keeps_linePush|].
    intros _. apply (keeps_ret (unreached user)).
Qed.

Section TimersQuiet.

Variable toFixed : nat → Q → string.
Variable report_text : string → Snapshot → string.
Variable aurora_text : Snapshot → string.
Variable cfg : Config.

Lemma dailyPush_unreached user w st :
  inactive user st → unreached user st (exec (dailyPush report_text cfg w) st).
Proof.
  intros Hin. unfold dailyPush.
  destruct (negb _); [reflexivity|].
  unfold exec. erewrite bind_run by apply getSubscribersByType_run.
  pose proof (inactive_active_subscribers user st (daily_read w) "daily" Hin) as Hsubs.
  set (targets := filter _ _).
  assert (Ht : Forall (λ s, userId s ≠ user) targets).
  { apply Forall_forall. intros s [_ Hs]%list_elem_of_filter.
    rewrite Forall_forall in Hsubs. by apply Hsubs. }
  destruct (length targets =? 0)%nat; [reflexivity|].
  apply (keeps_bind (unreached user)); [apply keeps_getSpaceWeather_forced|].
  intros o. apply (keeps_bind (unreached user)).
  { unfold formatSpaceWeatherMessage.
    destruct (value o); [apply (keeps_ret (unreached user))|apply (keeps_throw (unreached user))]. }
  intros message. unfold for_each.
  apply (keeps_push_loop user cfg (daily_push w) (Text message) targets Ht 0).
Qed.

Lemma checkAlerts_unreached user w st :
  inactive user st →
  unreached user st (exec (checkAlerts toFixed aurora_text cfg w) st).
Proof.
  intros Hin.
  destruct (checkAlerts_run toFixed aurora_text cfg w st)
    as (st' & amsg & fmsg & evs & Hrun & _ & _ & _ & _ & Ht & Hlp & _ & Hd & _).
  erewrite exec_run by exact Hrun. split; [done|].
  exists evs. split; [done|]. rewrite Hlp.
  apply Forall_app. split.
  - destruct (fires TopicAurora w st); [|done].
    apply Forall_fmap. cbn. by apply inactive_active_subscribers.
  - destruct (fires TopicFlare w st); [|done].
    apply Forall_fmap. cbn. by apply inactive_active_subscribers.
Qed.

Lemma unreached_inactive user st st' :
  unreached user st st' → inactive user st → inactive user st'.
Proof. intros [Hd _]. unfold inactive, subscriptions. by rewrite Hd. Qed.

Lemma after_jobs_unreached user (jobs : list job) :
  ∀ st, inactive user st →
        unreached user st (after_jobs toFixed report_text aurora_text cfg jobs st).
Proof.
  induction jobs as [|j jobs IH]; intros st Hin; [reflexivity|].
  cbn [after_jobs foldl].
  assert (Hj : unreached user st (exec (run_job toFixed report_text aurora_text cfg j) st)).
  { destruct j as [w|w|w]; cbn [run_job].
    - by apply dailyPush_unreached.
    - by apply checkAlerts_unreached.
    - apply keeps_recordData. }
  etrans; [exact Hj|]. apply IH. by eapply unreached_inactive.
Qed.

(** X4.  A subscriber without an active row is out of reach of the timers:
    however often and in whatever order the scheduled report, the alert
    check and the recording pass run, none of them calls [linePush] for that
    subscriber, and none of them touches the subscription sheet, so the
    subscriber stays without an active row. *)
Theorem inactive_subscriber_is_never_pushed (user : string) (jobs : list job)
    (st : State) :
  inactive user st →
  let st' := after_jobs toFixed report_text aurora_text cfg jobs st in
  inactive user st' ∧
  subscriptions st' = subscriptions st ∧
  ∃ evs, trace st' = trace st ++ evs ∧
         Forall (λ c, c.1 ≠ user) (line_pushes evs).
Proof.
  intros Hin st'. subst st'.
  pose proof (after_jobs_unreached user jobs st Hin) as H.
  split; [by eapply unreached_inactive|].
  destruct H as [Hd Hev]. split; [|done].
  unfold subscriptions. by rewrite Hd.
Qed.

(** X7.  Without a spreadsheet nothing is stored and nobody is ever
    reached: a subscribe answers success (記憶體模式) and an unsubscribe answers
    success, both leaving the state as it was; both listings are empty; and
    whatever timers run afterwards, [linePush] is never called. *)
Theorem memory_mode_stores_nothing (st : State) :
  doc st = None →
  (∀ w user type name pushTime,
     addSubscription w user type name pushTime st
     = (Returned {| success := true; reply_message := Some "訂閱成功（記憶體模式）" |}, st)) ∧
  (∀ w user type,
     removeSubscription w user type st
     = (Returned {| success := true; reply_message := None |}, st)) ∧
  (∀ read user, getSubscriptions read user st = (Returned [], st)) ∧
  (∀ read type, getSubscribersByType read type st = (Returned [], st)) ∧
  (∀ jobs, line_pushes
             (drop (length (trace st))
                (trace (after_jobs toFixed report_text aurora_text cfg jobs st))) = []).
Proof.
  intros Hd. split_and!.
  - intros. unfold addSubscription. erewrite bind_run by reflexivity. by rewrite Hd.
  - intros. unfold removeSubscription. erewrite bind_run by reflexivity. by rewrite Hd.
  - intros. rewrite getSubscriptions_run. unfold active_subscriptions. by rewrite Hd.
  - intros. rewrite getSubscribersByType_run. unfold active_subscribers. by rewrite Hd.
  - intros jobs.
    assert (Hall : ∀ user, inactive user st).
    { intros user. unfold inactive, subscriptions. rewrite Hd. constructor. }
    destruct (line_pushes _) as [|c cs] eqn:Hlp; [done|]. exfalso.
    destruct (after_jobs_unreached c.1 jobs st (Hall c.1)) as (_ & evs & Ht & Hev).
    rewrite Ht, drop_app_length in Hlp. rewrite Hlp in Hev.
    by apply Forall_cons in Hev as [Hc _].
Qed.

End TimersQuiet.

Lemma memory_mode_stores_nothing_witness :
  let jobs := [Daily (Scenario.tick "08:00");
               Alerts (Scenario.check Sample.t0 Sample.stormy)] in
  addSubscription (call_world (Scenario.subscribe "08:00")) "U-new" "daily"
    "每日太空氣象報告" (Some "08:00") initial_state
  = (Returned {| success := true; reply_message := Some "訂閱成功（記憶體模式）" |},
     initial_state) ∧
  line_pushes
    (trace (after_jobs Stub.toFixed Stub.report_text Stub.aurora_text Sample.cfg
              jobs initial_state)) = [].
Proof.
  intros jobs.
  destruct (memory_mode_stores_nothing Stub.toFixed Stub.report_text Stub.aurora_text
              Sample.cfg initial_state eq_refl) as (Hadd & _ & _ & _ & Hjobs).
  split; [apply Hadd|]. exact (Hjobs jobs).
Defined.

Lemma inactive_subscriber_is_never_pushed_witness :
  let jobs := [Daily (Scenario.tick "08:00");
               Alerts (Scenario.check Sample.t0 Sample.stormy);
               Recording Scenario.recording] in
  let st' := after_jobs Stub.toFixed Stub.report_text Stub.aurora_text Sample.cfg
               jobs Scenario.st in
  inactive "U-gone" st' ∧
  (line_pushes (trace st')).*1 = ["U-daily"; "U-aurora"].
Proof.
  intros jobs st'.
  destruct (inactive_subscriber_is_never_pushed Stub.toFixed Stub.report_text
              Stub.aurora_text Sample.cfg "U-gone" jobs Scenario.st)
    as (Hin & _ & _).
  - eapply bool_decide_unpack. vm_compute. exact I.
  - split; [exact Hin|]. vm_compute. reflexivity.
Defined.

(** ** Subscribing, then listing *)

Lemma filter_fmap_comm {A B} (f : A → B) (P : B → Prop) `{!∀ y, Decision (P y)}
    (l : list A) :
  filter P (f <$> l) = f <$> filter (λ x, P (f x)) l.
Proof.
  induction l as [|x l IH]; [done|].
  cbn [fmap list_fmap]. rewrite !filter_cons, IH. by destruct (decide (P (f x))).
Qed.

Section UpsertRows.

Variable user type : string.

Lemma records_of_unique rows r1 r2 :
  unique_keys rows → r1 ∈ rows → r2 ∈ rows →
  key r1 = (user, type) → key r2 = (user, type) →
  records_of user type rows = [r1] → r2 = r1.
Proof.
  intros _ _ H2 _ Hk2 Hrec.
  assert (Hin : r2 ∈ records_of user type rows).
  { apply list_elem_of_filter. split; [by apply matches_key|done]. }
  rewrite Hrec in Hin. by apply list_elem_of_singleton in Hin.
Qed.

(** The row a subscribe leaves for the pair. *)
Lemma upsert_records name time pushTime rows :
  unique_keys rows →
  records_of user type (upsert user type name time pushTime rows)
  = [match records_of user type rows with
     | r0 :: _ => set_status ENABLED (set_pushTime (JS.or_str pushTime EmptyString) r0)
     | [] => {| sub_userId := user; sub_type := type; sub_name := name;
                sub_subscribedAt := time;
                sub_pushTime := JS.or_str pushTime EmptyString;
                sub_status := ENABLED; sub_lastPush := EmptyString |}
     end].
Proof.
  intros Huniq.
  destruct (upsert_spec user type name time pushTime rows Huniq)
    as (_ & (r & Hrec & _) & _).
  rewrite Hrec. f_equal.
  assert (Hone : ∀ x, x ∈ upsert user type name time pushTime rows →
                      key x = (user, type) → r = x).
  { intros x Hx Hk.
    assert (Hin : x ∈ records_of user type (upsert user type name time pushTime rows)).
    { apply list_elem_of_filter. split; [by apply matches_key|done]. }
    rewrite Hrec in Hin. apply list_elem_of_singleton in Hin. by symmetry. }
  unfold upsert in *.
  destruct (list_find _ rows) as [[i existing]|] eqn:Hfind.
  - apply list_find_Some in Hfind as (Hi & Hmatch & Hfirst).
    assert (Hex : existing ∈ records_of user type rows).
    { apply list_elem_of_filter. split; [done|by eapply list_elem_of_lookup_2]. }
    assert (Hhead : ∃ rest, records_of user type rows = existing :: rest).
    { unfold records_of. rewrite <- (take_drop_middle _ _ _ Hi), filter_app.
      rewrite (filter_none _ (take i rows)).
      - rewrite filter_cons_True by done. eauto.
      - apply Forall_forall. intros x Hx.
        apply list_elem_of_lookup in Hx as [j Hj].
        pose proof (lookup_lt_Some _ _ _ Hj) as Hlt. rewrite length_take in Hlt.
        rewrite lookup_take_lt in Hj by lia. apply (Hfirst j); [done|lia]. }
    destruct Hhead as [rest ->].
    apply Hone; [|by apply matches_key in Hmatch].
    eapply list_elem_of_lookup_2. apply list_lookup_insert_eq.
    by eapply lookup_lt_Some.
  - apply list_find_None in Hfind.
    unfold records_of at 1. rewrite (filter_none _ rows Hfind).
    apply Hone; [|done]. apply elem_of_app. right. by apply list_elem_of_singleton.
Qed.

End UpsertRows.

Lemma addSubscription_rows w user type name pushTime st :
  store_ok st → sheet_ok w →
  let st' := exec (addSubscription w user type name pushTime) st in
  store_ok st' ∧
  subscriptions st' = upsert user type name (subscribe_time w) pushTime (subscriptions st).
Proof.
  intros Hst Hok st'. subst st'.
  destruct (store_ok_rows st Hst) as (d & rows & Hd & Hs & Hrows & Huniq).
  destruct (addSubscription_ok w user type name pushTime st d rows Hd Hs Hok)
    as (reply & Hrun & _).
  split; [by apply addSubscription_keeps_store|].
  erewrite exec_run by exact Hrun. rewrite Hrows. unfold subscriptions. by st_simpl.
Qed.

(** The rows of a pair after a subscribe, whatever the sheet held before:
    the first row of the pair is the one that is updated. *)
Lemma upsert_records_of user type name time pushTime rows :
  records_of user type (upsert user type name time pushTime rows)
  = match records_of user type rows with
    | r0 :: rest =>
        set_status ENABLED (set_pushTime (JS.or_str pushTime EmptyString) r0) :: rest
    | [] => [{| sub_userId := user; sub_type := type; sub_name := name;
                sub_subscribedAt := time;
                sub_pushTime := JS.or_str pushTime EmptyString;
                sub_status := ENABLED; sub_lastPush := EmptyString |}]
    end.
Proof.
  unfold upsert, records_of.
  destruct (list_find _ rows) as [[i existing]|] eqn:Hfind.
  - apply list_find_Some in Hfind as (Hi & Hmatch & Hfirst).
    pose proof (lookup_lt_Some _ _ _ Hi) as Hlt.
    assert (Hpre : filter (λ row, sub_userId row = user ∧ sub_type row = type)
                     (take i rows) = []).
    { apply filter_none, Forall_forall. intros x Hx.
      apply list_elem_of_lookup in Hx as [j Hj].
      pose proof (lookup_lt_Some _ _ _ Hj) as Hj'. rewrite length_take in Hj'.
      rewrite lookup_take_lt in Hj by lia. apply (Hfirst j); [done|lia]. }
    rewrite insert_take_drop by done.
    rewrite <- (take_drop_middle _ _ _ Hi) at 3.
    rewrite !filter_app, Hpre, !filter_cons_True by done. reflexivity.
  - apply list_find_None in Hfind.
    rewrite filter_app, (filter_none _ rows Hfind).
    by rewrite filter_cons_True.
Qed.

(** A subscribe that reaches a sheet, whatever the sheet holds. *)
Lemma addSubscription_upsert w user type name pushTime st :
  is_Some (doc st ≫= sheet_subscriptions) → sheet_ok w →
  ∃ reply st',
    addSubscription w user type name pushTime st = (Returned reply, st') ∧
    success reply = true ∧
    is_Some (doc st' ≫= sheet_subscriptions) ∧
    subscriptions st' = upsert user type name (subscribe_time w) pushTime (subscriptions st).
Proof.
  intros (d & Hd & Hs)%sheet_rows Hok.
  destruct (addSubscription_ok w user type name pushTime st d _ Hd Hs Hok)
    as (reply & Hrun & Hsucc).
  eexists _, _. split; [exact Hrun|]. split; [done|].
  unfold subscriptions. st_simpl. cbn. split; [by eexists|done].
Qed.

(** The entries of a subscriber in the listing of a topic, and the entries
    of a topic in the listing of a subscriber, come from the active rows of
    the pair. *)
Lemma listed_records user type st :
  is_Some (doc st ≫= sheet_subscriptions) →
  filter (λ s, userId s = user) (active_subscribers None type st)
  = (λ row, {| userId := sub_userId row; pushTime := sub_pushTime row |})
    <$> active_records_of user type (subscriptions st).
Proof.
  intros (d & Hd & Hs)%sheet_rows.
  unfold active_subscribers, active_records_of, records_of. rewrite Hd. cbn. rewrite Hs.
  rewrite filter_fmap_comm. cbn. rewrite !list_filter_filter. f_equal.
  apply list_filter_iff. intros row. tauto.
Qed.

Lemma listed_subscriptions user type st :
  is_Some (doc st ≫= sheet_subscriptions) →
  filter (λ s, s_type s = type) (active_subscriptions None user st)
  = (λ row, {| s_type := sub_type row; s_name := sub_name row;
               s_pushTime := sub_pushTime row;
               s_subscribedAt := sub_subscribedAt row |})
    <$> active_records_of user type (subscriptions st).
Proof.
  intros (d & Hd & Hs)%sheet_rows.
  unfold active_subscriptions, active_records_of, records_of. rewrite Hd. cbn. rewrite Hs.
  rewrite filter_fmap_comm. cbn. rewrite !list_filter_filter. f_equal.
  apply list_filter_iff. intros row. tauto.
Qed.

(** The active rows of a pair after a subscribe: the row just written, then
    the further rows of the pair that were active before. *)
Lemma upsert_active user type name time pushTime rows :
  ∃ r, active_records_of user type (upsert user type name time pushTime rows)
       = r :: filter (λ row, sub_status row = ENABLED) (tail (records_of user type rows)) ∧
       sub_userId r = user ∧ sub_type r = type ∧
       sub_pushTime r = JS.or_str pushTime EmptyString.
Proof.
  unfold active_records_of. rewrite upsert_records_of.
  destruct (records_of user type rows) as [|r0 rest] eqn:Hrec.
  - eexists. rewrite filter_cons_True by done. by split_and!.
  - assert (Hr0 : r0 ∈ records_of user type rows) by (rewrite Hrec; left).
    apply list_elem_of_filter in Hr0 as [[Hu Ht] _].
    eexists. rewrite filter_cons_True by done. by split_and!.
Qed.

(** X5.  A subscribe that reached the sheet can be read back.  For the
    topic, [getSubscribersByType] names the subscriber with the schedule
    just given ([''] when none was given), and then once more for every
    further row of the pair that the sheet already held as active; so it
    names the subscriber exactly once when the sheet held at most one row
    for the pair.  [getSubscriptions] lists the subscriber's subscriptions
    of that topic in the same way. *)
Theorem subscribed_user_is_listed (w : SubscribeWorld) (user type name : string)
    (pushTime : option string) (st : State) :
  is_Some (doc st ≫= sheet_subscriptions) → sheet_ok w →
  let st' := exec (addSubscription w user type name pushTime) st in
  let time := JS.or_str pushTime EmptyString in
  let further := filter (λ row, sub_status row = ENABLED)
                   (tail (records_of user type (subscriptions st))) in
  (∃ subscribers,
     getSubscribersByType None type st' = (Returned subscribers, st') ∧
     filter (λ s, userId s = user) subscribers
     = {| userId := user; pushTime := time |}
       :: ((λ row, {| userId := sub_userId row; pushTime := sub_pushTime row |})
           <$> further)) ∧
  (∃ listed s,
     getSubscriptions None user st' = (Returned listed, st') ∧
     filter (λ s, s_type s = type) listed
     = s :: ((λ row, {| s_type := sub_type row; s_name := sub_name row;
                        s_pushTime := sub_pushTime row;
                        s_subscribedAt := sub_subscribedAt row |}) <$> further) ∧
     s_pushTime s = time) ∧
  ((length (records_of user type (subscriptions st)) ≤ 1)%nat → further = []).
Proof.
  intros Hsome Hok st' time further.
  destruct (addSubscription_upsert w user type name pushTime st Hsome Hok)
    as (reply & st1 & Hrun & _ & Hsome1 & Hrows).
  assert (st' = st1) as -> by (subst st'; by erewrite exec_run by exact Hrun).
  destruct (upsert_active user type name (subscribe_time w) pushTime (subscriptions st))
    as (r & Hact & Hu & Hty & Htime).
  rewrite <- Hrows in Hact. fold further in Hact.
  split_and!.
  - eexists. split; [apply getSubscribersByType_run|].
    rewrite listed_records, Hact by done. cbn. by rewrite Hu, Htime.
  - eexists _, _. split; [apply getSubscriptions_run|].
    rewrite listed_subscriptions, Hact by done. cbn. split; [reflexivity|]. done.
  - intros Hlen. subst further.
    destruct (records_of user type (subscriptions st)) as [|r0 [|r1 rest]]; cbn in *;
      [done|done|lia].
Qed.

Lemma subscribed_user_is_listed_witness :
  let w := call_world (Scenario.subscribe "20:00") in
  let st' := exec (addSubscription w "U-daily" "daily" "每日太空氣象報告" (Some "20:00"))
               Scenario.st in
  ∃ subscribers,
    getSubscribersByType None "daily" st' = (Returned subscribers, st') ∧
    filter (λ s, userId s = "U-daily") subscribers
    = [{| userId := "U-daily"; pushTime := "20:00" |}].
Proof.
  intros w st'.
  destruct (subscribed_user_is_listed w "U-daily" "daily" "每日太空氣象報告" (Some "20:00")
              Scenario.st) as [H _].
  - by eexists.
  - split; reflexivity.
  - exact H.
Defined.

Lemma records_of_cancel user type (rows : list SubRow) :
  records_of user type (cancel user None <$> rows)
  = set_status DISABLED <$> records_of user type rows.
Proof.
  unfold records_of. induction rows as [|row rows IH]; [done|].
  cbn [fmap list_fmap]. rewrite !filter_cons, IH.
  pose proof (cancel_key user None row) as Hk.
  destruct (decide (sub_userId row = user ∧ sub_type row = type)) as [[Hu Ht]|Hno].
  - rewrite decide_True.
    + cbn. f_equal. unfold cancel, cancels. rewrite bool_decide_eq_true_2 by done. done.
    + apply matches_key. rewrite Hk. by apply matches_key.
  - rewrite decide_False; [done|].
    intros Hyes%matches_key. apply Hno, matches_key. by rewrite <- Hk.
Qed.

(** X6.  Subscribing, unsubscribing from everything and subscribing again
    to the same topic ends with the row of the first subscribe, active
    again: it carries the schedule of the second subscribe, while its name
    and its subscription date are still those of the first one, and the
    sheet has grown by that one row only. *)
Theorem resubscribe_after_cancel_reuses_row (first again : SubscribeWorld)
    (between : UnsubscribeWorld) (user type name name' : string)
    (pushTime pushTime' : option string) (st : State) :
  store_ok st →
  records_of user type (subscriptions st) = [] →
  sheet_ok first → sheet_ok again →
  unsubscribe_read between = None → (∀ i, unsubscribe_save between i = None) →
  let st1 := exec (addSubscription first user type name pushTime) st in
  let st2 := exec (removeSubscription between user None) st1 in
  let st3 := exec (addSubscription again user type name' pushTime') st2 in
  active_records_of user type (subscriptions st2) = [] ∧
  records_of user type (subscriptions st3)
  = [{| sub_userId := user; sub_type := type; sub_name := name;
        sub_subscribedAt := subscribe_time first;
        sub_pushTime := JS.or_str pushTime' EmptyString;
        sub_status := ENABLED; sub_lastPush := EmptyString |}] ∧
  length (subscriptions st3) = S (length (subscriptions st)).
Proof.
  intros Hst Hnone Hfirst Hagain Hread Hsave st1 st2 st3.
  destruct (addSubscription_rows first user type name pushTime st Hst Hfirst)
    as [Hst1 Hrows1]. fold st1 in Hst1, Hrows1.
  pose proof (removeSubscription_keeps_store between user None st1 Hst1) as Hst2.
  fold st2 in Hst2.
  destruct (removeSubscription_cancels between user None st1 (proj1 Hst1) Hread)
    as (_ & Hrows2 & _); [intros; apply Hsave|]. fold st2 in Hrows2.
  destruct (addSubscription_rows again user type name' pushTime' st2 Hst2 Hagain)
    as [Hst3 Hrows3]. fold st3 in Hst3, Hrows3.
  assert (Hrec1 : records_of user type (subscriptions st1)
                  = [{| sub_userId := user; sub_type := type; sub_name := name;
                        sub_subscribedAt := subscribe_time first;
                        sub_pushTime := JS.or_str pushTime EmptyString;
                        sub_status := ENABLED; sub_lastPush := EmptyString |}]).
  { rewrite Hrows1, upsert_records by apply Hst. by rewrite Hnone. }
  assert (Hrec2 : records_of user type (subscriptions st2)
                  = [{| sub_userId := user; sub_type := type; sub_name := name;
                        sub_subscribedAt := subscribe_time first;
                        sub_pushTime := JS.or_str pushTime EmptyString;
                        sub_status := DISABLED; sub_lastPush := EmptyString |}]).
  { by rewrite Hrows2, records_of_cancel, Hrec1. }
  split_and!.
  - unfold active_records_of. rewrite Hrec2. by rewrite filter_cons_False.
  - rewrite Hrows3, upsert_records by apply Hst2. by rewrite Hrec2.
  - destruct (upsert_spec user type name' (subscribe_time again) pushTime'
                (subscriptions st2) (proj2 Hst2)) as (_ & _ & Hlen3).
    destruct (upsert_spec user type name (subscribe_time first) pushTime
                (subscriptions st) (proj2 Hst)) as (_ & _ & Hlen1).
    rewrite Hrows3, Hlen3, Hrec2, Hrows2, length_fmap, Hrows1, Hlen1, Hnone.
    rewrite decide_True by done. rewrite decide_False by done. lia.
Qed.

Lemma resubscribe_after_cancel_reuses_row_witness :
  let first := call_world (Scenario.subscribe "08:00") in
  let again := {| subscribe_read := None; subscribe_write := None;
                  subscribe_time := "2026-01-01T00:00:00.000Z" |} in
  let st1 := exec (addSubscription first "U-new" "daily" "每日太空氣象報告" (Some "08:00"))
               Scenario.st in
  let st2 := exec (removeSubscription unsubscribe_ok "U-new" None) st1 in
  let st3 := exec (addSubscription again "U-new" "daily" "report" (Some "20:00")) st2 in
  records_of "U-new" "daily" (subscriptions st3)
  = [{| sub_userId := "U-new"; sub_type := "daily"; sub_name := "每日太空氣象報告";
        sub_subscribedAt := "2025-12-25T03:00:00.000Z"; sub_pushTime := "20:00";
        sub_status := ENABLED; sub_lastPush := EmptyString |}] ∧
  length (subscriptions st3) = 5%nat.
Proof.
  intros first again st1 st2 st3.
  destruct (resubscribe_after_cancel_reuses_row first again unsubscribe_ok
              "U-new" "daily" "每日太空氣象報告" "report" (Some "08:00") (Some "20:00")
              Scenario.st) as (_ & Hrec & Hlen).
  - split; [by eexists|]. eapply bool_decide_unpack. vm_compute. exact I.
  - reflexivity.
  - split; reflexivity.
  - split; reflexivity.
  - reflexivity.
  - reflexivity.
  - split; [exact Hrec|exact Hlen].
Defined.

(** X8.  A subscribe during which the spreadsheet fails -- at the read or
    at the write -- changes no row: it answers 訂閱失敗 and  logs the error
    once.  With X5 this makes the answer of [addSubscription] tell whether
    the subscription is stored. *)
Theorem addSubscription_failure_changes_nothing (w : SubscribeWorld)
    (user type name : string) (pushTime : option string) (st : State) (e : string) :
  is_Some (doc st ≫= sheet_subscriptions) →
  subscribe_fault w = Some e →
  let call := addSubscription w user type name pushTime in
  result call st = Returned {| success := false; reply_message := Some "訂閱失敗" |} ∧
  doc (exec call st) = doc st ∧
  added call st = [EvError "訂閱失敗:" e].
Proof.
  intros (d & Hd & Hs)%sheet_rows Hfault call. subst call.
  assert (Hsheet : doc st ≫= sheet_subscriptions = Some (subscriptions st))
    by by rewrite Hd.
  assert (Hrun : addSubscription w user type name pushTime st
                 = (Returned {| success := false; reply_message := Some "訂閱失敗" |},
                    with_event (EvError "訂閱失敗:" e) st)).
  { unfold addSubscription. erewrite bind_run by reflexivity. rewrite Hd.
    unfold subscribe_fault in Hfault.
    destruct (subscribe_read w) as [e'|] eqn:Hread.
    - injection Hfault as ->.
      erewrite try_catch_throw; [reflexivity|].
      erewrite bind_throw; [reflexivity|].
      by rewrite (getRows_run _ _ _ Hsheet).
    - erewrite try_catch_throw; [reflexivity|].
      erewrite bind_run by (rewrite (getRows_run _ _ _ Hsheet); reflexivity).
      unfold save, addRow. rewrite Hfault.
      destruct (list_find _ _) as [[i existing]|];
        (erewrite bind_throw; [reflexivity|]);
        by erewrite bind_throw by reflexivity. }
  erewrite result_run, exec_run by exact Hrun. split; [done|]. split; [done|].
  apply added_eq. by erewrite exec_run by exact Hrun.
Qed.

Lemma addSubscription_failure_changes_nothing_witness :
  let w := {| subscribe_read := None; subscribe_write := Some "Quota exceeded";
              subscribe_time := "2025-12-25T03:00:00.000Z" |} in
  let call := addSubscription w "U-new" "daily" "每日太空氣象報告" (Some "08:00") in
  result call Scenario.st
    = Returned {| success := false; reply_message := Some "訂閱失敗" |} ∧
  subscriptions (exec call Scenario.st) = Scenario.rows.
Proof.
  intros w call.
  destruct (addSubscription_failure_changes_nothing w "U-new" "daily" "每日太空氣象報告"
              (Some "08:00") Scenario.st "Quota exceeded") as (Hres & Hdoc & _).
  - by eexists.
  - reflexivity.
  - split; [exact Hres|]. unfold subscriptions, call. rewrite Hdoc. reflexivity.
Defined.

(** ** What a push answers *)

Lemma linePush_answer cfg w u p st :
  ∃ st' evs,
    linePush cfg w u p st = (Returned (push_reported cfg w st), st') ∧
    push_frame st st' ∧
    log_present st' = log_present st ∧
    trace st' = trace st ++ EvLinePush u p :: evs ∧
    line_pushes evs = [].
Proof.
  remember (push_reported cfg w st) as b0 eqn:Hb.
  assert (Hfin : ∀ (b : bool) st' evs,
    b = b0 →
    push_frame st st' → log_present st' = log_present st →
    trace st' = trace st ++ EvLinePush u p :: evs →
    line_pushes evs = [] →
    ∃ st0 evs0, (Returned b, st') = (Returned b0, st0) ∧
      push_frame st st0 ∧ log_present st0 = log_present st ∧
      trace st0 = trace st ++ EvLinePush u p :: evs0 ∧
      line_pushes evs0 = []).
  { intros b st' evs -> ? ? ? ?. eauto 10. }
  unfold push_reported, push_accepted, push_sent, accepted in Hb.
  unfold linePush, record_push. run.
  destruct (JS.is_set _); cbn [negb andb] in *.
  2:{ apply (Hfin _ _ []); try done. }
  destruct (push_response w) as [[|]|e]; cbn [negb andb] in *; st_simpl;
    [unfold log_present in Hb;
     destruct (doc st) as [d|] eqn:Hd;
       [destruct (sheet_pushLog d) as [rows|] eqn:Hs;
          [destruct (push_log_write w) eqn:Hw|]|]
    |destruct (push_error w)|];
    (eapply Hfin;
     [ | | | st_simpl; rewrite <- ?app_assoc; reflexivity | done ];
     [ subst b0; cbn; rewrite ?bool_decide_eq_true_2 by eauto;
       rewrite ?bool_decide_eq_false_2 by (by intros [? ?]); done
     | unfold push_frame; st_simpl; rewrite ?Hd; done
     | unfold log_present; st_simpl; rewrite ?Hd; cbn; rewrite ?Hs; done ]).
Qed.

(** X9.  [linePush] never throws, and it answers [true] exactly when the
    access token is set, LINE accepted the request and -- where the
    spreadsheet has a delivery log -- the log took the row.  So a push that
    LINE delivered is answered [false] when writing its record fails. *)
Theorem linePush_answers_delivered_and_logged (cfg : Config) (w : PushWorld)
    (user : string) (messages : payload) (st : State) :
  let call := linePush cfg w user messages in
  (∃ b, result call st = Returned b) ∧
  (result call st = Returned true ↔
   JS.is_set (LINE_CHANNEL_ACCESS_TOKEN cfg) = true ∧
   push_response w = Returned true ∧
   (log_present st = true → push_log_write w = None)).
Proof.
  intros call. subst call.
  destruct (linePush_answer cfg w user messages st) as (st' & evs & Hrun & _).
  erewrite result_run by exact Hrun. split; [eauto|].
  unfold push_reported, push_accepted, push_sent, accepted.
  destruct (JS.is_set _); cbn; [|split; [done|by intros [? _]]].
  destruct (push_response w) as [[|]|e]; cbn;
    [|split; [done|by intros (_ & ? & _)]..].
  destruct (log_present st); cbn.
  - destruct (push_log_write w) as [e|]; cbn.
    + split; [done|]. intros (_ & _ & H). by specialize (H eq_refl).
    + done.
  - done.
Qed.

(** ** Broadcast *)

Lemma reported_from_ext cfg pw st st' i n :
  log_present st' = log_present st →
  reported_from cfg pw st' i n = reported_from cfg pw st i n.
Proof. intros H. unfold reported_from, push_reported. by rewrite H. Qed.

Lemma count_loop cfg (pw : nat → PushWorld) (msg : payload) (xs : list Subscriber) :
  ∀ (i sent : nat) (st : State),
    ∃ st' evs,
      count_from i xs sent (λ i user, linePush cfg (pw i) (userId user) msg) st
      = (Returned (sent + length (reported_from cfg pw st i (length xs)))%nat, st') ∧
      push_frame st st' ∧
      log_present st' = log_present st ∧
      trace st' = trace st ++ evs ∧
      line_pushes evs = (λ u, (userId u, msg)) <$> xs.
Proof.
  induction xs as [|x xs IH]; intros i sent st.
  - exists st, []. cbn. rewrite Nat.add_0_r, app_nil_r. done.
  - destruct (linePush_answer cfg (pw i) (userId x) msg st)
      as (st1 & evs1 & Hrun & Hfr & Hlog & Htr & Hlp).
    destruct (IH (S i) (if push_reported cfg (pw i) st then S sent else sent) st1)
      as (st2 & evs2 & Hrun2 & Hfr2 & Hlog2 & Htr2 & Hlp2).
    exists st2, ((EvLinePush (userId x) msg :: evs1) ++ evs2).
    split.
    { cbn [count_from]. erewrite bind_run by exact Hrun. rewrite Hrun2.
      rewrite (reported_from_ext cfg pw st st1) by done.
      f_equal. f_equal. unfold reported_from. cbn [length seq List.filter].
      destruct (push_reported cfg (pw i) st); cbn [length]; lia. }
    split; [by etrans|]. split; [congruence|].
    split; [by rewrite Htr2, Htr, <- app_assoc|].
    rewrite line_pushes_app. simpl. by rewrite Hlp, Hlp2.
Qed.

Lemma reported_from_length cfg pw st i n :
  (length (reported_from cfg pw st i n) ≤ n)%nat.
Proof.
  unfold reported_from. etrans; [apply List.filter_length_le|]. by rewrite length_seq.
Qed.

(** X10.  The broadcast endpoint.  A request without a topic or without a
    message is answered [{ success: false }] and nothing else happens.
    Otherwise [linePush] is called once for every active subscriber of the
    topic, in the order of the sheet, whether or not earlier pushes
    succeeded; [total] is the number of these subscribers, [sent] the
    number of pushes that answered [true], so [sent] never exceeds [total];
    and the endpoint always answers. *)
Theorem broadcast_counts_every_subscriber (cfg : Config) (w : BroadcastWorld)
    (type : option string) (message : option payload) (st : State) :
  let call := broadcast cfg w type message in
  (JS.is_set type && payload_truthy message = false →
   call st = (Returned {| bc_success := false; bc_message := Some "缺少必要參數";
                          bc_sent := None; bc_total := None |}, st)) ∧
  (∀ t m, type = Some t → message = Some m →
     JS.is_set type && payload_truthy message = true →
     let subscribers := active_subscribers (broadcast_read w) t st in
     let sent := length (reported_from cfg (broadcast_push w) st 0 (length subscribers)) in
     result call st
       = Returned {| bc_success := true; bc_message := None;
                     bc_sent := Some sent; bc_total := Some (length subscribers) |} ∧
     (sent ≤ length subscribers)%nat ∧
     line_pushes (added call st) = (λ s, (userId s, m)) <$> subscribers).
Proof.
  intros call. subst call. split.
  - unfold broadcast. destruct type as [t|], message as [m|]; cbn; try done.
    destruct (JS.truthy t); cbn; [|done]. by intros ->.
  - intros t m -> -> Hguard subscribers sent.
    apply andb_true_iff in Hguard as [Ht Hm]. cbn [JS.is_set] in Ht.
    destruct (count_loop cfg (broadcast_push w) m subscribers 0 0 st)
      as (st' & evs & Hrun & _ & _ & Htr & Hlp).
    assert (Hcall : broadcast cfg w (Some t) (Some m) st
                    = (Returned {| bc_success := true; bc_message := None;
                                   bc_sent := Some sent;
                                   bc_total := Some (length subscribers) |}, st')).
    { unfold broadcast. rewrite Ht, Hm. cbn [negb orb].
      erewrite bind_run by apply getSubscribersByType_run.
      fold subscribers. erewrite bind_run by exact Hrun. done. }
    erewrite result_run by exact Hcall. split; [done|].
    split; [apply reported_from_length|].
    erewrite added_eq; [exact Hlp|]. by erewrite exec_run by exact Hcall.
Qed.

Lemma broadcast_counts_every_subscriber_witness :
  let call := broadcast Sample.cfg Tour.second_refused (Some "aurora")
                (Some (Text "notice")) in
  result call Tour.audience
    = Returned {| bc_success := true; bc_message := None;
                  bc_sent := Some 2%nat; bc_total := Some 3%nat |} ∧
  line_pushes (added call Tour.audience)
    = [("U-1", Text "notice"); ("U-2", Text "notice"); ("U-3", Text "notice")].
Proof.
  intros call.
  destruct (broadcast_counts_every_subscriber Sample.cfg Tour.second_refused
              (Some "aurora") (Some (Text "notice")) Tour.audience) as [_ H].
  destruct (H "aurora" (Text "notice") eq_refl eq_refl eq_refl) as (Hres & _ & Hlp).
  split; [exact Hres|exact Hlp].
Defined.

(** ** The webhook *)

Section WebhookGate.

Variable hmac_sha256_base64 : string → string → string.
Variable handleTextMessage handleFollow handleUnfollow : WebhookEvent → M unit.
Variable cfg : Config.

(** X11.  With the access token and the channel secret set, a request
    whose signature is not the HMAC-SHA256 of its raw body under the secret
    never reaches a handler.  When the request has a raw body, the webhook
    answers 401 [Invalid signature] and logs the rejection.  When it has
    none -- no JSON body was parsed -- the signature check itself throws:
    the webhook ends without an answer and without having done anything.  A
    request with the right signature goes on to the event loop. *)
Theorem webhook_rejects_wrong_signature (req : Request) (st : State)
    (secret : string) :
  JS.is_set (LINE_CHANNEL_ACCESS_TOKEN cfg) = true →
  LINE_CHANNEL_SECRET cfg = Some secret →
  JS.truthy secret = true →
  let call :=
    webhook hmac_sha256_base64 handleTextMessage handleFollow handleUnfollow cfg req in
  (∀ raw, req_rawBody req = Some raw →
     req_signature req ≠ Some (hmac_sha256_base64 secret raw) →
     call st = (Returned {| status := 401; body := "Invalid signature" |},
                with_event (EvError "❌ [LINE] 簽名驗證失敗" EmptyString) st)) ∧
  (req_rawBody req = None →
     call st = (Threw "The data argument must be of type string or Buffer", st)) ∧
  (∀ raw, req_rawBody req = Some raw →
     req_signature req = Some (hmac_sha256_base64 secret raw) →
     call st
     = match req_body_events req with
       | EventsArray events =>
           (Returned {| status := 200; body := "OK" |},
            foldl (λ st event,
                     exec (handled handleTextMessage handleFollow handleUnfollow event) st)
                  st events)
       | EventsAbsent => (Returned {| status := 200; body := "OK" |}, st)
       | EventsOther => (Threw "events is not iterable", st)
       end).
Proof.
  intros Htoken Hsec Htruthy call. subst call. split_and!.
  - intros raw Hraw Hbad. unfold webhook. rewrite Htoken. cbn [negb].
    rewrite Hsec. cbn [JS.is_set]. rewrite Htruthy.
    erewrite bind_run.
    2:{ erewrite bind_run; [reflexivity|].
        unfold validateLineSignature. rewrite Hsec, Hraw, Htruthy. cbn [negb].
        reflexivity. }
    rewrite bool_decide_eq_false_2 by congruence. cbn [negb].
    by erewrite bind_run by reflexivity.
  - intros Hraw. unfold webhook. rewrite Htoken. cbn [negb].
    rewrite Hsec. cbn [JS.is_set]. rewrite Htruthy.
    erewrite bind_throw; [reflexivity|].
    erewrite bind_throw; [reflexivity|].
    unfold validateLineSignature. rewrite Hsec, Hraw, Htruthy. reflexivity.
  - intros raw Hraw Hgood. rewrite webhook_gate; [|done|right; eauto].
    unfold req_events. by destruct (req_body_events req).
Qed.

(** X12.  Once a request is past the token check and the signature gate,
    what the webhook does depends on the [events] of the request alone.  If
    they are an array, or absent, the webhook answers 200 [OK] whatever the
    handlers do, and every event was handled, in order, each from the state
    the one before it left: a handler that throws costs one logged line and
    does not keep the events after it from being handled.  If they are
    anything else, the webhook throws before it handles an event or
    answers. *)
Theorem webhook_handles_every_event (req : Request) (st : State) :
  JS.is_set (LINE_CHANNEL_ACCESS_TOKEN cfg) = true →
  signature_accepted hmac_sha256_base64 cfg req →
  let call :=
    webhook hmac_sha256_base64 handleTextMessage handleFollow handleUnfollow cfg req in
  let step (st : State) (event : WebhookEvent) : State :=
    match handle_event handleTextMessage handleFollow handleUnfollow event st with
    | (Returned _, st') => st'
    | (Threw e, st') => with_event (EvError "❌ [LINE] 處理事件錯誤:" e) st'
    end in
  (∀ events, req_body_events req = EventsArray events →
     call st = (Returned {| status := 200; body := "OK" |}, foldl step st events)) ∧
  (req_body_events req = EventsAbsent →
     call st = (Returned {| status := 200; body := "OK" |}, st)) ∧
  (req_body_events req = EventsOther →
     call st = (Threw "events is not iterable", st)).
Proof.
  intros Htoken Hsig call step. subst call.
  rewrite (webhook_gate _ _ _ _ _ req st Htoken Hsig). unfold req_events.
  split_and!; [intros events ->|intros ->; reflexivity..].
  cbn [default from_option id]. by rewrite event_loop_states.
Qed.

End WebhookGate.

Lemma webhook_rejects_wrong_signature_witness :
  let handler := Stub.echo Sample.cfg in
  let call := webhook Stub.hmac handler handler handler Sample.cfg
                (Tour.forged [Scenario.follow]) in
  result call Scenario.st = Returned {| status := 401; body := "Invalid signature" |} ∧
  line_pushes (added call Scenario.st) = [].
Proof.
  intros handler call.
  destruct (webhook_rejects_wrong_signature Stub.hmac handler handler handler Sample.cfg
              (Tour.forged [Scenario.follow]) Scenario.st "secret")
    as [Hbad _]; [reflexivity..|].
  unfold call, result, added, exec. rewrite (Hbad "{}") by done. split; reflexivity.
Defined.

Lemma webhook_handles_every_event_witness :
  let handler := Stub.echo Sample.cfg in
  let call := webhook Stub.hmac handler handler handler Sample.cfg
                (Tour.signed [Tour.broken; Scenario.follow]) in
  result call Scenario.st = Returned {| status := 200; body := "OK" |} ∧
  line_pushes (added call Scenario.st) = [("U-new", Text "hello")] ∧
  length (errors_with "❌ [LINE] 處理事件錯誤:" (added call Scenario.st)) = 1%nat.
Proof.
  intros handler call.
  destruct (webhook_handles_every_event Stub.hmac handler handler handler Sample.cfg
              (Tour.signed [Tour.broken; Scenario.follow]) Scenario.st)
    as [Hrun _].
  - reflexivity.
  - right. exists "secret", "{}". split_and!; reflexivity.
  - unfold call, result, added, exec. rewrite (Hrun _ eq_refl). split_and!; reflexivity.
Defined.

(** ** Unfollowing *)

Section Unfollow.

Variable hmac_sha256_base64 : string → string → string.
Variable handleTextMessage : WebhookEvent → M unit.
Variable toFixed : nat → Q → string.
Variable report_text : string → Snapshot → string.
Variable aurora_text : Snapshot → string.
Variable cfg : Config.

(** X13.  When LINE reports that a user has blocked the bot (an [unfollow]
    event) and the unsubscribe reaches the sheet, every subscription of that
    user is 停用 once the webhook has answered, and from then on no timer calls
    [linePush] for that user, however many reports, alert checks and
    recording passes follow. *)
Theorem unfollow_ends_all_pushes (req : Request) (event : WebhookEvent)
    (welcome : PushWorld) (w : UnsubscribeWorld) (jobs : list job) (st : State) :
  JS.is_set (LINE_CHANNEL_ACCESS_TOKEN cfg) = true →
  signature_accepted hmac_sha256_base64 cfg req →
  req_events req = Some [event] →
  ev_type event = "unfollow" →
  is_Some (doc st ≫= sheet_subscriptions) →
  unsubscribe_read w = None →
  (∀ i, unsubscribe_save w i = None) →
  let user := ev_userId event in
  let call := webhook hmac_sha256_base64 handleTextMessage (handleFollow cfg welcome)
                (handleUnfollow w) cfg req in
  let st1 := exec call st in
  let st2 := after_jobs toFixed report_text aurora_text cfg jobs st1 in
  result call st = Returned {| status := 200; body := "OK" |} ∧
  subscriptions st1 = cancel user None <$> subscriptions st ∧
  inactive user st2 ∧
  ∃ evs, trace st2 = trace st1 ++ evs ∧
         Forall (λ c, c.1 ≠ user) (line_pushes evs).
Proof.
  intros Htoken Hsig Hevents Htype Hsome Hread Hsave user call st1 st2.
  pose proof (webhook_gate hmac_sha256_base64 handleTextMessage (handleFollow cfg welcome)
                (handleUnfollow w) cfg req st Htoken Hsig) as Hrun.
  unfold req_events in Hevents, Hrun.
  destruct (req_body_events req) as [|l|]; [done| |done]. injection Hevents as ->.
  cbn [default from_option id foldl] in Hrun.
  destruct (removeSubscription_cancels w user None st Hsome Hread) as (Hrm & Hrows & _).
  { intros. apply Hsave. }
  assert (Hst1 : st1 = exec (removeSubscription w user None) st).
  { subst st1 call. erewrite exec_run by exact Hrun.
    unfold handled, handle_event. rewrite Htype. cbn [String.eqb Ascii.eqb Bool.eqb].
    unfold handleUnfollow. fold user. unfold exec at 1.
    erewrite try_catch_run; [reflexivity|].
    erewrite bind_run by exact Hrm. reflexivity. }
  pose proof (removeSubscription_inactive w user st Hsome Hread Hsave) as Hin.
  rewrite <- Hst1 in Hin.
  pose proof (after_jobs_unreached toFixed report_text aurora_text cfg user jobs st1 Hin)
    as Hun. fold st2 in Hun.
  split; [by subst call; erewrite result_run by exact Hrun|].
  split; [by rewrite Hst1|].
  split; [by eapply unreached_inactive|].
  by destruct Hun as [_ Hev].
Qed.

End Unfollow.

Lemma unfollow_ends_all_pushes_witness :
  let call := webhook Stub.hmac (Stub.echo Sample.cfg)
                (handleFollow Sample.cfg Sample.push_ok) (handleUnfollow unsubscribe_ok)
                Sample.cfg (Tour.signed [Tour.unfollow "U-daily"]) in
  let st1 := exec call Scenario.st in
  let st2 := after_jobs Stub.toFixed Stub.report_text Stub.aurora_text Sample.cfg
               [Daily (Scenario.tick "08:00")] st1 in
  inactive "U-daily" st2 ∧ line_pushes (trace st2) = [].
Proof.
  intros call st1 st2.
  destruct (unfollow_ends_all_pushes Stub.hmac (Stub.echo Sample.cfg) Stub.toFixed
              Stub.report_text Stub.aurora_text Sample.cfg
              (Tour.signed [Tour.unfollow "U-daily"]) (Tour.unfollow "U-daily")
              Sample.push_ok unsubscribe_ok [Daily (Scenario.tick "08:00")] Scenario.st)
    as (_ & _ & Hin & _).
  - reflexivity.
  - right. exists "secret", "{}". split_and!; reflexivity.
  - reflexivity.
  - reflexivity.
  - by eexists.
  - reflexivity.
  - reflexivity.
  - split; [exact Hin|]. vm_compute. reflexivity.
Defined.

(** ** Readings of the fetchers and the alert level *)

Ltac qbool :=
  repeat match goal with
  | H : Qle_bool _ _ = true |- _ => apply Qle_bool_iff in H
  | H : Qle_bool _ _ = false |- _ =>
      apply not_true_iff_false in H; rewrite Qle_bool_iff in H
  | H : Qeq_bool _ _ = true |- _ => apply Qeq_bool_iff in H
  | H : Qeq_bool _ _ = false |- _ => apply Qeq_bool_neq in H
  end.

Section Readings.

Variable parseFloat : string → option Q.
Variable toFixed : nat → Q → string.

Lemma fetchKpIndex_run response st :
  ∃ reading st',
    fetchKpIndex parseFloat response st = (Returned reading, st') ∧
    (reading = None ∨ ∃ t k, reading = Some (kp_reading t k)).
Proof.
  unfold fetchKpIndex, try_catch, await.
  destruct response as [data|e].
  - erewrite bind_run by reflexivity.
    destruct (last _) as [latest|]; eauto 10.
  - erewrite bind_throw by reflexivity. unfold emit, modify.
    erewrite bind_run by reflexivity. eauto.
Qed.

Lemma fetchXrayFlux_run response st :
  ∃ reading st',
    fetchXrayFlux parseFloat toFixed response st = (Returned reading, st') ∧
    (reading = None ∨ ∃ t flux, reading = Some (xray_reading toFixed t flux)).
Proof.
  unfold fetchXrayFlux, try_catch, await.
  destruct response as [data|e].
  - erewrite bind_run by reflexivity.
    destruct (last _) as [latest|]; eauto 10.
  - erewrite bind_throw by reflexivity. unfold emit, modify.
    erewrite bind_run by reflexivity. eauto.
Qed.

Lemma fetchProtonFlux_run response st :
  ∃ reading st',
    fetchProtonFlux parseFloat response st = (Returned reading, st') ∧
    (reading = None ∨ ∃ t flux, reading = Some (proton_reading t flux)).
Proof.
  unfold fetchProtonFlux, try_catch, await.
  destruct response as [data|e].
  - erewrite bind_run by reflexivity.
    destruct (last _) as [latest|]; eauto 10.
  - erewrite bind_throw by reflexivity. unfold emit, modify.
    erewrite bind_run by reflexivity. eauto.
Qed.

Lemma fetched_kp reading :
  fetched (fetchKpIndex parseFloat) reading →
  reading = None ∨ ∃ t k, reading = Some (kp_reading t k).
Proof.
  intros (response & st & Hres).
  destruct (fetchKpIndex_run response st) as (r & st' & Hrun & Hshape).
  erewrite result_run in Hres by exact Hrun. by injection Hres as <-.
Qed.

Lemma fetched_xray reading :
  fetched (fetchXrayFlux parseFloat toFixed) reading →
  reading = None ∨ ∃ t flux, reading = Some (xray_reading toFixed t flux).
Proof.
  intros (response & st & Hres).
  destruct (fetchXrayFlux_run response st) as (r & st' & Hrun & Hshape).
  erewrite result_run in Hres by exact Hrun. by injection Hres as <-.
Qed.

Lemma fetched_proton reading :
  fetched (fetchProtonFlux parseFloat) reading →
  reading = None ∨ ∃ t flux, reading = Some (proton_reading t flux).
Proof.
  intros (response & st & Hres).
  destruct (fetchProtonFlux_run response st) as (r & st' & Hrun & Hshape).
  erewrite result_run in Hres by exact Hrun. by injection Hres as <-.
Qed.

Lemma geomagnetic_level kp :
  fetched (fetchKpIndex parseFloat) kp →
  ∃ msgs,
    (∀ st, alert_geomagnetic kp (kpValue_of kp) ("normal", []) st
           = (Returned (level_name (kp_severity kp), msgs), st)) ∧
    length msgs = (1 `min` kp_severity kp)%nat.
Proof.
  intros [->|(t & k & ->)]%fetched_kp.
  - exists []. done.
  - unfold alert_geomagnetic, kpValue_of, kp_severity, JS.or_num, gLevel_of.
    cbn [kp_reading kp_kp kp_gLevel].
    destruct (Qeq_bool k 0) eqn:H0.
    + destruct (Qle_bool 7 k) eqn:H7; [qbool; lra|].
      destruct (Qle_bool 5 k) eqn:H5; [qbool; lra|].
      exists []. done.
    + destruct (Qle_bool 7 k) eqn:H7; [eexists; split; [reflexivity|done]|].
      destruct (Qle_bool 5 k) eqn:H5; [eexists; split; [reflexivity|done]|].
      exists []. done.
Qed.

Lemma flare_level xray (n : nat) (msgs : list string) :
  fetched (fetchXrayFlux parseFloat toFixed) xray →
  (n ≤ 2)%nat →
  ∃ more,
    alert_flare xray (level_name n, msgs)
    = (level_name (n `max` flare_severity xray), msgs ++ more) ∧
    length more = (1 `min` flare_severity xray)%nat.
Proof.
  intros [->|(t & flux & ->)]%fetched_xray Hn.
  - exists []. cbn. by rewrite Nat.max_0_r, app_nil_r.
  - unfold alert_flare, flare_severity, xray_reading.
    destruct (flare_for flux) as [c l] eqn:Hf.
    cbn [x_flux x_flareClass x_fullClass]. unfold flare_for in Hf.
    destruct (Qle_bool (1 # 10000) flux) eqn:H4.
    { injection Hf as <- <-. eexists. split; [destruct n as [|[|[|n]]]; [reflexivity..|lia]|reflexivity]. }
    destruct (Qle_bool (1 # 100000) flux) eqn:H5.
    { injection Hf as <- <-. eexists. split; [destruct n as [|[|[|n]]]; [reflexivity..|lia]|reflexivity]. }
    exists []. rewrite Nat.max_0_r, app_nil_r. split; [|done].
    destruct (Qle_bool (1 # 1000000) flux); [by injection Hf as <- <-|].
    destruct (Qle_bool (1 # 10000000) flux); by injection Hf as <- <-.
Qed.

Lemma radiation_level proton (n : nat) (msgs : list string) :
  fetched (fetchProtonFlux parseFloat) proton →
  (n ≤ 2)%nat →
  ∃ more,
    alert_radiation proton (level_name n, msgs)
    = (level_name (n `max` radiation_severity proton), msgs ++ more) ∧
    length more = (1 `min` radiation_severity proton)%nat.
Proof.
  intros [->|(t & flux & ->)]%fetched_proton Hn.
  - exists []. cbn. by rewrite Nat.max_0_r, app_nil_r.
  - unfold alert_radiation, radiation_severity, proton_reading, sLevel_for.
    cbn [p_sLevel p_flux].
    destruct (Qle_bool 100000 flux) eqn:H5.
    { assert (Qle_bool 1000 flux = true) as -> by (apply Qle_bool_iff; qbool; lra).
      eexists. split; [destruct n as [|[|[|n]]]; [reflexivity..|lia]|reflexivity]. }
    destruct (Qle_bool 10000 flux) eqn:H4.
    { assert (Qle_bool 1000 flux = true) as -> by (apply Qle_bool_iff; qbool; lra).
      eexists. split; [destruct n as [|[|[|n]]]; [reflexivity..|lia]|reflexivity]. }
    destruct (Qle_bool 1000 flux) eqn:H3.
    { eexists. split; [destruct n as [|[|[|n]]]; [reflexivity..|lia]|reflexivity]. }
    destruct (Qle_bool 100 flux) eqn:H2.
    { assert (Qle_bool 10 flux = true) as -> by (apply Qle_bool_iff; qbool; lra).
      eexists. split; [destruct n as [|[|[|n]]]; [reflexivity..|lia]|reflexivity]. }
    destruct (Qle_bool 10 flux) eqn:H1.
    { eexists. split; [destruct n as [|[|[|n]]]; [reflexivity..|lia]|reflexivity]. }
    cbn. exists []. rewrite Nat.max_0_r, app_nil_r. done.
Qed.

(** X14.  The alert level of a snapshot is decided by three numbers.  For
    readings as the Kp, X-ray and proton fetchers return them, the level is
    [severe] exactly when Kp is at least 7, the X-ray flux at least 1e-4 or
    the proton flux at least 1000; it is [warning] when none of these holds
    but Kp is at least 5, the X-ray flux at least 1e-5 or the proton flux at
    least 10; it is [normal] otherwise.  There is one alert message for each
    of the three categories that is at warning or above, and none for a
    reading that is missing. *)
Theorem alert_level_follows_thresholds (w : SnapshotWorld) (force : bool)
    (st : State) (r : Readings) :
  cache_miss force (snap_now w) st →
  snap_upstream w = Returned r →
  fetched (fetchKpIndex parseFloat) (r_kp r) →
  fetched (fetchXrayFlux parseFloat toFixed) (r_xray r) →
  fetched (fetchProtonFlux parseFloat) (r_proton r) →
  let severity :=
    ((kp_severity (r_kp r) `max` flare_severity (r_xray r))
       `max` radiation_severity (r_proton r))%nat in
  ∃ s, result (getSpaceWeather w force) st
         = Returned {| oid := next_oid st; value := Built s |} ∧
       alertLevel s = level_name severity ∧
       length (alertMessages s)
       = ((1 `min` kp_severity (r_kp r)) + (1 `min` flare_severity (r_xray r))
          + (1 `min` radiation_severity (r_proton r)))%nat.
Proof.
  intros Hmiss%cache_hit_None Hup Hkp Hx Hp severity. subst severity.
  destruct (getSpaceWeather_resolved w force st r Hmiss Hup) as (s & Hb & Hrun).
  cbn zeta in Hrun. exists s. split; [by erewrite result_run by exact Hrun|].
  destruct (geomagnetic_level (r_kp r) Hkp) as (m1 & Hgeo & Hlen1).
  assert (Hk2 : (kp_severity (r_kp r) ≤ 2)%nat).
  { unfold kp_severity. destruct (r_kp r); [|lia]. repeat case_match; lia. }
  destruct (flare_level (r_xray r) (kp_severity (r_kp r)) m1 Hx Hk2) as (m2 & Hfl & Hlen2).
  assert (Hf2 : (kp_severity (r_kp r) `max` flare_severity (r_xray r) ≤ 2)%nat).
  { unfold flare_severity. destruct (r_xray r); [|lia]. repeat case_match; lia. }
  destruct (radiation_level (r_proton r) _ (m1 ++ m2) Hp Hf2) as (m3 & Hrad & Hlen3).
  specialize (Hb st). unfold build_snapshot in Hb.
  erewrite bind_run in Hb by apply Hgeo.
  rewrite Hfl, Hrad in Hb. injection Hb as <-.
  cbn [alertLevel alertMessages]. split; [done|].
  rewrite !length_app. lia.
Qed.

Lemma gLevel_for_G0 k : gLevel_for k ≠ "G0" ↔ (5 <= k)%Q.
Proof.
  unfold gLevel_for.
  destruct (Qle_bool 9 k) eqn:H9; [split; [qbool; lra|done]|].
  destruct (Qle_bool 8 k) eqn:H8; [split; [qbool; lra|done]|].
  destruct (Qle_bool 7 k) eqn:H7; [split; [qbool; lra|done]|].
  destruct (Qle_bool 6 k) eqn:H6; [split; [qbool; lra|done]|].
  destruct (Qle_bool 5 k) eqn:H5; [split; [qbool; lra|done]|].
  split; [done|]. qbool. intros. lra.
Qed.

Lemma flare_for_X flux : (flare_for flux).1 = "X" ↔ (1 # 10000 <= flux)%Q.
Proof.
  unfold flare_for.
  destruct (Qle_bool (1 # 10000) flux) eqn:H4; [split; [qbool; lra|done]|].
  assert (¬ (1 # 10000 <= flux)%Q) by (by qbool).
  destruct (Qle_bool (1 # 100000) flux); [done|].
  destruct (Qle_bool (1 # 1000000) flux); [done|].
  destruct (Qle_bool (1 # 10000000) flux); done.
Qed.

(** X15.  The two alert conditions of [checkAlerts], read on a snapshot
    built from what the fetchers return: the aurora alert is due exactly
    when the geomagnetic storm level shown in the snapshot is G1 or higher,
    and the flare alert exactly when the X-ray flux is at least 1e-4 W/m2.
    A reading that is missing (the snapshot then shows its default) is due
    for neither. *)
Theorem alert_conditions_match_scales (w : SnapshotWorld) (st : State) (r : Readings) :
  snap_upstream w = Returned r →
  fetched (fetchKpIndex parseFloat) (r_kp r) →
  fetched (fetchXrayFlux parseFloat toFixed) (r_xray r) →
  ∃ s, forced_read w st = Built s ∧
       (crossed TopicAurora (Built s) = true ↔ kp_gLevel (kp s) ≠ "G0") ∧
       (crossed TopicFlare (Built s) = true ↔ (1 # 10000 <= x_flux (xray s))%Q).
Proof.
  intros Hup Hkp Hx.
  destruct (getSpaceWeather_resolved w true st r (cache_hit_forced _ _) Hup)
    as (s & Hb & Hrun). cbn zeta in Hrun.
  destruct (build_snapshot_run r (snap_timestamp w))
    as (s' & Hb' & _ & _ & _ & _ & Hkps & Hxs & _).
  assert (s' = s) as -> by (specialize (Hb st); specialize (Hb' st); congruence).
  exists s. split.
  { unfold forced_read. by erewrite result_run by exact Hrun. }
  cbn [crossed kp_crossed flare_crossed data_kp data_xray]. rewrite Hkps, Hxs. split.
  - apply fetched_kp in Hkp as [->|(t & k & ->)]; cbn; [done|].
    rewrite gLevel_for_G0. apply Qle_bool_iff.
  - apply fetched_xray in Hx as [->|(t & flux & ->)]; cbn [default from_option id].
    + cbn. split; [done|]. intros H. exfalso. revert H. apply Qlt_not_le. reflexivity.
    + unfold xray_reading. pose proof (flare_for_X flux) as HX.
      destruct (flare_for flux) as [c l]. cbn [x_flareClass x_flux fst] in *.
      rewrite <- HX. apply String.eqb_eq.
Qed.

End Readings.

Lemma alert_level_follows_thresholds_witness :
  let table_of (cell : string) : outcome table :=
    Returned [["time_tag"; "value"]; ["2025-12-25 03:00:00.000"; cell]] in
  let parse (cell : string) : option Q :=
    if String.eqb cell "6.00" then Some 6%Q
    else if String.eqb cell "2.5e-4" then Some (25 # 100000)%Q
    else None in
  let r := {| r_solarWind := None; r_magField := None;
              r_kp := Some (kp_reading (Some "2025-12-25 03:00:00.000") 6);
              r_xray := Some (xray_reading Stub.toFixed (Some "2025-12-25 03:00:00.000")
                                (25 # 100000));
              r_proton := None; r_electron := None; r_cme := []; r_nasaFlares := [];
              r_iss := None |} in
  ∃ s, result (getSpaceWeather (Sample.snapshot_world Sample.t0 r) true) initial_state
         = Returned {| oid := 0; value := Built s |} ∧
       alertLevel s = "severe" ∧ length (alertMessages s) = 2%nat.
Proof.
  intros table_of parse r.
  destruct (alert_level_follows_thresholds parse Stub.toFixed
              (Sample.snapshot_world Sample.t0 r) true initial_state r)
    as (s & Hres & Hlevel & Hlen).
  - by left.
  - reflexivity.
  - exists (table_of "6.00"), initial_state. reflexivity.
  - exists (table_of "2.5e-4"), initial_state. reflexivity.
  - exists (Threw "fetch failed"), initial_state. reflexivity.
  - exists s. split_and!; [exact Hres|exact Hlevel|exact Hlen].
Defined.

Lemma alert_conditions_match_scales_witness :
  let parse (cell : string) : option Q :=
    if String.eqb cell "6.00" then Some 6%Q else None in
  let r := {| r_solarWind := None; r_magField := None;
              r_kp := Some (kp_reading (Some "2025-12-25 03:00:00.000") 6);
              r_xray := None;
              r_proton := None; r_electron := None; r_cme := []; r_nasaFlares := [];
              r_iss := None |} in
  ∃ s, forced_read (Sample.snapshot_world Sample.t0 r) initial_state = Built s ∧
       kp_gLevel (kp s) = "G2" ∧
       crossed TopicAurora (Built s) = true ∧
       crossed TopicFlare (Built s) = false.
Proof.
  intros parse r.
  destruct (alert_conditions_match_scales parse Stub.toFixed
              (Sample.snapshot_world Sample.t0 r) initial_state r)
    as (s & Hread & Hkp & Hflare).
  - reflexivity.
  - exists (Returned [["time_tag"; "Kp"]; ["2025-12-25 03:00:00.000"; "6.00"]]),
      initial_state. reflexivity.
  - exists (Threw "fetch failed"), initial_state. reflexivity.
  - exists s. injection Hread as <-. split_and!; reflexivity.
Defined.

(** ** Aurora chances *)


Lemma round_ge (n : Z) (x : Q) : (inject_Z n <= x)%Q → n ≤ JS.round x.
Proof.
  intros H. unfold JS.round. rewrite <- (Qfloor_Z n). apply Qfloor_resp_le. lra.
Qed.

Lemma round_below (n : Z) (x : Q) : (x <= inject_Z n)%Q → JS.round x ≤ n.
Proof.
  intros H. unfold JS.round.
  assert (Hlt : (x + (1 # 2) < inject_Z (n + 1))%Q).
  { rewrite inject_Z_plus. change (inject_Z 1) with 1%Q. lra. }
  pose proof (Qfloor_le (x + (1 # 2))) as Hfl.
  assert (Hz : (inject_Z (Qfloor (x + (1 # 2))) < inject_Z (n + 1))%Q) by lra.
  rewrite <- Zlt_Qlt in Hz. lia.
Qed.






(** ** The cache never holds a failure *)

#[global] Instance cache_refreshed_preorder : PreOrder cache_refreshed.
Proof.
  split.
  - intros st. by left.
  - intros a b c [Hab|Hab] [Hbc|Hbc]; unfold cache_refreshed.
    + left. congruence.
    + by right.
    + right. by rewrite Hbc.
    + by right.
Qed.

Lemma cache_refreshed_sound st st' :
  cache_refreshed st st' → cache_sound st → cache_sound st'.
Proof.
  intros [Hsame|(o & s & Ho & Hs)] Hsound o' Ho'.
  - apply Hsound. by rewrite <- Hsame.
  - rewrite Ho in Ho'. injection Ho' as <-. eauto.
Qed.

Lemma keeps_cache_modify (f : State → State) :
  (∀ st, cachedSpaceWeather (f st) = cachedSpaceWeather st) →
  keeps cache_refreshed (modify f).
Proof. intros H st. left. apply H. Qed.

Lemma keeps_cache_emit e : keeps cache_refreshed (emit e).
Proof. by apply keeps_cache_modify. Qed.

Lemma keeps_cache_getSpaceWeather w force :
  keeps cache_refreshed (getSpaceWeather w force).
Proof.
  intros st.
  destruct (cache_hit force (snap_now w) st) as [o|] eqn:Hhit.
  { erewrite exec_run by (by apply getSpaceWeather_hit). reflexivity. }
  destruct (snap_upstream w) as [r|msg] eqn:Hup.
  - destruct (getSpaceWeather_resolved w force st r Hhit Hup) as (s & _ & Hrun).
    cbn zeta in Hrun. erewrite exec_run by exact Hrun. right. eauto.
  - erewrite exec_run by (by apply getSpaceWeather_rejected). by left.
Qed.

Lemma keeps_cache_linePush cfg w u p : keeps cache_refreshed (linePush cfg w u p).
Proof.
  intros st. destruct (linePush_run cfg w u p st) as (b & st' & evs & Hrun & Hfr & _).
  erewrite exec_run by exact Hrun. left. apply Hfr.
Qed.

Lemma keeps_cache_getSubscribersByType read type :
  keeps cache_refreshed (getSubscribersByType read type).
Proof.
  intros st. erewrite exec_run by apply getSubscribersByType_run. reflexivity.
Qed.

Lemma keeps_cache_append_row {R} (sheet : Doc → option (list R)) put f (row : M R) :
  keeps cache_refreshed row →
  keeps cache_refreshed (append_row sheet put f row).
Proof.
  intros Hrow. unfold append_row.
  apply (keeps_bind cache_refreshed); [apply (keeps_get cache_refreshed)|]. intros st0.
  destruct (doc st0) as [d|]; [|apply (keeps_throw cache_refreshed)].
  destruct (sheet d); [|apply (keeps_throw cache_refreshed)].
  apply (keeps_bind cache_refreshed); [done|]. intros r.
  apply (keeps_bind cache_refreshed); [apply (keeps_external cache_refreshed)|]. intros _.
  apply keeps_cache_modify. intros st. by destruct (doc st).
Qed.

Ltac keeps_cache :=
  repeat first
    [ assumption
    | apply keeps_cache_append_row
    | apply (keeps_ret cache_refreshed)
    | apply (keeps_throw cache_refreshed)
    | apply (keeps_get cache_refreshed)
    | apply (keeps_external cache_refreshed)
    | apply keeps_cache_emit
    | apply keeps_cache_getSpaceWeather
    | apply keeps_cache_linePush
    | apply keeps_cache_getSubscribersByType
    | apply (keeps_bind cache_refreshed); [|intros ?]
    | apply (keeps_try_catch cache_refreshed); [|intros ?]
    | apply (keeps_for_each_from cache_refreshed); intros ? ?
    | match goal with |- keeps _ (match ?x with _ => _ end) => destruct x end
    | match goal with |- keeps _ (if ?x then _ else _) => destruct x end
    | apply keeps_cache_modify; intros ?; try done ].

Section CacheJobs.

Variable toFixed : nat → Q → string.
Variable report_text : string → Snapshot → string.
Variable aurora_text : Snapshot → string.
Variable cfg : Config.

Lemma keeps_cache_dailyPush w : keeps cache_refreshed (dailyPush report_text cfg w).
Proof.
  unfold dailyPush, formatSpaceWeatherMessage, for_each. keeps_cache.
Qed.

Lemma keeps_cache_checkAlerts w :
  keeps cache_refreshed (checkAlerts toFixed aurora_text cfg w).
Proof.
  unfold checkAlerts, aurora_alert_text, flare_alert_text, formatAuroraMessage, for_each.
  keeps_cache.
Qed.

Lemma keeps_cache_recordData w : keeps cache_refreshed (recordData toFixed w).
Proof.
  unfold recordData, num_toFixed. keeps_cache.
Qed.

Lemma keeps_cache_jobs (jobs : list job) :
  ∀ st, cache_refreshed st (after_jobs toFixed report_text aurora_text cfg jobs st).
Proof.
  induction jobs as [|j jobs IH]; intros st; [reflexivity|].
  cbn [after_jobs foldl]. etrans; [|apply IH].
  destruct j; cbn [run_job].
  - apply keeps_cache_dailyPush.
  - apply keeps_cache_checkAlerts.
  - apply keeps_cache_recordData.
Qed.

(** X17.  The failure sentinel is never cached.  If the cache is empty or
    holds a built snapshot -- as it does when the process starts -- then it
    still does after any call of [getSpaceWeather] and after any run of the
    timers; so a call answered from the cache is always answered with a
    built snapshot, and a failed refresh is tried again by the next call
    that misses the cache. *)
Theorem cache_never_holds_failure (st : State) :
  cache_sound st →
  (∀ w force, cache_sound (exec (getSpaceWeather w force) st)) ∧
  (∀ jobs, cache_sound (after_jobs toFixed report_text aurora_text cfg jobs st)) ∧
  (∀ w o, cache_hit false (snap_now w) st = Some o →
     getSpaceWeather w false st = (Returned o, st) ∧ ∃ s, value o = Built s).
Proof.
  intros Hsound. split_and!.
  - intros w force. eapply cache_refreshed_sound; [|done].
    apply keeps_cache_getSpaceWeather.
  - intros jobs. eapply cache_refreshed_sound; [|done]. apply keeps_cache_jobs.
  - intros w o Hhit. split; [by apply getSpaceWeather_hit|].
    apply Hsound. unfold cache_hit in Hhit.
    destruct (cachedSpaceWeather st) as [o'|]; [|done].
    by destruct (_ && _); [injection Hhit as ->|].
Qed.

End CacheJobs.

Lemma cache_never_holds_failure_witness :
  let st := exec (getSpaceWeather (Sample.failing_world (Sample.t0 + 70000)) false)
              Sample.warm in
  cache_sound st ∧ cacheTime st = Sample.t0.
Proof.
  intros st.
  destruct (cache_never_holds_failure Stub.toFixed Stub.report_text Stub.aurora_text
              Sample.cfg Sample.warm) as (Hread & _ & _).
  - intros o [= <-]. by eexists.
  - split; [apply Hread|reflexivity].
Defined.

(** ** Chat commands *)

Lemma prefix_split (p s : string) :
  String.prefix p s = true → ∃ rest, s = p +:+ rest.
Proof.
  revert s. induction p as [|c p IH]; intros s H.
  - exists s. done.
  - destruct s as [|c' s]; [done|]. cbn in H.
    destruct (ascii_dec c c') as [->|]; [|done].
    destruct (IH s H) as [rest ->]. by exists rest.
Qed.

Lemma command_of_daily text :
  JStr.startsWith text "訂閱每日報告" = true → command_of text = CmdSubscribeDaily.
Proof.
  intros [rest ->]%prefix_split. unfold command_of, is_one_of, JStr.startsWith.
  cbn [existsb String.eqb Ascii.eqb Bool.eqb append orb andb].
  rewrite prefix_append. reflexivity.
Qed.

Lemma command_of_weather text :
  JStr.startsWith text "天氣" = true → command_of text = CmdWeather.
Proof.
  intros [rest ->]%prefix_split. unfold command_of, is_one_of, JStr.startsWith.
  cbn [existsb String.eqb Ascii.eqb Bool.eqb append orb andb].
  rewrite prefix_append. reflexivity.
Qed.

Lemma daily_time_cases text : daily_time text = "08:00" ∨ daily_time text = "20:00".
Proof. unfold daily_time. repeat case_match; auto. Qed.

(** X18.  No chat command is shadowed.  Each of the 43 command words of
    [handleTextMessage] reaches the branch written for it; every text that
    starts with 天氣 is a weather request and every text that starts with
    訂閱每日報告 is a daily subscription, whatever follows; and a daily
    subscription is always scheduled for 08:00 or for 20:00 -- 20:00 only when
    the text names it and does not name 08:00. *)
Theorem command_words_reach_their_branch :
  Forall (λ wc, command_of wc.1 = wc.2) COMMAND_WORDS ∧
  (∀ text, JStr.startsWith text "天氣" = true → command_of text = CmdWeather) ∧
  (∀ text, JStr.startsWith text "訂閱每日報告" = true →
           command_of text = CmdSubscribeDaily) ∧
  (∀ text, daily_time text = "08:00" ∨ daily_time text = "20:00") ∧
  (∀ text, daily_time text = "20:00" ↔
           JStr.includes text "20:00" = true ∧ JStr.includes text "08:00" = false).
Proof.
  split_and!.
  - unfold COMMAND_WORDS. repeat (apply Forall_cons; split; [vm_compute; reflexivity|]).
    constructor.
  - apply command_of_weather.
  - apply command_of_daily.
  - apply daily_time_cases.
  - intros text. unfold daily_time.
    destruct (JStr.includes text "08:00"); [split; [done|by intros [_ ?]]|].
    destruct (JStr.includes text "20:00"); [done|]. split; [done|by intros [? _]].
Qed.

Lemma lineReply_run cfg w token messages st :
  ∃ b st' evs,
    lineReply cfg w token messages st = (Returned b, st') ∧
    doc st' = doc st ∧ lastAlerts st' = lastAlerts st ∧
    cachedSpaceWeather st' = cachedSpaceWeather st ∧
    trace st' = trace st ++ evs ∧ line_pushes evs = [] ∧
    b = JS.is_set (LINE_CHANNEL_ACCESS_TOKEN cfg) &&
        match reply_response w token (JS.slice0 5 (reply_messages messages)) with
        | Returned ok => ok
        | Threw _ => false
        end.
Proof.
  unfold lineReply. run.
  destruct (JS.is_set _); cbn [negb andb].
  2:{ exists false, st, []. by rewrite app_nil_r. }
  destruct (reply_response w token _) as [[|]|e]; cbn [negb].
  - exists true, st, []. by rewrite app_nil_r.
  - destruct (reply_error w); eexists false, _, [_]; st_simpl; done.
  - eexists false, _, [_]; st_simpl; done.
Qed.

Lemma getSpaceWeather_returns w force st :
  ∃ o st' evs,
    getSpaceWeather w force st = (Returned o, st') ∧
    doc st' = doc st ∧ lastAlerts st' = lastAlerts st ∧
    trace st' = trace st ++ evs ∧ line_pushes evs = [].
Proof.
  destruct (cache_hit force (snap_now w) st) as [o|] eqn:Hhit.
  { exists o, st, []. rewrite app_nil_r. split; [by apply getSpaceWeather_hit|done]. }
  destruct (snap_upstream w) as [r|msg] eqn:Hup.
  - destruct (getSpaceWeather_resolved w force st r Hhit Hup) as (s & _ & Hrun).
    cbn zeta in Hrun. eexists _, _, [_]. split; [exact Hrun|]. by st_simpl.
  - eexists _, _, [_; _]. split; [by apply getSpaceWeather_rejected|]. st_simpl.
    rewrite <- app_assoc. done.
Qed.

Section ChatRuns.

Variable normalize : string → string.
Variable toFixed : nat → Q → string.
Variable report_text : string → Snapshot → string.
Variable aurora_text : Snapshot → string.
Variable solar_text : Snapshot → string.
Variable iss_text : Iss → string → string → string.
Variable cme_text : list CmeEvent → string.
Variable cfg : Config.

(** A chat subscription that reaches the sheet. *)
Lemma chat_subscribe_daily_run w event st :
  JStr.startsWith (normalize (ev_text event)) "訂閱每日報告" = true →
  is_Some (doc st ≫= sheet_subscriptions) → sheet_ok (chat_subscribe w) →
  ∃ st',
    handleTextMessage normalize toFixed report_text aurora_text solar_text iss_text
      cme_text cfg w event st = (Returned tt, st') ∧
    is_Some (doc st' ≫= sheet_subscriptions) ∧
    subscriptions st'
    = upsert (ev_userId event) "daily" "每日太空氣象報告" (subscribe_time (chat_subscribe w))
        (Some (daily_time (normalize (ev_text event)))) (subscriptions st).
Proof.
  intros Hcmd%command_of_daily Hst Hok. unfold handleTextMessage. rewrite Hcmd.
  destruct (getSpaceWeather_returns (chat_snapshot w) false st)
    as (o & st1 & evs & Hrun1 & Hd1 & _).
  assert (Hst1 : is_Some (doc st1 ≫= sheet_subscriptions)) by by rewrite Hd1.
  destruct (addSubscription_upsert (chat_subscribe w) (ev_userId event) "daily"
              "每日太空氣象報告" (Some (daily_time (normalize (ev_text event)))) st1
              Hst1 Hok) as (reply & st2 & Hrun2 & _ & Hst2 & Hrows2).
  destruct (lineReply_run cfg (chat_reply w) (ev_replyToken event)
              (ReplyString ("✅ " +:+ interpolate (reply_message reply) +:+ "

每天 " +:+ daily_time (normalize (ev_text event)) +:+ " 將收到太空氣象報告")) st2)
    as (b & st3 & evs3 & Hrun3 & Hd3 & _).
  exists st3. split.
  { erewrite bind_run by exact Hrun1. erewrite bind_run by exact Hrun2.
    by erewrite bind_run by exact Hrun3. }
  split; [by rewrite Hd3|].
  unfold subscriptions in *. by rewrite Hd3, Hrows2, Hd1.
Qed.

(** X19.  Subscribing to the daily report in the chat.  A text that starts
    with 訂閱每日報告, sent while the spreadsheet can be read and written, is
    handled without an error and leaves the sender listed for the daily
    report at 08:00 or 20:00 as the text says, once, and once more for every
    further active daily row the sheet already held for the sender.  The
    next scheduled-delivery tick at that time of day whose readings arrive
    calls [linePush] for the sender with the report composed from those
    readings, and with a channel token configured that report is the one
    text message of a push request to the sender. *)
Theorem chat_daily_subscription_is_served (w : ChatWorld) (event : WebhookEvent)
    (st : State) :
  JStr.startsWith (normalize (ev_text event)) "訂閱每日報告" = true →
  is_Some (doc st ≫= sheet_subscriptions) → sheet_ok (chat_subscribe w) →
  let handler := handleTextMessage normalize toFixed report_text aurora_text solar_text
                   iss_text cme_text cfg w event in
  let user := ev_userId event in
  let time := daily_time (normalize (ev_text event)) in
  let st' := exec handler st in
  let further := filter (λ row, sub_status row = ENABLED)
                   (tail (records_of user "daily" (subscriptions st))) in
  result handler st = Returned tt ∧
  (time = "08:00" ∨ time = "20:00") ∧
  filter (λ s, userId s = user) (active_subscribers None "daily" st')
    = {| userId := user; pushTime := time |}
      :: ((λ row, {| userId := sub_userId row; pushTime := sub_pushTime row |})
          <$> further) ∧
  ((length (records_of user "daily" (subscriptions st)) ≤ 1)%nat → further = []) ∧
  ∀ tick r,
    daily_currentTime tick = time → daily_read tick = None →
    snap_upstream (daily_snapshot tick) = Returned r →
    ∃ s, result (build_snapshot r (snap_timestamp (daily_snapshot tick))) st' = Returned s ∧
         let report := report_text (daily_report_time tick) s in
         let evs := added (dailyPush report_text cfg tick) st' in
         (user, Text report) ∈ line_pushes evs ∧
         (push_sent cfg = true → (user, [text_message report]) ∈ http_pushes evs).
Proof.
  intros Hcmd Hst Hok handler user time st' further.
  destruct (chat_subscribe_daily_run w event st Hcmd Hst Hok) as (st1 & Hrun & Hst1 & Hrows).
  assert (st' = st1) as -> by (subst st' handler; by erewrite exec_run by exact Hrun).
  split; [by subst handler; erewrite result_run by exact Hrun|].
  split; [apply daily_time_cases|].
  assert (Hor : JS.or_str (Some time) EmptyString = time).
  { subst time. by destruct (daily_time_cases (normalize (ev_text event))) as [-> | ->]. }
  assert (Hlisted : filter (λ s, userId s = user) (active_subscribers None "daily" st1)
                    = {| userId := user; pushTime := time |}
                      :: ((λ row, {| userId := sub_userId row; pushTime := sub_pushTime row |})
                          <$> further)).
  { destruct (upsert_active user "daily" "每日太空氣象報告" (subscribe_time (chat_subscribe w))
                (Some time) (subscriptions st)) as (r0 & Hact & Hu & _ & Htime).
    rewrite listed_records by done. fold user time in Hrows. rewrite Hrows, Hact.
    cbn. by rewrite Hu, Htime, Hor. }
  split; [done|].
  split.
  { intros Hlen. subst further.
    destruct (records_of user "daily" (subscriptions st)) as [|r0 [|r1 rest]]; cbn in *;
      [done|done|lia]. }
  intros tick r Htime Hread Hup.
  assert (Hends : JS.endsWith (daily_currentTime tick) ":00" = true).
  { rewrite Htime. subst time. by destruct (daily_time_cases (normalize (ev_text event)))
      as [-> | ->]. }
  assert (Hhour : JS.split_head ":" (daily_currentTime tick) +:+ ":00" = time).
  { rewrite Htime. subst time. by destruct (daily_time_cases (normalize (ev_text event)))
      as [-> | ->]. }
  destruct (dailyPush_on_hour report_text cfg tick st1 Hends) as [_ Hsome].
  cbn zeta in Hsome. rewrite Hhour, Hread in Hsome.
  set (targets := filter (λ s, pushTime s = time) (active_subscribers None "daily" st1))
    in Hsome.
  assert (Hin : {| userId := user; pushTime := time |} ∈ targets).
  { apply list_elem_of_filter. split; [done|].
    assert (Hf : {| userId := user; pushTime := time |}
                 ∈ filter (λ s, userId s = user) (active_subscribers None "daily" st1))
      by (rewrite Hlisted; left).
    by apply list_elem_of_filter in Hf as [_ ?]. }
  destruct Hsome as (o & st2 & evs & Hrun2 & Htr & _ & Hcase).
  { intros Hnil. rewrite Hnil in Hin. by apply elem_of_nil in Hin. }
  rewrite Hup in Hcase. destruct Hcase as (_ & s & Hs & Hlp & Hhp).
  exists s. split; [unfold result; by rewrite Hs|].
  cbn zeta.
  erewrite added_eq by (erewrite exec_run by exact Hrun2; exact Htr).
  change (EvUpstream :: evs) with ([EvUpstream] ++ evs).
  rewrite line_pushes_app, http_pushes_app, Hlp, Hhp. split.
  - apply elem_of_app. right.
    by apply (list_elem_of_fmap_2
                (λ u, (userId u, Text (report_text (daily_report_time tick) s)))) in Hin.
  - intros ->. apply elem_of_app. right.
    by apply (list_elem_of_fmap_2
                (λ u, (userId u, [text_message (report_text (daily_report_time tick) s)])))
      in Hin.
Qed.

(** X20.  Cancelling in the chat.  After 取消所有訂閱 (or 取消訂閱) was handled
    while the spreadsheet works, the sender has no active row, and no timer
    calls [linePush] for the sender from then on. *)
Theorem chat_unsubscribe_ends_all_pushes (w : ChatWorld) (event : WebhookEvent)
    (jobs : list job) (st : State) :
  is_one_of (normalize (ev_text event)) ["取消所有訂閱"; "取消訂閱"] = true →
  is_Some (doc st ≫= sheet_subscriptions) →
  unsubscribe_read (chat_unsubscribe w) = None →
  (∀ i, unsubscribe_save (chat_unsubscribe w) i = None) →
  let handler := handleTextMessage normalize toFixed report_text aurora_text solar_text
                   iss_text cme_text cfg w event in
  let user := ev_userId event in
  let st1 := exec handler st in
  let st2 := after_jobs toFixed report_text aurora_text cfg jobs st1 in
  result handler st = Returned tt ∧
  subscriptions st1 = cancel user None <$> subscriptions st ∧
  inactive user st2 ∧
  ∃ evs, trace st2 = trace st1 ++ evs ∧
         Forall (λ c, c.1 ≠ user) (line_pushes evs).
Proof.
  intros Hword Hsome Hread Hsave handler user st1 st2.
  assert (Hcmd : command_of (normalize (ev_text event)) = CmdUnsubscribe).
  { unfold is_one_of in Hword. cbn [existsb] in Hword.
    apply orb_true_iff in Hword as [Hw|Hw]; [|apply orb_true_iff in Hw as [Hw|Hw]; [|done]];
      apply String.eqb_eq in Hw; by rewrite Hw. }
  destruct (getSpaceWeather_returns (chat_snapshot w) false st)
    as (o & sta & evs & Hrun1 & Hd1 & _).
  assert (Hsome1 : is_Some (doc sta ≫= sheet_subscriptions)) by by rewrite Hd1.
  destruct (removeSubscription_cancels (chat_unsubscribe w) user None sta Hsome1 Hread)
    as (Hrun2 & Hrows2 & _); [intros; apply Hsave|].
  set (stb := exec (removeSubscription (chat_unsubscribe w) user None) sta) in *.
  destruct (lineReply_run cfg (chat_reply w) (ev_replyToken event)
              (ReplyString "✅ 已取消所有訂閱

如需重新訂閱，請輸入「訂閱」") stb) as (b & stc & evs3 & Hrun3 & Hd3 & _).
  assert (Hrun : handler st = (Returned tt, stc)).
  { subst handler. unfold handleTextMessage. rewrite Hcmd.
    erewrite bind_run by exact Hrun1. fold user.
    erewrite bind_run by exact Hrun2.
    by erewrite bind_run by exact Hrun3. }
  assert (st1 = stc) as Hst1 by (subst st1; by erewrite exec_run by exact Hrun).
  assert (Hrows : subscriptions st1 = cancel user None <$> subscriptions st).
  { rewrite Hst1. unfold subscriptions at 1. rewrite Hd3.
    fold (subscriptions stb). rewrite Hrows2. unfold subscriptions. by rewrite Hd1. }
  assert (Hin : inactive user st1).
  { unfold inactive. rewrite Hrows. apply cancel_all_inactive. }
  pose proof (after_jobs_unreached toFixed report_text aurora_text cfg user jobs st1 Hin)
    as Hun. fold st2 in Hun.
  split; [by erewrite result_run by exact Hrun|]. split; [done|].
  split; [by eapply unreached_inactive|]. by destruct Hun as [_ Hev].
Qed.

End ChatRuns.

Lemma chat_daily_subscription_is_served_witness :
  let event := Tour.say "U-new" "訂閱每日報告 20:00" in
  let handler := handleTextMessage Tour.normalize Stub.toFixed Stub.report_text
                   Stub.aurora_text Tour.solar_text Tour.iss_text Tour.cme_text
                   Sample.cfg Tour.chat event in
  let st' := exec handler Scenario.st in
  filter (λ s, userId s = "U-new") (active_subscribers None "daily" st')
    = [{| userId := "U-new"; pushTime := "20:00" |}] ∧
  ∃ report, ("U-new", Text report)
            ∈ line_pushes (added (dailyPush Stub.report_text Sample.cfg
                                    (Scenario.tick "20:00")) st').
Proof.
  intros event handler st'.
  destruct (chat_daily_subscription_is_served Tour.normalize Stub.toFixed
              Stub.report_text Stub.aurora_text Tour.solar_text Tour.iss_text
              Tour.cme_text Sample.cfg Tour.chat event Scenario.st)
    as (_ & _ & Hlisted & _ & Htick).
  - reflexivity.
  - by eexists.
  - split; reflexivity.
  - split; [exact Hlisted|].
    destruct (Htick (Scenario.tick "20:00") Sample.quiet) as (s & _ & Hin & _);
      [reflexivity..|].
    eexists. exact Hin.
Defined.

Lemma chat_unsubscribe_ends_all_pushes_witness :
  let event := Tour.say "U-daily" "取消訂閱" in
  let handler := handleTextMessage Tour.normalize Stub.toFixed Stub.report_text
                   Stub.aurora_text Tour.solar_text Tour.iss_text Tour.cme_text
                   Sample.cfg Tour.chat event in
  let st1 := exec handler Scenario.st in
  let st2 := after_jobs Stub.toFixed Stub.report_text Stub.aurora_text Sample.cfg
               [Daily (Scenario.tick "08:00")] st1 in
  inactive "U-daily" st2 ∧ line_pushes (trace st2) = [].
Proof.
  intros event handler st1 st2.
  destruct (chat_unsubscribe_ends_all_pushes Tour.normalize Stub.toFixed
              Stub.report_text Stub.aurora_text Tour.solar_text Tour.iss_text
              Tour.cme_text Sample.cfg Tour.chat event
              [Daily (Scenario.tick "08:00")] Scenario.st)
    as (_ & _ & Hin & _).
  - reflexivity.
  - by eexists.
  - reflexivity.
  - reflexivity.
  - split; [exact Hin|]. vm_compute. reflexivity.
Defined.

(** ** The test push *)

Section TestPushRuns.

Variable toFixed : nat → Q → string.
Variable report_text : string → Snapshot → string.
Variable aurora_text : Snapshot → string.
Variable solar_text : Snapshot → string.
Variable iss_text : Iss → string → string → string.
Variable cfg : Config.

(** X21.  The test push.  Without a user id the endpoint answers 缺少用戶 ID
    and does nothing.  With one, for a type other than iss and when the
    readings arrive, it fetches them afresh even when the cache is still
    valid, stores the snapshot built from them in the cache with the time of
    the request, and calls [linePush] exactly once, for that user, with the
    text of the requested type composed from that snapshot.  Its answer
    carries what that call of [linePush] returned: 已發送 when LINE accepted
    the push and the delivery log, where there is one, took the row, and
    發送失敗 otherwise. *)
Theorem testPush_refreshes_and_pushes_once (w : TestPushWorld)
    (userId type : option string) (st : State) (r : Readings) :
  let call := testPush toFixed report_text aurora_text solar_text iss_text cfg w
                userId type in
  (JS.is_set userId = false →
   call st = (Returned {| success := false; reply_message := Some "缺少用戶 ID" |}, st)) ∧
  (∀ user, userId = Some user → JS.truthy user = true →
     snap_upstream (test_snapshot w) = Returned r →
     type ≠ Some "iss" →
     ∃ s,
       forced_read (test_snapshot w) st = Built s ∧
       let message :=
         if String.eqb (default "space-weather" type) "aurora" then aurora_text s
         else if String.eqb (default "space-weather" type) "solar" then solar_text s
         else report_text (test_report_time w) s in
       let st1 := exec (getSpaceWeather (test_snapshot w) true) st in
       upstream_fetches (added call st) = 1%nat ∧
       value <$> cachedSpaceWeather (exec call st) = Some (Built s) ∧
       cacheTime (exec call st) = snap_now (test_snapshot w) ∧
       line_pushes (added call st) = [(user, Text message)] ∧
       ∃ sent,
         result (linePush cfg (test_push w) user (Text message)) st1 = Returned sent ∧
         result call st
         = Returned {| success := sent;
                       reply_message := Some (if sent then "已發送" else "發送失敗") |} ∧
         sent = push_accepted cfg (test_push w)
                && (negb (log_present st) || accepted (push_log_write (test_push w)))).
Proof.
  intros call. subst call. split.
  - unfold testPush. destruct userId as [user|]; cbn; [|done]. by intros ->.
  - intros user -> Htruthy Hup Hiss.
    destruct (getSpaceWeather_resolved (test_snapshot w) true st r
                (cache_hit_forced _ _) Hup) as (s & _ & Hrun1). cbn zeta in Hrun1.
    set (st1 := with_cache _ _ _) in Hrun1.
    exists s. split; [unfold forced_read; by erewrite result_run by exact Hrun1|].
    cbn zeta. erewrite (exec_run (getSpaceWeather _ _)) by exact Hrun1.
    set (message := if String.eqb (default "space-weather" type) "aurora" then _ else _).
    assert (Hmsg : ∀ st0,
      (if String.eqb (default "space-weather" type) "aurora"
       then formatAuroraMessage aurora_text (Built s)
       else if String.eqb (default "space-weather" type) "solar"
       then formatSolarWindMessage solar_text (Built s)
       else if String.eqb (default "space-weather" type) "iss"
       then formatISSMessage toFixed iss_text (Built s)
       else formatSpaceWeatherMessage report_text (test_report_time w) (Built s)) st0
      = (Returned message, st0)).
    { subst message. intros st0.
      destruct (String.eqb _ "aurora"); [done|].
      destruct (String.eqb _ "solar"); [done|].
      destruct (String.eqb _ "iss") eqn:Heq; [|done].
      exfalso. apply Hiss. apply String.eqb_eq in Heq.
      destruct type as [t|]; [by cbn in Heq; subst|done]. }
    clearbody message.
    destruct (linePush_answer cfg (test_push w) user (Text message) st1)
      as (st2 & evs & Hrun2 & Hfr & _ & Htr & Hlp).
    assert (Hcall : testPush toFixed report_text aurora_text solar_text iss_text cfg w
                      (Some user) type st
                    = (Returned {| success := push_reported cfg (test_push w) st1;
                                   reply_message :=
                                     Some (if push_reported cfg (test_push w) st1
                                           then "已發送" else "發送失敗") |}, st2)).
    { unfold testPush. rewrite Htruthy. cbn [negb].
      erewrite bind_run by exact Hrun1. cbn [value].
      erewrite bind_run by apply Hmsg.
      by erewrite bind_run by exact Hrun2. }
    assert (Hadded : added (testPush toFixed report_text aurora_text solar_text iss_text
                              cfg w (Some user) type) st
                     = EvUpstream :: EvLinePush user (Text message) :: evs).
    { apply added_eq. erewrite exec_run by exact Hcall. rewrite Htr.
      subst st1. st_simpl. by rewrite <- app_assoc. }
    rewrite Hadded.
    erewrite (result_run (testPush _ _ _ _ _ _ _ _ _)) by exact Hcall.
    erewrite !(exec_run (testPush _ _ _ _ _ _ _ _ _)) by exact Hcall.
    split_and!.
    + change (EvUpstream :: EvLinePush user (Text message) :: evs)
        with ([EvUpstream; EvLinePush user (Text message)] ++ evs).
      rewrite upstream_fetches_app.
      assert (upstream_fetches evs = 0%nat) as ->; [|done].
      destruct (linePush_run cfg (test_push w) user (Text message) st1)
        as (b' & st2' & evs' & Hrun' & _ & Htr' & _ & Hup').
      rewrite Hrun2 in Hrun'. injection Hrun' as _ <-.
      rewrite Htr in Htr'. apply app_inv_head in Htr'. by injection Htr' as ->.
    + destruct Hfr as (-> & _). by subst st1.
    + destruct Hfr as (_ & -> & _). by subst st1.
    + change (EvUpstream :: EvLinePush user (Text message) :: evs)
        with ([EvUpstream; EvLinePush user (Text message)] ++ evs).
      rewrite line_pushes_app, Hlp. done.
    + eexists. split; [by erewrite result_run by exact Hrun2|].
      split; [reflexivity|]. unfold push_reported, log_present. subst st1. by st_simpl.
Qed.

End TestPushRuns.

Lemma testPush_refreshes_and_pushes_once_witness :
  let call := testPush Stub.toFixed Stub.report_text Stub.aurora_text Tour.solar_text
                Tour.iss_text Sample.cfg Tour.test_world (Some "U-daily") (Some "aurora") in
  upstream_fetches (added call Sample.warm) = 1%nat ∧
  cacheTime (exec call Sample.warm) = Sample.t0 + 1000 ∧
  (∃ s, forced_read (test_snapshot Tour.test_world) Sample.warm = Built s ∧
        line_pushes (added call Sample.warm) = [("U-daily", Text (Stub.aurora_text s))]) ∧
  result call Sample.warm
    = Returned {| success := true; reply_message := Some "已發送" |}.
Proof.
  intros call.
  destruct (testPush_refreshes_and_pushes_once Stub.toFixed Stub.report_text
              Stub.aurora_text Tour.solar_text Tour.iss_text Sample.cfg Tour.test_world
              (Some "U-daily") (Some "aurora") Sample.warm Sample.quiet) as [_ H].
  destruct (H "U-daily" eq_refl eq_refl eq_refl) as (s & Hs & Hup & _ & Htime & Hlp & _);
    [done|].
  split_and!; [exact Hup|exact Htime| |reflexivity].
  exists s. split; [exact Hs|exact Hlp].
Defined.

(** ** Statistics and history *)

Lemma count_topics (rows : list SubRow) :
  (count_rows (λ r, sub_type r = "daily" ∧ sub_status r = ENABLED) rows
   + count_rows (λ r, sub_type r = "aurora" ∧ sub_status r = ENABLED) rows
   + count_rows (λ r, sub_type r = "flare" ∧ sub_status r = ENABLED) rows
   + count_rows (λ r, sub_type r = "cme" ∧ sub_status r = ENABLED) rows
   + count_rows (λ r, sub_status r = ENABLED ∧ sub_type r ∉ TOPICS) rows
   = count_rows (λ r, sub_status r = ENABLED) rows)%nat.
Proof.
  unfold count_rows. induction rows as [|row rows IH]; [done|].
  rewrite !filter_cons.
  destruct (decide (sub_status row = ENABLED)) as [Hon|Hoff].
  2:{ rewrite !decide_False by first [by intros [_ ?] | by intros [? _]]. exact IH. }
  destruct (decide (sub_type row ∈ TOPICS)) as [Hin|Hout].
  - rewrite (decide_False (P := _ ∧ sub_type row ∉ TOPICS)) by (by intros [_ ?]).
    unfold TOPICS in Hin.
    repeat (apply elem_of_cons in Hin as [Hin|Hin]);
      [..|by apply elem_of_nil in Hin];
      rewrite Hin;
      repeat (first [rewrite decide_True by done | rewrite decide_False by (by intros [? _])]);
      cbn [length]; lia.
  - rewrite (decide_True (P := _ ∧ sub_type row ∉ TOPICS)) by done.
    rewrite !decide_False; [cbn [length]; lia|..];
      intros [Ht _]; apply Hout; rewrite Ht; unfold TOPICS;
      repeat first [by left | right].
Qed.

(** X22.  The subscription statistics agree with the fan-out.  With the
    sheet readable, the count the endpoint reports for a topic is the number
    of users [getSubscribersByType] returns for that topic, and the four
    topic counts add up to the total exactly when every active row has one of
    the four topics; they never exceed it. *)
Theorem statsSubscriptions_agree_with_fanout (st : State) :
  is_Some (doc st ≫= sheet_subscriptions) →
  ∃ stats,
    statsSubscriptions None st = (Returned (200, StatsData stats), st) ∧
    stats_daily stats = length (active_subscribers None "daily" st) ∧
    stats_aurora stats = length (active_subscribers None "aurora" st) ∧
    stats_flare stats = length (active_subscribers None "flare" st) ∧
    stats_cme stats = length (active_subscribers None "cme" st) ∧
    (stats_daily stats + stats_aurora stats + stats_flare stats + stats_cme stats
     ≤ stats_total stats)%nat ∧
    ((stats_daily stats + stats_aurora stats + stats_flare stats + stats_cme stats
      = stats_total stats)%nat
     ↔ Forall (λ r, sub_status r = ENABLED → sub_type r ∈ TOPICS) (subscriptions st)).
Proof.
  intros (d & Hd & Hs)%sheet_rows.
  assert (Hsheet : doc st ≫= sheet_subscriptions = Some (subscriptions st))
    by by rewrite Hd.
  eexists. split.
  { unfold statsSubscriptions. erewrite bind_run by reflexivity. rewrite Hd.
    erewrite try_catch_run; [reflexivity|].
    erewrite bind_run by (rewrite (getRows_run _ _ _ Hsheet); reflexivity).
    reflexivity. }
  cbn [stats_total stats_daily stats_aurora stats_flare stats_cme].
  unfold active_subscribers. rewrite Hsheet.
  rewrite !length_fmap. unfold count_rows.
  pose proof (count_topics (subscriptions st)) as Hsum. unfold count_rows in Hsum.
  split_and!; try done; [lia|].
  split.
  - intros Heq. apply Forall_forall. intros r Hin Hon.
    destruct (decide (sub_type r ∈ TOPICS)) as [|Hout]; [done|]. exfalso.
    set (others := filter (λ r, sub_status r = ENABLED ∧ sub_type r ∉ TOPICS)
                     (subscriptions st)) in Hsum.
    assert (Hr : r ∈ others) by (by apply list_elem_of_filter).
    destruct others; [by apply elem_of_nil in Hr|].
    cbn [length] in Hsum. lia.
  - intros Hall.
    rewrite (filter_none (λ r, sub_status r = ENABLED ∧ sub_type r ∉ TOPICS)) in Hsum.
    + cbn [length] in Hsum. lia.
    + eapply Forall_impl; [exact Hall|]. cbn. intros r Hr [Hon Hout]. by apply Hout, Hr.
Qed.

Lemma statsSubscriptions_agree_with_fanout_witness :
  ∃ stats,
    statsSubscriptions None Scenario.st = (Returned (200, StatsData stats), Scenario.st) ∧
    stats_daily stats = 2%nat ∧ stats_aurora stats = 1%nat ∧
    (stats_daily stats + stats_aurora stats + stats_flare stats + stats_cme stats
     = stats_total stats)%nat.
Proof.
  destruct (statsSubscriptions_agree_with_fanout Scenario.st)
    as (stats & Hrun & Hdaily & Haurora & _ & _ & _ & Hsum).
  - by eexists.
  - exists stats. split_and!; [exact Hrun|exact Hdaily|exact Haurora|].
    apply Hsum. eapply bool_decide_unpack. vm_compute. exact I.
Defined.

Lemma last_slice_last {A} (n : nat) (l : list A) :
  (0 < n)%nat → last (slice_last n l) = last l.
Proof.
  intros Hn. unfold slice_last. rewrite !last_lookup, length_drop, lookup_drop.
  destruct l as [|x l]; [done|]. cbn [length]. f_equal. lia.
Qed.

Lemma slice_last_length {A} (n : nat) (l : list A) : (length (slice_last n l) ≤ n)%nat.
Proof. unfold slice_last. rewrite length_drop. lia. Qed.

Lemma slice_last_subseteq {A} (n : nat) (l : list A) : slice_last n l ⊆ l.
Proof.
  unfold slice_last. intros x Hx. rewrite <- (take_drop (length l - n) l).
  apply elem_of_app. by right.
Qed.

(** X23.  The Kp history and the current Kp are read the same way.  On the
    same NOAA table, [/api/kp-history] answers with at most 72 points, never
    counts the header row as a point, and its last point is the reading
    [fetchKpIndex] returns -- same time, same Kp; both have no reading when
    the table has no data row.  When the table cannot be fetched the
    endpoint answers 500 with the error's message. *)
Theorem kpHistory_ends_with_current_reading (parseFloat : string → option Q)
    (st : State) :
  (∀ data, ∃ history,
     kpHistory parseFloat (Returned data) st = (Returned (200, HistoryData history), st) ∧
     (length history ≤ 72)%nat ∧
     Forall (λ p, point_time p ≠ Some "time_tag") history ∧
     fetchKpIndex parseFloat (Returned data) st
     = (Returned ((λ p, kp_reading (point_time p) (point_kp p)) <$> last history), st)) ∧
  (∀ e, kpHistory parseFloat (Threw e) st = (Returned (500, HistoryError e), st)).
Proof.
  split; [|done]. intros data. eexists. split; [reflexivity|]. split_and!.
  - rewrite length_fmap. apply slice_last_length.
  - apply Forall_fmap, Forall_forall. intros row Hrow%slice_last_subseteq.
    apply list_elem_of_filter in Hrow as [Hhead _]. cbn.
    by rewrite <- head_lookup.
  - unfold fetchKpIndex, try_catch, await. erewrite bind_run by reflexivity.
    rewrite fmap_last, last_slice_last by lia.
    by destruct (last _).
Qed.

(** ** Moon phase *)

Lemma cycle_fraction_range year month day :
  (0 <= cycle_fraction year month day)%Q ∧ (cycle_fraction year month day < 1)%Q.
Proof.
  unfold cycle_fraction. cbn zeta.
  set (jd := (_ / _)%Q).
  pose proof (Qfloor_le jd). pose proof (Qlt_floor jd) as Hlt.
  rewrite inject_Z_plus in Hlt. change (inject_Z 1) with 1%Q in Hlt.
  split; lra.
Qed.

(** X24.  [getMoonPhase] always finds its phase in the table: for every
    calendar date the computed phase number lies between 0 and 8, so the
    lookup [phases[phase % 8]] never misses and the function returns.  The
    reported illumination lies between 0 and 50 -- 50 at full moon, 0 at new
    moon -- the age between 0 and 30 days, and full moon is never rated good
    for star gazing while new moon always is. *)
Theorem getMoonPhase_finds_its_phase (toLocaleDateString : Q → string)
    (year month day time : Z) :
  ∃ moon,
    getMoonPhase toLocaleDateString year month day time = Returned moon ∧
    (∃ p, p ∈ PHASES ∧ moon_phase moon = phase_name p ∧ moon_icon moon = phase_icon p) ∧
    0 ≤ moon_illumination moon ≤ 50 ∧
    0 ≤ moon_age moon ≤ 30 ∧
    (moon_phase moon = "滿月" →
     moon_illumination moon = 50 ∧ moon_isGoodForViewing moon = false) ∧
    (moon_phase moon = "新月" →
     moon_illumination moon = 0 ∧ moon_isGoodForViewing moon = true).
Proof.
  unfold getMoonPhase. cbn zeta.
  destruct (cycle_fraction_range year month day) as [H0 H1].
  set (jd := cycle_fraction year month day) in *.
  assert (Hage : 0 ≤ JS.round (jd * (2953 # 100)) ≤ 30).
  { split; [apply (round_ge 0)|apply (round_below 30)]; unfold inject_Z; lra. }
  assert (Hphase : 0 ≤ JS.round (jd * 8) ≤ 8).
  { split; [apply (round_ge 0)|apply (round_below 8)]; unfold inject_Z; lra. }
  set (phase := JS.round (jd * 8)) in *.
  assert (Hcases : phase = 0 ∨ phase = 1 ∨ phase = 2 ∨ phase = 3 ∨ phase = 4 ∨
                   phase = 5 ∨ phase = 6 ∨ phase = 7 ∨ phase = 8) by lia.
  clearbody phase.
  destruct Hcases as [->|[->|[->|[->|[->|[->|[->|[->| ->]]]]]]]];
    (eexists; split; [reflexivity|];
     cbn [moon_phase moon_icon moon_illumination moon_age moon_isGoodForViewing];
     split; [eexists; split; [|split; reflexivity];
             unfold PHASES; repeat first [by left | right]|];
     split; [by vm_compute|]; split; [exact Hage|];
     split; intros Hname; first [discriminate Hname | by vm_compute]).
Qed.

(** ** Flare events *)

Lemma scan_flares_sound parseFloat (rows : table) :
  ∀ currentFlare events,
    (∀ current, currentFlare = Some current → (1 # 100000 <= flare_peakFlux current)%Q) →
    Forall sound_report events →
    Forall sound_report (scan_flares parseFloat rows currentFlare events).
Proof.
  induction rows as [|row rows IH]; intros currentFlare events Hcur Hev; [done|].
  cbn [scan_flares].
  set (flux := number_or_zero parseFloat (row !! 1%nat)).
  destruct currentFlare as [current|].
  - specialize (Hcur current eq_refl).
    destruct (Qle_bool flux (flare_peakFlux current)) eqn:Hpeak; cbn [negb].
    + destruct (Qle_bool (1 # 1000000) flux); cbn [negb].
      * apply IH; [by intros ? [= <-]|done].
      * apply IH; [done|]. apply Forall_app. split; [done|].
        apply Forall_singleton. by split.
    + apply IH; [|done]. intros ? [= <-]. cbn. qbool. lra.
  - destruct (Qle_bool (1 # 100000) flux) eqn:Hstart.
    + apply IH; [|done]. intros ? [= <-]. cbn. by qbool.
    + by apply IH.
Qed.

(** X25.  [fetchFlareEvents] reports M- and X-class flares only.  Whatever
    the flux series holds, every event it returns has a peak flux of at
    least 1e-5, is classed X exactly when that peak is at least 1e-4 and M
    otherwise, and at most ten events are returned.  It never throws, and a
    failed request gives an empty list without a line in the log. *)
Theorem fetchFlareEvents_reports_M_and_X_only (parseFloat : string → option Q)
    (response : outcome table) (st : State) :
  ∃ events,
    fetchFlareEvents parseFloat response st = (Returned events, st) ∧
    (length events ≤ 10)%nat ∧
    Forall (λ ev, (1 # 100000 <= report_flux ev)%Q ∧
                  (report_class ev = "X" ↔ (1 # 10000 <= report_flux ev)%Q) ∧
                  (report_class ev = "M" ↔ (report_flux ev < 1 # 10000)%Q)) events ∧
    (∀ e, response = Threw e → events = []).
Proof.
  unfold fetchFlareEvents, try_catch, await.
  destruct response as [data|e].
  - erewrite bind_run by reflexivity. eexists. split; [reflexivity|].
    split; [apply slice_last_length|]. split; [|done].
    apply Forall_forall. intros ev Hev%slice_last_subseteq.
    pose proof (scan_flares_sound parseFloat (slice_last 200 data) None []
                  ltac:(done) ltac:(constructor)) as Hsound.
    rewrite Forall_forall in Hsound.
    destruct (Hsound ev Hev) as [Hflux Hclass].
    split; [done|]. rewrite Hclass.
    destruct (Qle_bool (1 # 10000) (report_flux ev)) eqn:HX; qbool.
    + split; [done|]. split; [done|]. intros. lra.
    + split; [split; [done|by intros]|]. split; [intros _; lra|done].
  - erewrite bind_throw by reflexivity. exists []. split_and!; try done. cbn. lia.
Qed.

(** ** What a chat message may change *)

#[global] Instance silent_preorder : PreOrder silent.
Proof.
  split.
  - intros st. exists []. by rewrite app_nil_r.
  - intros a b c (e1 & Ht1 & H1) (e2 & Ht2 & H2).
    exists (e1 ++ e2). rewrite Ht2, Ht1, <- app_assoc. split; [done|].
    by rewrite line_pushes_app, H1, H2.
Qed.

#[global] Instance same_doc_preorder : PreOrder same_doc.
Proof.
  split; [by intros st|]. intros a b c Hab Hbc. unfold same_doc in *. congruence.
Qed.

Lemma keeps_silent_emit e :
  match e with EvLinePush _ _ => False | _ => True end → keeps silent (emit e).
Proof. intros He st. exists [e]. split; [done|]. by destruct e. Qed.

Lemma keeps_silent_modify (f : State → State) :
  (∀ st, trace (f st) = trace st) → keeps silent (modify f).
Proof. intros H st. exists []. unfold exec, modify. cbn. by rewrite H, app_nil_r. Qed.

Lemma keeps_silent_getSpaceWeather w force : keeps silent (getSpaceWeather w force).
Proof.
  intros st. destruct (getSpaceWeather_returns w force st)
    as (o & st' & evs & Hrun & _ & _ & Ht & Hlp).
  erewrite exec_run by exact Hrun. by exists evs.
Qed.

Lemma keeps_silent_lineReply cfg w token messages :
  keeps silent (lineReply cfg w token messages).
Proof.
  intros st. destruct (lineReply_run cfg w token messages st)
    as (b & st' & evs & Hrun & _ & _ & _ & Ht & Hlp & _).
  erewrite exec_run by exact Hrun. by exists evs.
Qed.

Lemma keeps_silent_update f : keeps silent (modify (update_subscriptions f)).
Proof.
  apply keeps_silent_modify. intros st. unfold update_subscriptions.
  destruct (doc st) as [d|]; [|done]. by destruct (sheet_subscriptions d).
Qed.

Lemma keeps_same_doc_emit e : keeps same_doc (emit e).
Proof. by intros st. Qed.

Lemma keeps_same_doc_getSpaceWeather w force : keeps same_doc (getSpaceWeather w force).
Proof.
  intros st. destruct (getSpaceWeather_returns w force st)
    as (o & st' & evs & Hrun & Hd & _).
  by erewrite exec_run by exact Hrun.
Qed.

Lemma keeps_same_doc_lineReply cfg w token messages :
  keeps same_doc (lineReply cfg w token messages).
Proof.
  intros st. destruct (lineReply_run cfg w token messages st)
    as (b & st' & evs & Hrun & Hd & _).
  by erewrite exec_run by exact Hrun.
Qed.

Lemma keeps_same_doc_getSubscriptions read user :
  keeps same_doc (getSubscriptions read user).
Proof. intros st. by erewrite exec_run by apply getSubscriptions_run. Qed.

Ltac keeps_walk R leaf :=
  repeat first
    [ assumption
    | apply (keeps_ret R)
    | apply (keeps_throw R)
    | apply (keeps_get R)
    | apply (keeps_external R)
    | apply (keeps_await R)
    | leaf
    | apply (keeps_bind R); [|intros ?]
    | apply (keeps_try_catch R); [|intros ?]
    | apply (keeps_for_each_from R); intros ? ?
    | match goal with |- keeps _ (match ?x with _ => _ end) => destruct x end
    | match goal with |- keeps _ (if ?x then _ else _) => destruct x end ].

Ltac silent_leaf :=
  first [ apply keeps_silent_getSpaceWeather
        | apply keeps_silent_lineReply
        | apply keeps_silent_update
        | apply keeps_silent_emit; exact I ].

Ltac same_doc_leaf :=
  first [ apply keeps_same_doc_getSpaceWeather
        | apply keeps_same_doc_lineReply
        | apply keeps_same_doc_getSubscriptions
        | apply keeps_same_doc_emit ].

Section ChatFrame.

Variable normalize : string → string.
Variable toFixed : nat → Q → string.
Variable report_text : string → Snapshot → string.
Variable aurora_text : Snapshot → string.
Variable solar_text : Snapshot → string.
Variable iss_text : Iss → string → string → string.
Variable cme_text : list CmeEvent → string.
Variable cfg : Config.

(** X26.  What a text message can do.  Handling a text message never calls
    [linePush]: the sender is answered through the reply API only.  And
    unless the text is one of the four subscribe commands or the unsubscribe
    command, the spreadsheet is left exactly as it was, whatever the
    snapshot, the lookups and the reply API answer and whether or not the
    handler throws. *)
Theorem chat_message_never_pushes (w : ChatWorld) (event : WebhookEvent) (st : State) :
  let handler := handleTextMessage normalize toFixed report_text aurora_text solar_text
                   iss_text cme_text cfg w event in
  line_pushes (added handler st) = [] ∧
  (writes_sheet (command_of (normalize (ev_text event))) = false →
   doc (exec handler st) = doc st).
Proof.
  intros handler. split.
  - assert (H : keeps silent handler).
    { subst handler. unfold handleTextMessage.
      unfold formatSpaceWeatherMessage, formatAuroraMessage, formatSolarWindMessage,
        formatISSMessage, num_toFixed, addSubscription, removeSubscription,
        getSubscriptions, getRows, save, addRow, for_each.
      keeps_walk silent silent_leaf. }
    destruct (H st) as (evs & Ht & Hlp). by erewrite added_eq by exact Ht.
  - intros Hw.
    assert (H : keeps same_doc handler); [|apply H].
    subst handler. unfold handleTextMessage.
    apply (keeps_bind same_doc); [apply keeps_same_doc_getSpaceWeather|]. intros o.
    destruct (command_of _); try discriminate Hw;
      unfold formatSpaceWeatherMessage, formatAuroraMessage, formatSolarWindMessage,
        formatISSMessage, num_toFixed;
      keeps_walk same_doc same_doc_leaf.
Qed.

End ChatFrame.

(** ** What a recording pass writes *)

Section RecordingContent.

Variable toFixed : nat → Q → string.

(** X27.  A recording pass records the snapshot, defaults included.  When
    the spreadsheet takes all four rows, each of the four sheets gains
    exactly the row of this pass, carrying the time of the pass and the
    values of the snapshot; for a reading its fetcher failed to deliver
    these are the default values of the snapshot (Kp 2 quiet G0, solar wind
    400/4/100000, proton flux 1 S0), which are recorded like measured ones.
    Only the satellite position, which has no default, is skipped when it
    is missing. *)
Theorem recordData_records_the_snapshot (w : RecordWorld) (st : State) (r : Readings) :
  history_ready st →
  snap_upstream (rec_snapshot w) = Returned r →
  rec_solarWind_write w = None → rec_kp_write w = None →
  rec_iss_write w = None → rec_radiation_write w = None →
  match r_iss r with Some i => iss_complete i = true | None => True end →
  let st' := exec (recordData toFixed w) st in
  let now := rec_now w in
  let wind := default default_solarWind (r_solarWind r) in
  let field := default default_magneticField (r_magField r) in
  let k := default default_kp (r_kp r) in
  let p := default default_proton (r_proton r) in
  let e := default default_electron (r_electron r) in
  rows_of sheet_solarWind st'
    = rows_of sheet_solarWind st
      ++ [{| swr_time := now; swr_speed := sw_speed wind; swr_density := sw_density wind;
             swr_bz := JS.or_num (mf_bz field) 0; swr_bt := JS.or_num (mf_bt field) 0;
             swr_temperature := sw_temperature wind |}] ∧
  rows_of sheet_kp st'
    = rows_of sheet_kp st
      ++ [{| kpr_time := now; kpr_kp := kp_kp k; kpr_level := kp_level k;
             kpr_gLevel := kp_gLevel k |}] ∧
  rows_of sheet_iss st'
    = rows_of sheet_iss st
      ++ match r_iss r with
         | Some i =>
             [{| issr_time := now;
                 issr_lat := toFixed 4 (default 0%Q (iss_lat i));
                 issr_lon := toFixed 4 (default 0%Q (iss_lon i));
                 issr_altitude := toFixed 1 (default 0%Q (iss_altitude i));
                 issr_velocity := toFixed 0 (default 0%Q (iss_velocity i));
                 issr_location := iss_location i |}]
         | None => []
         end ∧
  rows_of sheet_radiation st'
    = rows_of sheet_radiation st
      ++ [{| radr_time := now; radr_proton := p_flux p;
             radr_electron := JS.or_num (e_flux e) 0; radr_sLevel := p_sLevel p |}] ∧
  subscriptions st' = subscriptions st ∧
  delivery_log st' = delivery_log st.
Proof.
  intros (d & Hd & [r1 H1] & [r2 H2] & [r3 H3] & [r4 H4]) Hup Hw1 Hw2 Hw3 Hw4 Hiss0.
  cbn zeta.
  destruct (getSpaceWeather_resolved (rec_snapshot w) true st r (cache_hit_forced _ _) Hup)
    as (s & Hb & Hrun). cbn zeta in Hrun.
  destruct (build_snapshot_run r (snap_timestamp (rec_snapshot w)))
    as (s' & Hb' & _ & _ & Hsw & Hmf & Hkp & _ & Hp & He & Hiss).
  assert (s' = s) as -> by (specialize (Hb st); specialize (Hb' st); congruence).
  rewrite <- Hsw, <- Hmf, <- Hkp, <- Hp, <- He.
  unfold rows_of, subscriptions, delivery_log, exec.
  destruct (recordData toFixed w st) as [out stf] eqn:Hrec.
  unfold recordData in Hrec.
  erewrite bind_run in Hrec by reflexivity. rewrite Hd in Hrec.
  unfold try_catch in Hrec.
  erewrite bind_run in Hrec by exact Hrun.
  cbn [value data_solarWind data_kp data_iss data_proton data_magneticField data_electron]
    in Hrec.
  rewrite Hiss in Hrec. clear Hrun Hb Hb' Hiss Hup Hsw Hmf Hkp Hp He.
  destruct d as [s0 s1 s2 s3 s4 s5]. cbn in H1, H2, H3, H4. subst.
  destruct st as [dc c ct la n tr]. cbn in Hd. subst dc.
  destruct w as [now sw f1 f2 f3 f4].
  cbn [rec_now rec_snapshot rec_solarWind_write rec_kp_write rec_iss_write
       rec_radiation_write] in *. subst f1 f2 f3 f4.
  unfold append_row, num_toFixed in Hrec.
  destruct (r_iss r) as [[[lat|] [lon|] [alt|] [vel|] loc]|];
    cbn [iss_lat iss_lon iss_altitude iss_velocity iss_location iss_complete] in *;
    try discriminate Hiss0;
    run; cbn in Hrec; injection Hrec as <- <-; cbn; rewrite ?app_nil_r;
    split_and!; reflexivity.
Qed.

End RecordingContent.

Lemma recordData_records_the_snapshot_witness :
  let w := {| rec_now := "2025-12-25T03:00:00.000Z";
              rec_snapshot := Sample.snapshot_world Sample.t0 Sample.quiet;
              rec_solarWind_write := None; rec_kp_write := None;
              rec_iss_write := None; rec_radiation_write := None |} in
  rows_of sheet_kp (exec (recordData Stub.toFixed w) Scenario.st)
  = [{| kpr_time := "2025-12-25T03:00:00.000Z"; kpr_kp := 2; kpr_level := "quiet";
        kpr_gLevel := "G0" |}].
Proof.
  intros w.
  destruct (recordData_records_the_snapshot Stub.toFixed w Scenario.st Sample.quiet)
    as (_ & Hkp & _).
  - exists (Sample.sheets Scenario.rows). split_and!; [reflexivity|by eexists..].
  - reflexivity.
  - reflexivity.
  - reflexivity.
  - reflexivity.
  - reflexivity.
  - exact I.
  - exact Hkp.
Defined.

(** ** The two listings agree *)

(** X28.  The two readers of the subscription sheet tell the same story.
    In every state, a user is among the subscribers [getSubscribersByType]
    returns for a topic exactly when [getSubscriptions] lists a subscription
    of that topic for the user; both carry the same schedule; and neither
    ever throws or changes the state -- a sheet that cannot be read shows as
    an empty list in both. *)
Theorem listings_agree (read : fault) (user type : string) (st : State) :
  ∃ subscribers listed,
    getSubscribersByType read type st = (Returned subscribers, st) ∧
    getSubscriptions read user st = (Returned listed, st) ∧
    (∀ time, {| userId := user; pushTime := time |} ∈ subscribers ↔
             ∃ s, s ∈ listed ∧ s_type s = type ∧ s_pushTime s = time) ∧
    (is_Some read → subscribers = [] ∧ listed = []).
Proof.
  eexists _, _. split; [apply getSubscribersByType_run|].
  split; [apply getSubscriptions_run|].
  unfold active_subscribers, active_subscriptions.
  destruct (doc st ≫= sheet_subscriptions) as [rows|].
  2:{ split; [|done]. intros time. split; [by intros ?%elem_of_nil|].
      by intros (s & ?%elem_of_nil & _). }
  destruct read as [e|].
  { split; [|done]. intros time. split; [by intros ?%elem_of_nil|].
    by intros (s & ?%elem_of_nil & _). }
  split; [|by intros [? [=]]].
  intros time. split.
  - intros (row & [= Hu Ht] & [[Hty Hon] Hrow]%list_elem_of_filter)%list_elem_of_fmap.
    eexists. split.
    + apply list_elem_of_fmap. exists row. split; [reflexivity|].
      apply list_elem_of_filter. by split.
    + done.
  - intros (s & (row & -> & [[Hu Hon] Hrow]%list_elem_of_filter)%list_elem_of_fmap
              & Hty & Htime).
    cbn in Hty, Htime. apply list_elem_of_fmap. exists row. split.
    + by rewrite Hu, Htime.
    + apply list_elem_of_filter. by split.
Qed.
